(** * Workflow catalog and batch exporter: a shallow embedding

    The two Python modules of the repository, [api.py] (HTTP catalog) and
    [cf.py] (batch exporter), embedded as Rocq functions over

    - decoded JSON documents ([json]; Python dicts are finite maps),
    - [pathlib] paths as lists of components, resolved by the file system,
    - a file system with a trace of the files read and written, threaded
      through an exception-and-state monad [io]. *)

From Stdlib Require Import ZArith Ascii String List.
From stdpp Require Import gmap strings list fin_maps sorting pretty.

#[local] Set Warnings "-register-all".
Local Open Scope string_scope.
Local Open Scope list_scope.

(** ** Decoded JSON documents

    What [json.loads] returns.  A Python [dict] decoded from JSON has [str]
    keys, each at most once: a finite map.  A [float] is identified by the
    text [json.dumps] prints for it (its [repr], or [NaN], [Infinity],
    [-Infinity]); zero is ["0.0"] or ["-0.0"]. *)
Inductive json :=
| JNull
| JBool (b : bool)
| JInt (n : Z)
| JFloat (repr : string)
| JString (s : string)
| JArray (items : list json)
| JObject (fields : gmap string json).

Definition isinstance_dict (v : json) : bool :=
  match v with JObject _ => true | _ => false end.

Definition isinstance_list (v : json) : bool :=
  match v with JArray _ => true | _ => false end.

(** [isinstance(k, str)] on a key of a decoded object: keys are [string]s. *)
Definition isinstance_str (k : string) : bool := true.

(** [d.get(k)]: the value, or [None]. *)
Definition dict_get (d : gmap string json) (k : string) : json :=
  default JNull (d !! k).

(** [d.get(k, dflt)]. *)
Definition dict_get_or (d : gmap string json) (k : string) (dflt : json) : json :=
  default dflt (d !! k).

(** [k in d]. *)
Definition dict_in (k : string) (d : gmap string json) : bool :=
  bool_decide (is_Some (d !! k)).

(** [k in v] for a value already known to be a dict. *)
Definition has_key (k : string) (v : json) : bool :=
  match v with JObject d => dict_in k d | _ => false end.

(** Python truthiness: [bool(v)]. *)
Definition truthy (v : json) : bool :=
  match v with
  | JNull => false
  | JBool b => b
  | JInt n => negb (n =? 0)%Z
  | JFloat r => negb (String.eqb r "0.0" || String.eqb r "-0.0")
  | JString s => negb (String.eqb s "")
  | JArray l => match l with [] => false | _ => true end
  | JObject d => negb (bool_decide (d = ∅))
  end.

(** [a or b]. *)
Definition py_or (a b : json) : json := if truthy a then a else b.

(** [type(v).__name__]. *)
Definition type_name (v : json) : string :=
  match v with
  | JNull => "NoneType"
  | JBool _ => "bool"
  | JInt _ => "int"
  | JFloat _ => "float"
  | JString _ => "str"
  | JArray _ => "list"
  | JObject _ => "dict"
  end.

(** ** Results and exceptions

    Every handler of the two modules is [except Exception], and an exception
    is only ever used through [str(e)]: an exception is its message. *)
Inductive result (A : Type) :=
| Ok (a : A)
| Raise (msg : string).
Arguments Ok {A} a.
Arguments Raise {A} msg.

(** ** [str] methods

    Strings are byte strings: a [str] is its UTF-8 encoding, a lone
    surrogate (which a [str] can hold, for instance decoded from the
    escape [\ud800]) being the three bytes [ED A0..BF 80..BF] that the
    encoding would give it.  [lower] and [title] change ASCII letters
    only; bytes of other characters are left as they are, so both are the
    methods of [str] on ASCII strings. *)
Definition is_upper (c : ascii) : bool :=
  let n := nat_of_ascii c in ((65 <=? n) && (n <=? 90))%nat.
Definition is_lower (c : ascii) : bool :=
  let n := nat_of_ascii c in ((97 <=? n) && (n <=? 122))%nat.
Definition ascii_lower (c : ascii) : ascii :=
  if is_upper c then ascii_of_nat (nat_of_ascii c + 32) else c.
Definition ascii_upper (c : ascii) : ascii :=
  if is_lower c then ascii_of_nat (nat_of_ascii c - 32) else c.

Fixpoint string_map (f : ascii → ascii) (s : string) : string :=
  match s with
  | EmptyString => EmptyString
  | String c s' => String (f c) (string_map f s')
  end.

(** [s.lower()]. *)
Definition lower (s : string) : string := string_map ascii_lower s.

(** [s.replace(old, new)] for one-character [old] and [new]. *)
Definition replace_char (old new : ascii) (s : string) : string :=
  string_map (λ c, if Ascii.eqb c old then new else c) s.

(** [s.title()]: a letter is upper-cased after an uncased character and
    lower-cased after a cased one. *)
Fixpoint title_from (prev_cased : bool) (s : string) : string :=
  match s with
  | EmptyString => EmptyString
  | String c s' =>
      if is_upper c || is_lower c
      then String (if prev_cased then ascii_lower c else ascii_upper c)
                  (title_from true s')
      else String c (title_from false s')
  end.
Definition title (s : string) : string := title_from false s.

(** [s.endswith(suf)]. *)
Fixpoint endswith (s suf : string) : bool :=
  String.eqb s suf
  || match s with
     | EmptyString => false
     | String _ s' => endswith s' suf
     end.

(** [s.rfind(c)] for a character [c]: the last index, or [-1]. *)
Fixpoint rfind (c : ascii) (s : string) : Z :=
  match s with
  | EmptyString => (-1)%Z
  | String a s' =>
      let i := rfind c s' in
      if (0 <=? i)%Z then (i + 1)%Z
      else if Ascii.eqb a c then 0%Z else (-1)%Z
  end.

(** [s[:n]] and [s[n:]] for [0 <= n]. *)
Fixpoint str_take (n : nat) (s : string) : string :=
  match n, s with
  | S n', String c s' => String c (str_take n' s')
  | _, _ => EmptyString
  end.
Fixpoint str_drop (n : nat) (s : string) : string :=
  match n, s with
  | S n', String _ s' => str_drop n' s'
  | _, _ => s
  end.

(** [c in s] for a character [c]. *)
Fixpoint str_contains (c : ascii) (s : string) : bool :=
  match s with
  | EmptyString => false
  | String a s' => Ascii.eqb a c || str_contains c s'
  end.

(** [s.split(c)]. *)
Fixpoint split_on (c : ascii) (s : string) : list string :=
  match s with
  | EmptyString => [EmptyString]
  | String a s' =>
      if Ascii.eqb a c then EmptyString :: split_on c s'
      else match split_on c s' with
           | h :: t => String a h :: t
           | [] => [String a EmptyString]
           end
  end.

(** ** [pathlib] (POSIX flavour)

    A [Path] is the list of its components, root first; directories are
    absolute.  Parsing a string drops empty and ["."] components and keeps
    [".."]: [pathlib] is lexical, the file system resolves. *)
Abbreviation path := (list string).

Definition pure_parts (s : string) : path :=
  List.filter (λ c, negb (String.eqb c "" || String.eqb c ".")) (split_on "/" s).

(** [Path(s).name], [p.name]: the final component, [''] when there is none. *)
Definition path_name (p : path) : string := List.last p "".
Definition str_name (s : string) : string := path_name (pure_parts s).

(** [PurePath.suffix] and [PurePath.stem] of a final component
    ([i = name.rfind('.')]; [0 < i < len(name) - 1]). *)
Definition name_suffix (name : string) : string :=
  let i := rfind "." name in
  if (0 <? i)%Z && (i <? Z.of_nat (String.length name) - 1)%Z
  then str_drop (Z.to_nat i) name else "".
Definition name_stem (name : string) : string :=
  let i := rfind "." name in
  if (0 <? i)%Z && (i <? Z.of_nat (String.length name) - 1)%Z
  then str_take (Z.to_nat i) name else name.

Definition suffix (p : path) : string := name_suffix (path_name p).
Definition stem (p : path) : string := name_stem (path_name p).

(** [d / s] for a string [s]: an absolute [s] replaces [d]. *)
Definition truediv (d : path) (s : string) : path :=
  match s with
  | String a _ => if Ascii.eqb a "/" then pure_parts s else d ++ pure_parts s
  | EmptyString => d ++ pure_parts s
  end.

(** [str(p)]. *)
Definition show_path (p : path) : string :=
  match p with
  | [] => "/"
  | _ => String.concat "" (List.map (λ c, "/" +:+ c) p)
  end.

(** [p1 <= p2] on paths: component-wise, strings by code point. *)
Fixpoint path_leb (p q : path) : bool :=
  match p, q with
  | [], _ => true
  | _ :: _, [] => false
  | a :: p', b :: q' =>
      match String.compare a b with
      | Lt => true
      | Gt => false
      | Eq => path_leb p' q'
      end
  end.

(** [sorted(paths)]. *)
Definition path_le (p q : path) : Prop := path_leb p q = true.
#[export] Instance path_le_dec : RelDecision path_le :=
  λ p q, decide (path_leb p q = true).
Definition sorted (l : list path) : list path := merge_sort path_le l.

(** ** The file system

    A map from resolved paths to nodes.  A regular file holds either its
    text or the message of the error that reading it raises (permissions,
    bytes that are not UTF-8).  The root is a directory.  The trace records
    the files whose content is read or written. *)
Inductive node :=
| Dir
| Reg (content : result string).

Inductive event :=
| Read (p : path)
| Write (p : path).

Record world := World {
  files : gmap path node;
  trace : list event;
}.

(** Resolution of [".."] components: each one drops the component before
    it.  The kernel does the same when that component is an existing
    directory and not a symbolic link, and fails otherwise; a path without
    [".."] resolves to itself ([no_parent_segment] below). *)
Definition resolve_step (acc : path) (c : string) : path :=
  if String.eqb c ".." then removelast acc else acc ++ [c].
Definition resolve (p : path) : path := foldl resolve_step [] p.

Definition node_at (fs : gmap path node) (q : path) : option node :=
  match q with
  | [] => Some Dir
  | _ => fs !! q
  end.

(** A name that a directory entry can have: no separator, and not one of
    [''], ['.'], ['..']. *)
Definition valid_name (n : string) : bool :=
  negb (str_contains "/" n)
  && negb (String.eqb n "" || String.eqb n "." || String.eqb n "..").

(** ** The [io] monad: state and exceptions *)
Definition io (A : Type) : Type := world → result A * world.

Definition ret {A} (a : A) : io A := λ w, (Ok a, w).
Definition bind {A B} (m : io A) (f : A → io B) : io B :=
  λ w, match m w with
       | (Ok a, w') => f a w'
       | (Raise e, w') => (Raise e, w')
       end.

Notation "x <- m ;; k" := (bind m (λ x, k))
  (at level 100, m at next level, right associativity).

(** A pure computation that may raise. *)
Definition lift {A} (r : result A) : io A := λ w, (r, w).

(** [try: m  except Exception as e: h e]. *)
Definition try_except {A} (m : io A) (h : string → io A) : io A :=
  λ w, match m w with
       | (Ok a, w') => (Ok a, w')
       | (Raise e, w') => h e w'
       end.

Definition log (e : event) (w : world) : world :=
  World (files w) (trace w ++ [e]).

(** A name of a directory entry has at most [NAME_MAX] bytes.  Looking a
    longer name up in an existing directory fails with [ENAMETOOLONG]; when
    the directory is missing or is a regular file, the lookup fails before
    the name is looked at ([ENOENT], [ENOTDIR]).  No directory holds an
    entry with such a name; were the map to hold one, the lookup finds it.
    A path of [PATH_MAX] bytes or more fails in the same way before any
    lookup.  Directories can be searched: no lookup fails
    with [EACCES]. *)
Definition NAME_MAX : nat := 255.
Definition PATH_MAX : nat := 4096.

Fixpoint long_name_reached (fs : gmap path node) (pre rest : path) : bool :=
  match rest with
  | [] => false
  | c :: rest' =>
      if (NAME_MAX <? String.length c)%nat
      then match node_at fs (resolve pre) with
           | Some Dir => true
           | _ => false
           end
      else long_name_reached fs (pre ++ [c]) rest'
  end.

(** The error of [os.stat(p)] that is not "there is no such file": the
    message of the [OSError]. *)
Definition stat_error (fs : gmap path node) (p : path) : option string :=
  match node_at fs (resolve p) with
  | Some _ => None
  | None =>
      if long_name_reached fs [] p
         || (PATH_MAX <=? String.length (show_path p))%nat
      then Some ("[Errno 36] File name too long: '" +:+ show_path p +:+ "'")
      else None
  end.

(** ** Encoding a text

    What [str.encode("utf-8")] refuses: a lone surrogate.  The message of
    the [UnicodeEncodeError] names the first run of surrogates: the
    character, for a run of one, and the positions, counted in
    characters. *)
Definition is_continuation (c : ascii) : bool :=
  let n := nat_of_ascii c in ((128 <=? n) && (n <? 192))%nat.

Definition surrogate_at (s : string) : bool :=
  match s with
  | String a (String b _) =>
      ((nat_of_ascii a =? 237) && (160 <=? nat_of_ascii b))%nat
  | _ => false
  end.

Fixpoint utf8_encodable (s : string) : bool :=
  match s with
  | EmptyString => true
  | String _ s' => negb (surrogate_at s) && utf8_encodable s'
  end.

(** The position of the first surrogate, and the text from there on. *)
Fixpoint first_surrogate (pos : nat) (s : string) : option (nat * string) :=
  match s with
  | EmptyString => None
  | String c s' =>
      if surrogate_at s then Some (pos, s)
      else first_surrogate (if is_continuation c then pos else S pos) s'
  end.

Fixpoint surrogate_run (fuel : nat) (s : string) : nat :=
  match fuel with
  | O => O
  | S fuel' =>
      if surrogate_at s then S (surrogate_run fuel' (str_drop 3 s)) else O
  end.

Definition hex_digit (n : nat) : ascii :=
  if (n <? 10)%nat then ascii_of_nat (48 + n) else ascii_of_nat (87 + n).

(** The code point of the surrogate at the head of [s], as [\udxxx]. *)
Definition surrogate_escape (s : string) : string :=
  match s with
  | String _ (String b (String c _)) =>
      let x := (nat_of_ascii b - 128)%nat in
      let y := (nat_of_ascii c - 128)%nat in
      String "\" (String "u" (String "d"
        (String (hex_digit (x / 4))
           (String (hex_digit (x mod 4 * 4 + y / 16))
              (String (hex_digit (y mod 16)) EmptyString)))))
  | _ => EmptyString
  end.

Definition encode_error (text : string) : string :=
  match first_surrogate 0 text with
  | Some (pos, rest) =>
      match surrogate_run (String.length rest) rest with
      | 1%nat =>
          "'utf-8' codec can't encode character '" +:+ surrogate_escape rest
          +:+ "' in position " +:+ pretty pos +:+ ": surrogates not allowed"
      | n =>
          "'utf-8' codec can't encode characters in position " +:+ pretty pos
          +:+ "-" +:+ pretty (pos + n - 1)%nat +:+ ": surrogates not allowed"
      end
  | None => EmptyString
  end.

(** [p] resolves to a regular file. *)
Definition regular (fs : gmap path node) (p : path) : bool :=
  match node_at fs (resolve p) with
  | Some (Reg _) => true
  | _ => false
  end.

(** [p.exists()], [p.is_file()]: false when there is no such file, and the
    [OSError] of [os.stat] otherwise. *)
Definition path_exists (p : path) : io bool :=
  λ w, match stat_error (files w) p with
       | Some e => (Raise e, w)
       | None => (Ok (bool_decide (is_Some (node_at (files w) (resolve p)))), w)
       end.
Definition is_file (p : path) : io bool :=
  λ w, match stat_error (files w) p with
       | Some e => (Raise e, w)
       | None => (Ok (regular (files w) p), w)
       end.

(** [p.read_text(encoding="utf-8")]. *)
Definition read_text (p : path) : io string :=
  λ w, match node_at (files w) (resolve p) with
       | Some (Reg c) => (c, log (Read (resolve p)) w)
       | Some Dir =>
           (Raise ("[Errno 21] Is a directory: '" +:+ show_path p +:+ "'"), w)
       | None =>
           (Raise (default ("[Errno 2] No such file or directory: '"
                            +:+ show_path p +:+ "'")
                     (stat_error (files w) p)), w)
       end.

(** [p.write_text(text, encoding="utf-8")]: opening the file creates it or
    empties it, and the directory it is in has to exist; then the text is
    encoded and written.  A text that cannot be encoded raises when the
    file is already open: the file is left empty. *)
Definition write_text (p : path) (text : string) : io unit :=
  λ w, let q := resolve p in
       match stat_error (files w) p with
       | Some e => (Raise e, w)
       | None =>
           match node_at (files w) q with
           | Some Dir =>
               (Raise ("[Errno 21] Is a directory: '" +:+ show_path p +:+ "'"),
                w)
           | _ =>
               match node_at (files w) (removelast q) with
               | Some Dir =>
                   if utf8_encodable text
                   then (Ok tt,
                         log (Write q)
                           (World (<[q := Reg (Ok text)]> (files w)) (trace w)))
                   else (Raise (encode_error text),
                         log (Write q)
                           (World (<[q := Reg (Ok "")]> (files w)) (trace w)))
               | _ =>
                   (Raise ("[Errno 2] No such file or directory: '"
                           +:+ show_path p +:+ "'"), w)
               end
           end
       end.

(** [os.mkdir(p)] with an existing directory accepted. *)
Definition mkdir_exist_ok (p : path) : io unit :=
  λ w, let q := resolve p in
       match node_at (files w) q with
       | Some Dir => (Ok tt, w)
       | Some (Reg _) =>
           (Raise ("[Errno 17] File exists: '" +:+ show_path p +:+ "'"), w)
       | None =>
           match stat_error (files w) p with
           | Some e => (Raise e, w)
           | None => (Ok tt, World (<[q := Dir]> (files w)) (trace w))
           end
       end.

Fixpoint for_each {A} (f : A → io unit) (l : list A) : io unit :=
  match l with
  | [] => ret tt
  | a :: l' => _ <- f a ;; for_each f l'
  end.

(** The lexical prefixes of a path, shortest first. *)
Fixpoint prefixes_from (pre rest : path) : list path :=
  match rest with
  | [] => []
  | c :: rest' => (pre ++ [c]) :: prefixes_from (pre ++ [c]) rest'
  end.

(** [p.mkdir(parents=True, exist_ok=True)]: every missing lexical ancestor
    is created, then [p]; a regular file in the way raises. *)
Definition mkdir_parents (p : path) : io unit :=
  for_each mkdir_exist_ok (prefixes_from [] p).

(** [fnmatch] of one component against a pattern of literals, [?] and [*]. *)
Fixpoint fnmatch (pat name : string) : bool :=
  match pat with
  | EmptyString => String.eqb name ""
  | String c pat' =>
      if Ascii.eqb c "*" then
        (fix star (n : string) : bool :=
           fnmatch pat' n
           || match n with
              | EmptyString => false
              | String _ n' => star n'
              end) name
      else
        match name with
        | EmptyString => false
        | String a n' =>
            (Ascii.eqb c "?" || Ascii.eqb a c) && fnmatch pat' n'
        end
  end.

(** The name under which [q] is an entry of directory [d], if it is one. *)
Definition entry_name (d q : path) : option string :=
  let n := path_name q in
  if bool_decide (q = d ++ [n]) && valid_name n then Some n else None.

(** [os.scandir(d)]: the names of the entries of [d]. *)
Definition scandir (fs : gmap path node) (d : path) : list string :=
  omap (λ '(q, _), entry_name (resolve d) q) (map_to_list fs).

(** [d.glob(pattern)] for a one-component pattern of literals, [?] and [*]:
    the entries of [d] whose name matches, hidden ones included, as
    [d / name].  An empty or absolute pattern raises.  Bracket classes,
    [**] and patterns with a separator are not interpreted: their
    characters are matched as literals. *)
Definition glob (d : path) (pattern : string) : io (list path) :=
  λ w, match pattern with
       | EmptyString => (Raise "Unacceptable pattern: ''", w)
       | String c _ =>
           if Ascii.eqb c "/"
           then (Raise "Non-relative patterns are unsupported", w)
           else
             (Ok (List.map (λ n, d ++ [n])
                    (List.filter (fnmatch pattern) (scandir (files w) d))), w)
       end.

Fixpoint io_filter {A} (f : A → io bool) (l : list A) : io (list A) :=
  match l with
  | [] => ret []
  | a :: l' =>
      b <- f a ;;
      r <- io_filter f l' ;;
      ret (if b then a :: r else r)
  end.

Fixpoint io_map {A B} (f : A → io B) (l : list A) : io (list B) :=
  match l with
  | [] => ret []
  | a :: l' =>
      b <- f a ;;
      r <- io_map f l' ;;
      ret (b :: r)
  end.

(** ** Python dicts whose order matters: association lists

    [d[k] = v] replaces in place or appends; [d.get(k)] finds the entry. *)
Fixpoint dict_set {V} (k : string) (v : V) (d : list (string * V))
  : list (string * V) :=
  match d with
  | [] => [(k, v)]
  | (k', v') :: d' =>
      if String.eqb k k' then (k, v) :: d' else (k', v') :: dict_set k v d'
  end.

Fixpoint dict_lookup {V} (k : string) (d : list (string * V)) : option V :=
  match d with
  | [] => None
  | (k', v') :: d' => if String.eqb k k' then Some v' else dict_lookup k d'
  end.

(** [{**d, k1: v1, ..., kn: vn}]: later entries win. *)
Definition dict_update (d : gmap string json) (l : list (string * json))
  : gmap string json :=
  foldl (λ acc kv, <[kv.1 := kv.2]> acc) d l.

(** ** [api.py]

    The handlers, as functions of what they take from the request: the
    [name] the router matched and the [format] query value.  Routing and
    the registration of the routes are the host's. *)
Module api.

Record request := Request {
  match_info_name : option string;   (* request.match_info.get("name") *)
  query_format : option string;      (* request.query.get("format") *)
}.

Record response := Response {
  status : nat;
  text : string;
  content_type : option string;
  headers : list (string * string);
}.

Definition cors : list (string * string) :=
  [("Access-Control-Allow-Origin", "*")].

Definition ui_workflow_message : string :=
  "Workflow is a UI workflow, not an API graph. Export API (JSON) and save as .api.json.".

Section routes.
(** [json.loads], and the module constant [WORKFLOWS_DIR]. *)
Variable json_loads : string → result json.
Variable WORKFLOWS_DIR : path.

Definition _is_api_graph (data : json) : bool :=
  match data with
  | JObject d =>
      if dict_in "nodes" d && isinstance_list (dict_get d "nodes") then false
      else
        existsb (λ kv,
                   isinstance_str kv.1 && isinstance_dict kv.2
                   && has_key "class_type" kv.2 && has_key "inputs" kv.2)
                (map_to_list d)
  | _ => false
  end.

Definition _load_json (p : path) : io json :=
  t <- read_text p ;;
  lift (json_loads t).

(** [meta.get]: an attribute only a dict has. *)
Definition getattr_get (meta : json) : result (gmap string json) :=
  match meta with
  | JObject d => Ok d
  | _ => Raise ("'" +:+ type_name meta +:+ "' object has no attribute 'get'")
  end.

Definition _meta_from (p : path) (data : json) : result (gmap string json) :=
  let meta :=
    match data with
    | JObject d => py_or (dict_get_or d "cvb_meta" (JObject ∅)) (JObject ∅)
    | _ => JObject ∅
    end in
  match getattr_get meta with
  | Raise e => Raise e
  | Ok m =>
      let title :=
        py_or (dict_get m "title")
              (JString (title (replace_char "-" " " (stem p)))) in
      let desc := dict_get_or m "description" (JString "") in
      let tags := dict_get_or m "tags" (JArray []) in
      let version := dict_get_or m "version" (JString "1") in
      Ok (dict_update ∅
            [("id", py_or (dict_get m "id") (JString (stem p)));
             ("title", title);
             ("description", desc);
             ("tags", tags);
             ("version", version)])
  end.

Definition _list_files : io (list path) :=
  ps <- glob WORKFLOWS_DIR "*.json" ;;
  fs <- io_filter is_file ps ;;
  ret (sorted fs).

Definition raw_url (p : path) : string :=
  "/cvb/workflows/" +:+ path_name p +:+ "?format=raw".
Definition api_url (p : path) : string :=
  "/cvb/workflows/" +:+ path_name p +:+ "?format=api".

(** The entry appended by the [except] branch of the loop. *)
Definition error_entry (p : path) (e : string) : gmap string json :=
  dict_update ∅
    [("id", JString (stem p));
     ("title", JString (stem p));
     ("description", JString ("Failed to parse: " +:+ e));
     ("filename", JString (path_name p));
     ("is_api", JBool false);
     ("raw_url", JString (raw_url p));
     ("template_url", JString (api_url p));
     ("error", JBool true)].

(** One turn of the loop of [list_workflows]: the entry appended for [p]. *)
Definition list_item (names : list (string * path)) (p : path)
  : io (gmap string json) :=
  try_except
    (data <- _load_json p ;;
     meta <- lift (_meta_from p data) ;;
     let is_api := _is_api_graph data || endswith (stem p) ".api" in
     r <- (if negb is_api then
            let api_name := stem p +:+ ".api.json" in
            match dict_lookup api_name names with
            | Some companion =>
                b <- try_except
                      (d <- _load_json companion ;;
                       ret (_is_api_graph d || true))
                      (λ _, ret is_api) ;;
                ret (b, Some companion)
            | None => ret (is_api, None)
            end
          else ret (is_api, None)) ;;
     let template_url :=
       match r.2 with
       | Some companion => api_url companion
       | None => api_url p
       end in
     ret (dict_update meta
             [("filename", JString (path_name p));
              ("is_api", JBool r.1);
              ("raw_url", JString (raw_url p));
              ("template_url", JString template_url)]))
    (λ e, ret (error_entry p e)).

(** [names = {p.name: p for p in _list_files()}]. *)
Definition names_of (fs : list path) : list (string * path) :=
  foldl (λ d p, dict_set (path_name p) p d) [] fs.

(** [list_workflows]: the items of the JSON response. *)
Definition list_workflows : io (list (gmap string json)) :=
  fs <- _list_files ;;
  let names := names_of fs in
  io_map (λ np, list_item names np.2) names.

Definition get_workflow (req : request) : io response :=
  let name := str_name (default "" (match_info_name req)) in
  let fmt := lower (default "raw" (query_format req)) in
  let p := truediv WORKFLOWS_DIR name in
  ex <- path_exists p ;;
  isf <- is_file p ;;
  if negb (ex && isf && String.eqb (suffix p) ".json")
  then ret (Response 404 "Workflow not found" None [])
  else
    try_except
      (t <- read_text p ;;
       data <- lift (json_loads t) ;;
       if String.eqb fmt "raw"
       then ret (Response 200 t (Some "application/json") cors)
       else if String.eqb fmt "api"
       then
         if _is_api_graph data
         then ret (Response 200 t (Some "application/json") cors)
         else ret (Response 422 ui_workflow_message None cors)
       else ret (Response 400 "Invalid format; use raw|api" None []))
      (λ e, ret (Response 500 ("Failed to read workflow: " +:+ e) None [])).

(** [get_template_alias]: the query gets [format=api] (whatever it held),
    the matched name is cut to its final component and gets the suffix
    [.json] unless it ends with it, and the request goes to
    [get_workflow]. *)
Definition get_template_alias (req : request) : io response :=
  let name := str_name (default "" (match_info_name req)) in
  get_workflow
    (Request (Some (if endswith name ".json" then name else name +:+ ".json"))
             (Some "api")).

End routes.
End api.

(** ** [cf.py]

    [convert_all] and what it calls; the node class and the HTTP endpoint
    only pass their arguments to it. *)
Module cf.
Section exporter.
(** [json.loads], and [json.dumps(_, ensure_ascii=False, indent=2)]. *)
Variable json_loads : string → result json.
Variable json_dumps : json → string.

Definition _is_api_graph (data : json) : bool :=
  match data with
  | JObject d =>
      if dict_in "nodes" d && isinstance_list (dict_get d "nodes") then false
      else
        existsb (λ kv,
                   isinstance_str kv.1 && isinstance_dict kv.2
                   && has_key "class_type" kv.2 && has_key "inputs" kv.2)
                (map_to_list d)
  | _ => false
  end.

Definition _target_name (src_name : string) : string :=
  let p := pure_parts src_name in
  if String.eqb (suffix p) ".json" && endswith (stem p) ".api"
  then path_name p
  else stem p +:+ ".api.json".

(** The body of the [for] loop: one path, and the two lists so far
    ([continue] returns them as they are). *)
Definition convert_file (dest_dir : path) (overwrite : bool) (p : path)
  (acc : list string * list string) : io (list string * list string) :=
  isf <- is_file p ;;
  if negb isf then ret acc
  else
    r <- try_except
          (t <- read_text p ;;
           data <- lift (json_loads t) ;;
           ret (Some data))
          (λ _, ret None) ;;
    match r with
    | None => ret (acc.1, acc.2 ++ [path_name p])
    | Some data =>
        if _is_api_graph data then
          let out_name := _target_name (path_name p) in
          let out_path := truediv dest_dir out_name in
          ex <- path_exists out_path ;;
          if ex && negb overwrite then ret acc
          else
            _ <- write_text out_path (json_dumps data) ;;
            ret (acc.1 ++ [out_name], acc.2)
        else ret (acc.1, acc.2 ++ [path_name p])
    end.

Fixpoint convert_loop (dest_dir : path) (overwrite : bool)
  (paths : list path) (acc : list string * list string)
  : io (list string * list string) :=
  match paths with
  | [] => ret acc
  | p :: rest =>
      acc' <- convert_file dest_dir overwrite p acc ;;
      convert_loop dest_dir overwrite rest acc'
  end.

Definition convert_all (source_dir dest_dir : path) (overwrite : bool)
  (pattern : string) : io (list string * list string) :=
  _ <- mkdir_parents dest_dir ;;
  ps <- glob source_dir pattern ;;
  convert_loop dest_dir overwrite (sorted ps) ([], []).

End exporter.
End cf.

(** ** A JSON decoder and encoder for the examples

    The embedding above takes [json.loads] and [json.dumps] as parameters.
    The examples instantiate them with a decoder and an encoder for the JSON
    texts they use: objects, arrays, strings without escapes, integers and
    the three literals.  On such a text [loads] returns what [json.loads]
    returns; a malformed text, and a text outside this fragment, raises.
    [dumps] prints the way [json.dumps(_, ensure_ascii=False, indent=2)]
    does, the keys of an object in the order of the map. *)
Module basic_json.

Definition dquote : ascii := "034".
Definition backslash : ascii := "092".

(** Texts are written with ['] for the double quote. *)
Definition q (s : string) : string := replace_char "'" dquote s.

Definition is_ws (c : ascii) : bool :=
  Ascii.eqb c " " || Ascii.eqb c "009" || Ascii.eqb c "010" || Ascii.eqb c "013".

Definition is_digit (c : ascii) : bool :=
  let n := nat_of_ascii c in ((48 <=? n) && (n <=? 57))%nat.

Fixpoint skip_ws (s : string) : string :=
  match s with
  | String c s' => if is_ws c then skip_ws s' else s
  | EmptyString => EmptyString
  end.

(** The characters of a string up to its closing quote, and the rest. *)
Fixpoint scan_string (s : string) : option (string * string) :=
  match s with
  | EmptyString => None
  | String c s' =>
      if Ascii.eqb c dquote then Some (EmptyString, s')
      else if Ascii.eqb c backslash || (nat_of_ascii c <? 32)%nat then None
      else match scan_string s' with
           | Some (t, r) => Some (String c t, r)
           | None => None
           end
  end.

Fixpoint scan_digits (s : string) : string * string :=
  match s with
  | String c s' =>
      if is_digit c
      then let '(ds, r) := scan_digits s' in (String c ds, r)
      else (EmptyString, s)
  | EmptyString => (EmptyString, EmptyString)
  end.

Fixpoint digits_value (acc : Z) (ds : string) : Z :=
  match ds with
  | EmptyString => acc
  | String c ds' =>
      digits_value (10 * acc + Z.of_nat (nat_of_ascii c - 48))%Z ds'
  end.

(** An integer: digits without a leading zero, no fraction, no exponent. *)
Definition scan_int (s : string) : option (Z * string) :=
  let '(ds, r) := scan_digits s in
  match ds with
  | EmptyString => None
  | String "0" (String _ _) => None
  | _ =>
      match r with
      | String "." _ | String "e" _ | String "E" _ => None
      | _ => Some (digits_value 0 ds, r)
      end
  end.

Fixpoint strip_prefix (pre s : string) : option string :=
  match pre, s with
  | EmptyString, _ => Some s
  | String a pre', String b s' =>
      if Ascii.eqb a b then strip_prefix pre' s' else None
  | _, _ => None
  end.

Fixpoint parse_value (fuel : nat) (s : string) {struct fuel}
  : option (json * string) :=
  match fuel with
  | O => None
  | S fuel' =>
      match skip_ws s with
      | String "{" r =>
          match skip_ws r with
          | String "}" r' => Some (JObject ∅, r')
          | _ => parse_members fuel' r ∅
          end
      | String "[" r =>
          match skip_ws r with
          | String "]" r' => Some (JArray [], r')
          | _ => parse_elements fuel' r []
          end
      | String "034" r =>
          match scan_string r with
          | Some (t, r') => Some (JString t, r')
          | None => None
          end
      | String "-" r =>
          match scan_int r with
          | Some (n, r') => Some (JInt (- n), r')
          | None => None
          end
      | String "t" _ as r =>
          option_map (λ r', (JBool true, r')) (strip_prefix "true" r)
      | String "f" _ as r =>
          option_map (λ r', (JBool false, r')) (strip_prefix "false" r)
      | String "n" _ as r =>
          option_map (λ r', (JNull, r')) (strip_prefix "null" r)
      | r =>
          match scan_int r with
          | Some (n, r') => Some (JInt n, r')
          | None => None
          end
      end
  end
with parse_members (fuel : nat) (s : string) (acc : gmap string json)
  {struct fuel} : option (json * string) :=
  match fuel with
  | O => None
  | S fuel' =>
      match skip_ws s with
      | String "034" r =>
          match scan_string r with
          | Some (k, r1) =>
              match skip_ws r1 with
              | String ":" r2 =>
                  match parse_value fuel' r2 with
                  | Some (v, r3) =>
                      match skip_ws r3 with
                      | String "," r4 => parse_members fuel' r4 (<[k := v]> acc)
                      | String "}" r4 => Some (JObject (<[k := v]> acc), r4)
                      | _ => None
                      end
                  | None => None
                  end
              | _ => None
              end
          | None => None
          end
      | _ => None
      end
  end
with parse_elements (fuel : nat) (s : string) (acc : list json)
  {struct fuel} : option (json * string) :=
  match fuel with
  | O => None
  | S fuel' =>
      match parse_value fuel' s with
      | Some (v, r) =>
          match skip_ws r with
          | String "," r' => parse_elements fuel' r' (acc ++ [v])
          | String "]" r' => Some (JArray (acc ++ [v]), r')
          | _ => None
          end
      | None => None
      end
  end.

Definition loads (s : string) : result json :=
  match parse_value (S (String.length s)) s with
  | Some (v, r) =>
      match skip_ws r with
      | EmptyString => Ok v
      | _ => Raise "Extra data"
      end
  | None => Raise "Expecting value"
  end.

Definition hex_digit (n : nat) : ascii :=
  ascii_of_nat (if (n <? 10)%nat then 48 + n else 87 + n).

Definition escape_char (c : ascii) : string :=
  let n := nat_of_ascii c in
  if Ascii.eqb c dquote then String backslash (String dquote EmptyString)
  else if Ascii.eqb c backslash then String backslash (String backslash EmptyString)
  else if (n =? 10)%nat then String backslash "n"
  else if (n =? 13)%nat then String backslash "r"
  else if (n =? 9)%nat then String backslash "t"
  else if (n =? 8)%nat then String backslash "b"
  else if (n =? 12)%nat then String backslash "f"
  else if (n <? 32)%nat
       then String backslash
              (String "u" (String "0" (String "0"
                 (String (hex_digit (n / 16))
                    (String (hex_digit (n mod 16)) EmptyString)))))
  else String c EmptyString.

Fixpoint escape (s : string) : string :=
  match s with
  | EmptyString => EmptyString
  | String c s' => escape_char c +:+ escape s'
  end.

Definition quote (s : string) : string :=
  String dquote (escape s) +:+ String dquote EmptyString.

Fixpoint indent (level : nat) : string :=
  match level with
  | O => EmptyString
  | S n => "  " +:+ indent n
  end.

Definition newline (level : nat) : string :=
  String "010" (indent level).

Definition join (sep : string) (l : list string) : string :=
  String.concat sep l.

Fixpoint dumps_at (level : nat) (v : json) : string :=
  match v with
  | JNull => "null"
  | JBool true => "true"
  | JBool false => "false"
  | JInt n => pretty n
  | JFloat r => r
  | JString s => quote s
  | JArray [] => "[]"
  | JArray l =>
      "[" +:+ newline (S level)
      +:+ join ("," +:+ newline (S level)) (List.map (dumps_at (S level)) l)
      +:+ newline level +:+ "]"
  | JObject d =>
      match map_to_list (dumps_at (S level) <$> d) with
      | [] => "{}"
      | kvs =>
          "{" +:+ newline (S level)
          +:+ join ("," +:+ newline (S level))
                (List.map (λ kv, quote kv.1 +:+ ": " +:+ kv.2) kvs)
          +:+ newline level +:+ "}"
      end
  end.

Definition dumps (v : json) : string := dumps_at 0 v.

End basic_json.

(** ** The classifier of the specification

    Section 4.1, in its words: false off mappings; false on a mapping with a
    ["nodes"] sequence; otherwise true exactly when some entry has a mapping
    value carrying both a [class_type] and an [inputs] entry (every key of
    a decoded mapping is a string). *)
Definition node_entry (d : gmap string json) : Prop :=
  ∃ (k : string) (v : gmap string json),
    d !! k = Some (JObject v)
    ∧ is_Some (v !! "class_type") ∧ is_Some (v !! "inputs").

Definition nodes_sequence (d : gmap string json) : Prop :=
  ∃ l, d !! "nodes" = Some (JArray l).

Definition isApiGraph (document : json) : Prop :=
  match document with
  | JObject d => ¬ nodes_sequence d ∧ node_entry d
  | _ => False
  end.

(** ** Vocabulary of the statements *)

(** [n] names a regular file of directory [d] that [pattern] selects. *)
Definition listed (fs : gmap path node) (d : path) (pattern n : string) : Prop :=
  valid_name n = true ∧ fnmatch pattern n = true
  ∧ ∃ c, fs !! (resolve d ++ [n]) = Some (Reg c).

(** The content of a file can be read and decodes. *)
Definition loadable (json_loads : string → result json) (c : result string)
  : bool :=
  match c with
  | Ok t => match json_loads t with Ok _ => true | Raise _ => false end
  | Raise _ => false
  end.


(** The metadata block of a document is absent, falsy or a mapping. *)
Definition meta_block_ok (data : json) : bool :=
  match data with
  | JObject d =>
      match d !! "cvb_meta" with
      | Some v => negb (truthy v) || isinstance_dict v
      | None => true
      end
  | _ => true
  end.

Definition status_of (r : result api.response) : option nat :=
  match r with
  | Ok resp => Some (api.status resp)
  | Raise _ => None
  end.

(** What the batch loop finds at a path: not a regular file; a file to
    report as skipped (unreadable, undecodable or not an API graph); or an
    API graph. *)
Inductive outcome :=
| NotFile
| Skip
| Api (d : json).

Definition outcome_of (json_loads : string → result json)
  (fs : gmap path node) (p : path) : outcome :=
  match node_at fs (resolve p) with
  | Some (Reg (Ok t)) =>
      match json_loads t with
      | Ok d => if cf._is_api_graph d then Api d else Skip
      | Raise _ => Skip
      end
  | Some (Reg (Raise _)) => Skip
  | _ => NotFile
  end.

Definition is_skip (o : outcome) : bool :=
  match o with Skip => true | _ => false end.

Definition is_api_outcome (o : outcome) : bool :=
  match o with Api _ => true | _ => false end.

(** A file can be written at [q], an entry of directory [d]. *)
Definition writable (fs : gmap path node) (d q : path) : bool :=
  match fs !! q, node_at fs d with
  | Some Dir, _ => false
  | _, Some Dir => true
  | _, _ => false
  end.

(** From [w] to [w'] no node is removed, and a node is replaced only when
    it is an entry of [dst] and [overwrite] is set. *)
Definition kept (dst : path) (overwrite : bool) (w w' : world) : Prop :=
  ∀ q nd, files w !! q = Some nd →
    is_Some (files w' !! q)
    ∧ (overwrite = false ∨ (∀ x, q ≠ resolve dst ++ [x]) →
       files w' !! q = Some nd).

(** The dict [names] of a listing maps exactly the listed names, each to
    its path. *)
Definition names_ok (D : path) (w : world) (names : list (string * path))
  : Prop :=
  (∀ k, listed (files w) D "*.json" k → dict_lookup k names = Some (D ++ [k]))
  ∧ (∀ k, ¬ listed (files w) D "*.json" k → dict_lookup k names = None).

(** The response to a request that names a regular file with content [c]. *)
Definition found_response (json_loads : string → result json) (fmt : string)
  (c : result string) : api.response :=
  match c with
  | Ok t =>
      match json_loads t with
      | Ok d =>
          if String.eqb fmt "raw"
          then api.Response 200 t (Some "application/json") api.cors
          else if String.eqb fmt "api"
          then if api._is_api_graph d
               then api.Response 200 t (Some "application/json") api.cors
               else api.Response 422 api.ui_workflow_message None api.cors
          else api.Response 400 "Invalid format; use raw|api" None []
      | Raise e =>
          api.Response 500 ("Failed to read workflow: " +:+ e) None []
      end
  | Raise e => api.Response 500 ("Failed to read workflow: " +:+ e) None []
  end.

(** [fmt] spells the lower-case word [word] in some mix of upper and lower
    case: letter by letter, the letter of the word or its capital. *)
Fixpoint spelled (word fmt : string) : bool :=
  match word, fmt with
  | EmptyString, EmptyString => true
  | String a word', String c fmt' =>
      (Ascii.eqb c a || Ascii.eqb c (ascii_of_nat (nat_of_ascii a - 32)))
      && spelled word' fmt'
  | _, _ => false
  end.

(** The string holds ASCII characters only. *)
Fixpoint is_ascii (s : string) : bool :=
  match s with
  | EmptyString => true
  | String c s' => (nat_of_ascii c <? 128)%nat && is_ascii s'
  end.


(** The path has no parent-directory segment: its lexical resolution is
    the kernel's. *)
Definition no_parent_segment (p : path) : bool :=
  forallb (λ c, negb (String.eqb c "..")) p.

(** The patterns for which [glob] above is [Path.glob]: one component with
    a [*], and no [?], bracket, separator or [**]. *)
Fixpoint has_double_star (s : string) : bool :=
  match s with
  | String a (String b _ as s') =>
      (Ascii.eqb a "*" && Ascii.eqb b "*") || has_double_star s'
  | _ => false
  end.

Definition plain_pattern (pattern : string) : bool :=
  str_contains "*" pattern
  && negb (str_contains "?" pattern || str_contains "[" pattern
           || str_contains "/" pattern || has_double_star pattern).

(** The path a request names. *)
Definition requested (D : path) (req : api.request) : path :=
  truediv D (str_name (default "" (api.match_info_name req))).

(** What [convert_all] may do to the content of files: read an entry of the
    source directory that the pattern selects, write an entry of the
    destination directory named [*.api.json]. *)
Definition batch_event (src dst : path) (pattern : string) (ev : event)
  : Prop :=
  (∃ n, valid_name n = true ∧ fnmatch pattern n = true
        ∧ ev = Read (resolve src ++ [n]))
  ∨ (∃ x, valid_name x = true ∧ endswith x ".api.json" = true
          ∧ ev = Write (resolve dst ++ [x])).

(** ** A disk for the examples *)
Module demo.
Import basic_json.

Definition WORKFLOWS : path := ["srv"; "user"; "workflows"].
Definition BATCH : path := ["srv"; "batch"].
Definition OUT : path := ["srv"; "out"].
Definition FRESH : path := ["srv"; "fresh"; "api"].

Definition ui_text : string := q "{'nodes': [], 'links': []}".
Definition api_text : string :=
  q "{'3': {'class_type': 'KSampler', 'inputs': {}}}".
Definition broken_text : string := "{".
Definition meta_text : string := q "{'cvb_meta': 'draft', 'nodes': []}".

Definition disk : gmap path node :=
  list_to_map
    [(["srv"], Dir);
     (["srv"; "user"], Dir);
     (["srv"; "user"; "secret.json"], Reg (Ok "{}"));
     (WORKFLOWS, Dir);
     (WORKFLOWS ++ ["a.json"], Reg (Ok ui_text));
     (WORKFLOWS ++ ["a.api.json"], Reg (Ok broken_text));
     (WORKFLOWS ++ ["b.json"], Reg (Ok ui_text));
     (WORKFLOWS ++ ["b.api.json"], Reg (Ok api_text));
     (WORKFLOWS ++ ["m.json"], Reg (Ok meta_text));
     (BATCH, Dir);
     (BATCH ++ ["x.json"], Reg (Ok api_text));
     (BATCH ++ ["y.json"], Reg (Ok ui_text));
     (BATCH ++ ["z.json"], Reg (Ok broken_text));
     (OUT, Dir);
     (OUT ++ ["x.api.json"], Reg (Ok "kept"))].

Definition start : world := World disk [].

(** The documents that the texts above decode to. *)
Definition ui_doc : json :=
  JObject (<["nodes" := JArray []]> (<["links" := JArray []]> ∅)).
Definition api_doc : json :=
  JObject
    (<["3" := JObject (<["class_type" := JString "KSampler"]>
                         (<["inputs" := JObject ∅]> ∅))]> ∅).
Definition meta_fields : gmap string json :=
  <["cvb_meta" := JString "draft"]> (<["nodes" := JArray []]> ∅).

Definition get (name : string) (format : option string)
  : result api.response * world :=
  api.get_workflow loads WORKFLOWS (api.Request (Some name) format) start.

Definition listing : result (list (gmap string json)) :=
  (api.list_workflows loads WORKFLOWS start).1.

(** The entries of a listing whose [filename] is [n]. *)
Definition entries_named (n : string) (r : result (list (gmap string json)))
  : list (gmap string json) :=
  match r with
  | Ok items =>
      List.filter
        (λ e, match e !! "filename" with
              | Some (JString m) => String.eqb m n
              | _ => false
              end) items
  | Raise _ => []
  end.

Definition field (k : string) (e : gmap string json) : option json := e !! k.

(** A name of 300 bytes; and an encoder whose text holds the lone
    surrogate [\ud800]. *)
Definition long_name : string :=
  string_of_list_ascii (replicate 295 "a"%char) +:+ ".json".
Definition surrogate_text : string :=
  String "237" (String "160" (String "128" EmptyString)).
Definition dumps_surrogate (d : json) : string := surrogate_text.

End demo.

(** * Proofs *)

(** ** Strings *)

Lemma app_cons a s t : String a s +:+ t = String a (s +:+ t).
Proof. reflexivity. Qed.

Lemma app_empty_r s : s +:+ "" = s.
Proof. induction s as [|a s IH]; [done|]. by rewrite app_cons, IH. Qed.

Lemma app_assoc_str s t u : (s +:+ t) +:+ u = s +:+ (t +:+ u).
Proof. induction s as [|a s IH]; [done|]. by rewrite !app_cons, IH. Qed.

Lemma length_app_str s t :
  String.length (s +:+ t) = String.length s + String.length t.
Proof. induction s as [|a s IH]; [done|]. rewrite app_cons. simpl. by rewrite IH. Qed.

Lemma endswith_spec s suf :
  endswith s suf = true ↔ ∃ pre, s = pre +:+ suf.
Proof.
  induction s as [|a s IH]; cbn [endswith].
  - rewrite orb_false_r, String.eqb_eq. split.
    + intros <-. by exists "".
    + intros [pre H]. destruct pre; [done|]. by rewrite app_cons in H.
  - rewrite orb_true_iff, String.eqb_eq, IH. split.
    + intros [<- | [pre ->]]; [by exists "" | by exists (String a pre)].
    + intros [[|b pre] H]; [by left|].
      rewrite app_cons in H. injection H as -> ->. right. eauto.
Qed.

Lemma rfind_app c s t :
  (0 ≤ rfind c t)%Z →
  rfind c (s +:+ t) = (Z.of_nat (String.length s) + rfind c t)%Z.
Proof.
  intros Ht. induction s as [|a s IH]; [reflexivity|].
  rewrite app_cons. cbn [rfind String.length]. rewrite IH.
  destruct (Z.leb_spec 0 (Z.of_nat (String.length s) + rfind c t)); lia.
Qed.

Lemma str_take_app s t : str_take (String.length s) (s +:+ t) = s.
Proof. induction s as [|a s IH]; [by destruct t|]. rewrite app_cons. simpl. by rewrite IH. Qed.

Lemma str_drop_app s t : str_drop (String.length s) (s +:+ t) = t.
Proof. induction s as [|a s IH]; [by destruct t|]. rewrite app_cons. simpl. by rewrite IH. Qed.

Lemma str_take_drop n s : str_take n s +:+ str_drop n s = s.
Proof.
  revert s. induction n as [|n IH]; intros [|a s]; try done.
  simpl. by rewrite app_cons, IH.
Qed.

Lemma name_stem_suffix n : name_stem n +:+ name_suffix n = n.
Proof.
  unfold name_stem, name_suffix.
  destruct (_ && _); [apply str_take_drop | apply app_empty_r].
Qed.

(** A name [pre.ext] with a non-empty [pre] and a dotless, non-empty [ext]. *)
Lemma stem_suffix_app pre ext :
  pre ≠ "" → rfind "." ext = 0%Z → (1 < String.length ext) →
  name_stem (pre +:+ ext) = pre ∧ name_suffix (pre +:+ ext) = ext.
Proof.
  intros Hpre Hext Hlen. unfold name_stem, name_suffix.
  rewrite rfind_app by lia. rewrite Hext, length_app_str.
  assert (0 < String.length pre) by (destruct pre; [done | simpl; lia]).
  replace (0 <? _)%Z with true by (symmetry; apply Z.ltb_lt; lia).
  replace (_ <? _)%Z with true by (symmetry; apply Z.ltb_lt; lia).
  simpl. rewrite Z.add_0_r, Nat2Z.id.
  by rewrite str_take_app, str_drop_app.
Qed.

Lemma str_contains_app c s t :
  str_contains c (s +:+ t) = str_contains c s || str_contains c t.
Proof.
  induction s as [|a s IH]; [done|].
  rewrite app_cons. simpl. by rewrite IH, orb_assoc.
Qed.

Lemma str_contains_take c n s :
  str_contains c s = false → str_contains c (str_take n s) = false.
Proof.
  revert s. induction n as [|n IH]; intros [|a s]; try done.
  simpl. intros [-> ?]%orb_false_iff. simpl. by apply IH.
Qed.

Lemma split_on_no_sep c s : str_contains c s = false → split_on c s = [s].
Proof.
  induction s as [|a s IH]; [done|].
  simpl. intros [-> H]%orb_false_iff. by rewrite IH.
Qed.

Lemma split_on_component c s x :
  x ∈ split_on c s → str_contains c x = false.
Proof.
  revert x. induction s as [|a s IH]; intros x; simpl.
  - by intros ->%list_elem_of_singleton.
  - destruct (Ascii.eqb a c) eqn:E.
    + intros [->|?]%elem_of_cons; [done | by apply IH].
    + destruct (split_on c s) as [|h t] eqn:Hs.
      * intros ->%list_elem_of_singleton. simpl. by rewrite E.
      * intros [->|?]%elem_of_cons.
        -- simpl. rewrite E. apply IH. by left.
        -- apply IH. by right.
Qed.

Lemma pure_parts_valid n : valid_name n = true → pure_parts n = [n].
Proof.
  unfold valid_name, pure_parts.
  intros [Hc Hn]%andb_true_iff. apply negb_true_iff in Hc, Hn.
  rewrite split_on_no_sep by done. simpl.
  apply orb_false_iff in Hn as [[-> ->]%orb_false_iff _]. done.
Qed.


Lemma valid_name_not_dotdot n : valid_name n = true → n ≠ "..".
Proof. intros H ->. done. Qed.

Lemma valid_name_not_slash a s : valid_name (String a s) = true → Ascii.eqb a "/" = false.
Proof.
  unfold valid_name. simpl. intros [H _]%andb_true_iff.
  by apply negb_true_iff, orb_false_iff in H as [? _].
Qed.

Lemma truediv_valid d n : valid_name n = true → truediv d n = d ++ [n].
Proof.
  intros H. unfold truediv. rewrite (pure_parts_valid n H).
  destruct n as [|a s]; [done|]. by rewrite (valid_name_not_slash a s H).
Qed.


Lemma path_name_snoc d n : path_name (d ++ [n]) = n.
Proof. apply last_last. Qed.

Lemma str_name_valid n : valid_name n = true → str_name n = n.
Proof. intros H. unfold str_name. by rewrite pure_parts_valid. Qed.

Lemma path_name_parts s :
  path_name (pure_parts s) = "" ∨ path_name (pure_parts s) ∈ pure_parts s.
Proof.
  unfold path_name. destruct (pure_parts s) as [|c l] using rev_ind; [by left|].
  right. rewrite last_last. apply elem_of_app. right. by left.
Qed.



(** A pattern without [*] and [?] matches itself only. *)
Lemma fnmatch_literal lit s :
  str_contains "*" lit = false → str_contains "?" lit = false →
  fnmatch lit s = String.eqb s lit.
Proof.
  revert s. induction lit as [|c lit IH]; intros s; [done|].
  cbn [str_contains fnmatch].
  intros [H1 H2]%orb_false_iff [H3 H4]%orb_false_iff.
  rewrite H1. destruct s as [|a s]; [done|].
  rewrite H3, IH by done. simpl. by rewrite Ascii.eqb_sym.
Qed.

Lemma fnmatch_star lit n :
  str_contains "*" lit = false → str_contains "?" lit = false →
  fnmatch (String "*" lit) n = endswith n lit.
Proof.
  intros H1 H2. induction n as [|a n IH].
  - cbn. by rewrite fnmatch_literal.
  - change (fnmatch (String "*" lit) (String a n))
      with (fnmatch lit (String a n) || fnmatch (String "*" lit) n).
    cbn [endswith]. by rewrite IH, fnmatch_literal.
Qed.

(** ["*.json"] selects the names that end in [".json"]. *)
Lemma fnmatch_star_json n : fnmatch "*.json" n = endswith n ".json".
Proof. by apply fnmatch_star. Qed.

(** Lower-casing gives the letters of [raw] and [api] for these letters
    and their capitals only. *)
Lemma lower_letter (a c : ascii) :
  a ∈ ["r"; "a"; "w"; "p"; "i"]%char →
  Ascii.eqb (ascii_lower c) a
  = Ascii.eqb c a || Ascii.eqb c (ascii_of_nat (nat_of_ascii a - 32)).
Proof.
  intros Ha. repeat (apply elem_of_cons in Ha as [->|Ha]);
    [..|by apply elem_of_nil in Ha];
    by destruct c as [[] [] [] [] [] [] [] []].
Qed.

Lemma spelled_lower word fmt :
  word = "raw" ∨ word = "api" →
  String.eqb (lower fmt) word = spelled word fmt.
Proof.
  intros [-> | ->]; destruct fmt as [|c1 [|c2 [|c3 [|c4 r]]]]; try done;
    cbn [lower string_map String.eqb spelled];
    rewrite !lower_letter
      by repeat first [apply list_elem_of_here | apply list_elem_of_further];
    done.
Qed.

(** ** Paths and the file system *)

Lemma resolve_snoc d n : resolve (d ++ [n]) = resolve_step (resolve d) n.
Proof. unfold resolve. by rewrite foldl_snoc. Qed.

Lemma resolve_valid d n :
  valid_name n = true → resolve (d ++ [n]) = resolve d ++ [n].
Proof.
  intros H. rewrite resolve_snoc. unfold resolve_step.
  by rewrite (proj2 (String.eqb_neq _ _) (valid_name_not_dotdot n H)).
Qed.

Lemma node_at_snoc fs q n : node_at fs (q ++ [n]) = fs !! (q ++ [n]).
Proof. by destruct q. Qed.

Lemma node_at_entry fs d n :
  valid_name n = true → node_at fs (resolve (d ++ [n])) = fs !! (resolve d ++ [n]).
Proof. intros H. by rewrite resolve_valid, node_at_snoc. Qed.

Lemma regular_entry fs d n :
  valid_name n = true →
  regular fs (d ++ [n]) = true ↔ ∃ c, fs !! (resolve d ++ [n]) = Some (Reg c).
Proof.
  intros H. unfold regular. rewrite node_at_entry by done.
  destruct (fs !! _) as [[]|]; split; try done; try (by intros [? ?]); eauto.
Qed.

(** [os.stat] finds what exists. *)
Lemma stat_error_present fs p :
  is_Some (node_at fs (resolve p)) → stat_error fs p = None.
Proof. unfold stat_error. by intros [nd ->]. Qed.

Lemma stat_error_entry fs d n :
  valid_name n = true → is_Some (fs !! (resolve d ++ [n])) →
  stat_error fs (d ++ [n]) = None.
Proof.
  intros Hv Hn. apply stat_error_present. by rewrite node_at_entry.
Qed.

Lemma stat_error_missing fs p e :
  stat_error fs p = Some e → node_at fs (resolve p) = None.
Proof. unfold stat_error. by destruct (node_at fs (resolve p)). Qed.

Lemma is_file_present p w :
  is_Some (node_at (files w) (resolve p)) →
  is_file p w = (Ok (regular (files w) p), w).
Proof. intros H. unfold is_file. by rewrite stat_error_present. Qed.

Lemma path_exists_present p w :
  is_Some (node_at (files w) (resolve p)) → path_exists p w = (Ok true, w).
Proof.
  intros H. unfold path_exists. rewrite stat_error_present by done.
  by rewrite bool_decide_eq_true_2.
Qed.

Lemma snoc_inj {A} (l k : list A) x y : l ++ [x] = k ++ [y] → l = k ∧ x = y.
Proof. intros H. by apply app_inj_tail in H. Qed.

Lemma scandir_spec fs d n :
  n ∈ scandir fs d ↔
  valid_name n = true ∧ is_Some (fs !! (resolve d ++ [n])).
Proof.
  unfold scandir. rewrite list_elem_of_omap. split.
  - intros [[q nd] [Hq He]]. apply elem_of_map_to_list in Hq.
    unfold entry_name in He.
    destruct (bool_decide _ && _) eqn:E; [|done]. injection He as <-.
    apply andb_true_iff in E as [E1 E2]. apply bool_decide_eq_true in E1.
    split; [done|]. rewrite <- E1. eauto.
  - intros [Hv [nd Hn]]. exists (resolve d ++ [n], nd). split.
    + by apply elem_of_map_to_list.
    + unfold entry_name. rewrite path_name_snoc, Hv.
      by rewrite bool_decide_eq_true_2.
Qed.

Lemma NoDup_omap_inj {A B} (f : A → option B) (l : list A) :
  NoDup l →
  (∀ x y z, x ∈ l → y ∈ l → f x = Some z → f y = Some z → x = y) →
  NoDup (omap f l).
Proof.
  induction 1 as [|x l Hx Hl IH]; intros Hinj; [constructor|].
  simpl. assert (NoDup (omap f l)) as Hrec.
  { apply IH. intros ? ? ? ? ?. apply Hinj; by right. }
  destruct (f x) as [z|] eqn:E; [|done]. constructor; [|done].
  intros (y & Hy & Hfy)%list_elem_of_omap. apply Hx.
  by rewrite (Hinj x y z) by (done || by left || by right).
Qed.

Lemma NoDup_map_inj {A B} (f : A → B) (l : list A) :
  (∀ x y, f x = f y → x = y) → NoDup l → NoDup (List.map f l).
Proof.
  intros Hinj. induction 1 as [|x l Hx Hl IH]; [constructor|].
  simpl. constructor; [|done].
  intros (y & Hxy & Hy)%list_elem_of_In%in_map_iff. apply Hx.
  apply Hinj in Hxy as <-. by apply list_elem_of_In.
Qed.

Lemma scandir_NoDup fs d : NoDup (scandir fs d).
Proof.
  unfold scandir. apply NoDup_omap_inj; [apply NoDup_map_to_list|].
  intros [q1 n1] [q2 n2] z H1%elem_of_map_to_list H2%elem_of_map_to_list.
  unfold entry_name.
  destruct (bool_decide (q1 = _) && _) eqn:E1; [|done].
  destruct (bool_decide (q2 = _) && _) eqn:E2; [|done].
  apply andb_true_iff in E1 as [E1%bool_decide_eq_true _].
  apply andb_true_iff in E2 as [E2%bool_decide_eq_true _].
  intros [= Hz1] [= Hz2]. rewrite Hz1 in E1. rewrite Hz2 in E2.
  subst q1 q2. congruence.
Qed.

Lemma glob_NoDup d pattern w l : glob d pattern w = (Ok l, w) → NoDup l.
Proof.
  unfold glob. destruct pattern as [|c pat]; [done|].
  destruct (Ascii.eqb c "/"); [done|]. intros [= <-].
  apply NoDup_map_inj; [by intros x y [_ ?]%snoc_inj|].
  apply NoDup_ListNoDup, List.NoDup_filter, NoDup_ListNoDup, scandir_NoDup.
Qed.

Lemma sorted_NoDup l : NoDup l → NoDup (sorted l).
Proof. unfold sorted. by rewrite merge_sort_Permutation. Qed.

Lemma glob_spec d pattern w :
  (∃ l, glob d pattern w = (Ok l, w)
        ∧ ∀ p, p ∈ l ↔
               ∃ n, p = d ++ [n] ∧ valid_name n = true
                    ∧ fnmatch pattern n = true
                    ∧ is_Some (files w !! (resolve d ++ [n])))
  ∨ (∃ e, glob d pattern w = (Raise e, w) ∧ ∀ n, fnmatch pattern n = true → valid_name n = false).
Proof.
  unfold glob. destruct pattern as [|c pat].
  - right. eexists. split; [done|]. intros n ->%String.eqb_eq. done.
  - destruct (Ascii.eqb c "/") eqn:E.
    + right. eexists. split; [done|]. intros [|a n]; [done|].
      cbn [fnmatch]. apply Ascii.eqb_eq in E as ->.
      replace (Ascii.eqb "/" "*") with false by done.
      replace (Ascii.eqb "/" "?") with false by done.
      intros [Ha _]%andb_true_iff. simpl in Ha. apply Ascii.eqb_eq in Ha as ->.
      done.
    + left. eexists. split; [done|]. intros p.
      rewrite list_elem_of_In, in_map_iff. split.
      * intros (n & <- & Hn). apply filter_In in Hn as [Hn Hf].
        apply list_elem_of_In, scandir_spec in Hn as [? ?]. eauto 6.
      * intros (n & -> & Hv & Hf & Hs). exists n. split; [done|].
        apply filter_In. split; [|done].
        apply list_elem_of_In, scandir_spec. done.
Qed.

Lemma path_leb_total p q : path_leb p q = true ∨ path_leb q p = true.
Proof.
  revert q. induction p as [|a p IH]; intros [|b q]; simpl; auto.
  rewrite (String.compare_antisym b a).
  destruct (String.compare a b); simpl; auto.
Qed.

#[export] Instance path_le_total : Total path_le.
Proof. intros p q. apply path_leb_total. Qed.

(** [sorted] gives the paths in ascending order. *)
Lemma sorted_ascending l : Sorted path_le (sorted l).
Proof. apply Sorted_merge_sort, _. Qed.

Lemma elem_of_sorted p l : p ∈ sorted l ↔ p ∈ l.
Proof. unfold sorted. by rewrite merge_sort_Permutation. Qed.

Lemma io_filter_is_file ps w :
  (∀ p, p ∈ ps → is_Some (node_at (files w) (resolve p))) →
  io_filter is_file ps w = (Ok (List.filter (regular (files w)) ps), w).
Proof.
  induction ps as [|p ps IH]; intros Hps; [done|].
  cbn [io_filter]. unfold bind at 1.
  rewrite is_file_present by (apply Hps; by left).
  unfold bind at 1. rewrite IH by (intros p' ?; apply Hps; by right).
  simpl. unfold ret. by destruct (regular _ _).
Qed.

Lemma glob_present d pattern w l p :
  glob d pattern w = (Ok l, w) → p ∈ l →
  is_Some (node_at (files w) (resolve p)).
Proof.
  intros Hg Hp.
  destruct (glob_spec d pattern w) as [(l' & Hl' & Hm)|(e & He & _)];
    [|congruence].
  assert (l' = l) as -> by congruence.
  apply Hm in Hp as (n & -> & Hv & _ & Hn). by rewrite node_at_entry.
Qed.

(** ** The monad *)

Lemma bind_ok {A B} (m : io A) (f : A → io B) w a w' :
  m w = (Ok a, w') → bind m f w = f a w'.
Proof. unfold bind. by intros ->. Qed.

Lemma read_text_files p w : files (read_text p w).2 = files w.
Proof. unfold read_text. by destruct (node_at _ _) as [[]|]. Qed.

Lemma read_text_entry d n w c :
  valid_name n = true → files w !! (resolve d ++ [n]) = Some (Reg c) →
  read_text (d ++ [n]) w = (c, log (Read (resolve d ++ [n])) w).
Proof.
  intros Hv H. unfold read_text. rewrite node_at_entry, H by done.
  by rewrite resolve_valid.
Qed.

(** ** Ordered dicts *)

Lemma dict_set_elem {V} k (v : V) d k' v' :
  (k', v') ∈ dict_set k v d → (k' = k ∧ v' = v) ∨ (k', v') ∈ d.
Proof.
  induction d as [|[k0 v0] d IH]; simpl.
  - intros ?%list_elem_of_singleton. simplify_eq. by left.
  - destruct (String.eqb k k0).
    + intros [?|?]%elem_of_cons; [simplify_eq; by left|]. right. by right.
    + intros [?|?]%elem_of_cons; [simplify_eq; right; by left|].
      destruct IH as [?|?]; [done|by left|]. right. by right.
Qed.

Lemma dict_set_new {V} k (v : V) d : (k, v) ∈ dict_set k v d.
Proof.
  induction d as [|[k0 v0] d IH]; simpl; [by left|].
  destruct (String.eqb k k0); [by left | by right].
Qed.

Lemma dict_set_old {V} k (v : V) d k' v' :
  (k', v') ∈ d → k' ≠ k → (k', v') ∈ dict_set k v d.
Proof.
  intros Hin Hne. induction d as [|[k0 v0] d IH]; simpl; [by inversion Hin|].
  destruct (String.eqb_spec k k0) as [->|Hk].
  - apply elem_of_cons in Hin as [?|Hin]; [simplify_eq|]. by right.
  - apply elem_of_cons in Hin as [?|Hin]; [simplify_eq; by left|]. right. auto.
Qed.

Lemma dict_lookup_Some {V} k (d : list (string * V)) v :
  dict_lookup k d = Some v → (k, v) ∈ d.
Proof.
  induction d as [|[k0 v0] d IH]; simpl; [done|].
  destruct (String.eqb_spec k k0) as [->|].
  - intros [= ->]. by left.
  - intros ?. right. auto.
Qed.

Lemma dict_lookup_None {V} k (d : list (string * V)) v :
  dict_lookup k d = None → (k, v) ∉ d.
Proof.
  induction d as [|[k0 v0] d IH]; simpl; [by intros _ ?%elem_of_nil|].
  destruct (String.eqb_spec k k0) as [->|Hne]; [done|].
  intros H [?|?]%elem_of_cons; [by simplify_eq|]. by apply IH.
Qed.

Lemma names_of_snoc l p :
  api.names_of (l ++ [p]) = dict_set (path_name p) p (api.names_of l).
Proof. unfold api.names_of. by rewrite foldl_snoc. Qed.

Lemma names_of_elem l k p :
  (k, p) ∈ api.names_of l → p ∈ l ∧ k = path_name p.
Proof.
  revert k p. induction l as [|p0 l IH] using rev_ind; intros k p.
  - by intros ?%elem_of_nil.
  - rewrite names_of_snoc. intros [[-> ->]|H]%dict_set_elem.
    + split; [|done]. apply elem_of_app. right. by left.
    + apply IH in H as [? ?]. split; [|done]. apply elem_of_app. by left.
Qed.

Lemma names_of_complete l p :
  (∀ p1 p2, p1 ∈ l → p2 ∈ l → path_name p1 = path_name p2 → p1 = p2) →
  p ∈ l → (path_name p, p) ∈ api.names_of l.
Proof.
  revert p. induction l as [|p0 l IH] using rev_ind; intros p Hinj.
  - by intros ?%elem_of_nil.
  - rewrite names_of_snoc.
    assert (p0 ∈ l ++ [p0]) as H0 by (apply elem_of_app; right; by left).
    intros Hp. destruct (decide (path_name p = path_name p0)) as [E|E].
    + rewrite (Hinj p p0 Hp H0 E). apply dict_set_new.
    + apply dict_set_old; [|done]. apply IH.
      * intros p1 p2 ? ?. apply Hinj; apply elem_of_app; by left.
      * apply elem_of_app in Hp as [?|Hp]; [done|].
        apply list_elem_of_singleton in Hp. by subst.
Qed.

(** Lookups in an entry built by [dict_update]. *)
Ltac entry_lookup :=
  unfold api.error_entry, dict_update; cbn [foldl fst snd];
  repeat (rewrite lookup_insert_ne by done); rewrite ?lookup_insert_eq;
  try done.

Ltac entry_found :=
  eexists _, _; split; [reflexivity|]; split; [congruence|]; entry_lookup.

(** ** The listing *)
Section catalog.
Context (json_loads : string → result json) (D : path).

Local Abbreviation list_item := (api.list_item json_loads).
Local Abbreviation list_workflows := (api.list_workflows json_loads D).

Lemma list_files_spec w :
  ∃ l, api._list_files D w = (Ok l, w)
       ∧ ∀ p, p ∈ l ↔ ∃ n, p = D ++ [n] ∧ listed (files w) D "*.json" n.
Proof.
  unfold api._list_files.
  destruct (glob_spec D "*.json" w) as [(l & Hl & Hm)|(e & He & _)];
    [|by unfold glob in He].
  rewrite (bind_ok _ _ _ _ _ Hl).
  rewrite (bind_ok _ _ _ _ _
             (io_filter_is_file l w (λ p, glob_present _ _ _ _ p Hl))).
  eexists. split; [done|]. intros p.
  rewrite elem_of_sorted, list_elem_of_In, filter_In, <- list_elem_of_In, Hm.
  unfold listed. split.
  - intros [(n & -> & Hv & Hf & _) Hr]. apply regular_entry in Hr; eauto 6.
  - intros (n & -> & Hv & Hf & Hc). split.
    + exists n. destruct Hc as [c ->]. eauto.
    + by apply regular_entry.
Qed.

Local Abbreviation names_ok := (names_ok D).

Lemma names_of_ok w l :
  (∀ p, p ∈ l ↔ ∃ n, p = D ++ [n] ∧ listed (files w) D "*.json" n) →
  names_ok w (api.names_of l).
Proof.
  intros Hl.
  assert (∀ k c, (k, c) ∈ api.names_of l →
                 c = D ++ [k] ∧ listed (files w) D "*.json" k) as Hin.
  { intros k c [Hc ->]%names_of_elem. apply Hl in Hc as (n & -> & ?).
    by rewrite path_name_snoc. }
  split.
  - intros k Hk.
    destruct (dict_lookup k (api.names_of l)) as [c|] eqn:E.
    + apply dict_lookup_Some, Hin in E as [-> _]. done.
    + exfalso. apply (dict_lookup_None _ _ (D ++ [k])) in E. apply E.
      rewrite <- (path_name_snoc D k) at 1. apply names_of_complete.
      * intros p1 p2 (n1 & -> & _)%Hl (n2 & -> & _)%Hl.
        rewrite !path_name_snoc. by intros ->.
      * apply Hl. eauto.
  - intros k Hk.
    destruct (dict_lookup k (api.names_of l)) as [c|] eqn:E; [|done].
    by apply dict_lookup_Some, Hin in E as [_ ?].
Qed.

Lemma names_of_paths w l np :
  (∀ p, p ∈ l ↔ ∃ n, p = D ++ [n] ∧ listed (files w) D "*.json" n) →
  np ∈ api.names_of l → ∃ n, np.2 = D ++ [n] ∧ listed (files w) D "*.json" n.
Proof.
  intros Hl. destruct np as [k c]. intros [Hc _]%names_of_elem.
  by apply Hl in Hc.
Qed.

Lemma names_of_listed w l n :
  (∀ p, p ∈ l ↔ ∃ n, p = D ++ [n] ∧ listed (files w) D "*.json" n) →
  listed (files w) D "*.json" n → (n, D ++ [n]) ∈ api.names_of l.
Proof.
  intros Hl Hn. apply dict_lookup_Some.
  by apply (names_of_ok w l Hl).
Qed.

(** A turn of the loop always appends an entry, named after the file, and
    leaves the files as they are. *)
Lemma list_item_always names p w :
  ∃ e w', list_item names p w = (Ok e, w') ∧ files w' = files w
          ∧ e !! "filename" = Some (JString (path_name p)).
Proof.
  unfold api.list_item, api._load_json, try_except, bind, lift, ret.
  pose proof (read_text_files p w) as Hf.
  destruct (read_text p w) as [[t|e] w1]; simpl in Hf; [|entry_found].
  destruct (json_loads t) as [data|e]; [|entry_found].
  destruct (api._meta_from p data) as [meta|e]; [|entry_found].
  destruct (negb _); [|entry_found].
  destruct (dict_lookup _ names) as [c|]; [|entry_found].
  pose proof (read_text_files c w1) as Hf1.
  destruct (read_text c w1) as [[t1|e1] w2]; simpl in Hf1; [|entry_found].
  destruct (json_loads t1); entry_found.
Qed.

Lemma io_map_readers {A B} (f : A → io B) (l : list A) w :
  (∀ a w0, ∃ b w1, f a w0 = (Ok b, w1) ∧ files w1 = files w0) →
  ∃ bs w', io_map f l w = (Ok bs, w') ∧ files w' = files w
           ∧ Forall2 (λ a b, ∃ wi, files wi = files w ∧ (f a wi).1 = Ok b) l bs.
Proof.
  intros Hf. revert w. induction l as [|a l IH]; intros w.
  - exists [], w. by repeat split.
  - destruct (Hf a w) as (b & w1 & Hb & Hw1).
    destruct (IH w1) as (bs & w2 & Hbs & Hw2 & Hall).
    exists (b :: bs), w2. cbn [io_map].
    rewrite (bind_ok _ _ _ _ _ Hb), (bind_ok _ _ _ _ _ Hbs).
    split; [done|]. split; [congruence|].
    constructor.
    + exists w. by rewrite Hb.
    + eapply Forall2_impl; [done|]. intros a' b' (wi & ? & ?).
      exists wi. split; [congruence | done].
Qed.

(** The listing has one entry per listed file: the entry that the turn of
    the loop for that file produces. *)
Lemma list_workflows_spec w :
  ∃ names items w',
    list_workflows w = (Ok items, w') ∧ files w' = files w
    ∧ names_ok w names
    ∧ (∀ e, e ∈ items →
            ∃ n wi, listed (files w) D "*.json" n ∧ files wi = files w
                    ∧ (list_item names (D ++ [n]) wi).1 = Ok e)
    ∧ (∀ n, listed (files w) D "*.json" n →
            ∃ e wi, e ∈ items ∧ files wi = files w
                    ∧ (list_item names (D ++ [n]) wi).1 = Ok e).
Proof.
  destruct (list_files_spec w) as (l & Hl & Hm).
  unfold api.list_workflows. rewrite (bind_ok _ _ _ _ _ Hl).
  destruct (io_map_readers (λ np, list_item (api.names_of l) np.2)
              (api.names_of l) w) as (items & w' & Hi & Hw & Hall).
  { intros a w0.
    destruct (list_item_always (api.names_of l) a.2 w0) as (e & w1 & ? & ? & _).
    eauto. }
  exists (api.names_of l), items, w'.
  split; [done|]. split; [done|]. split; [by apply names_of_ok|]. split.
  - intros e (i & Hi')%list_elem_of_lookup.
    destruct (Forall2_lookup_r _ _ _ _ _ Hall Hi') as (np & Hnp & wi & ? & ?).
    apply list_elem_of_lookup_2 in Hnp.
    destruct (names_of_paths w l np Hm Hnp) as (n & Hn & ?).
    exists n, wi. rewrite <- Hn. done.
  - intros n Hn. pose proof (names_of_listed w l n Hm Hn) as Hin.
    apply list_elem_of_lookup in Hin as (i & Hi').
    destruct (Forall2_lookup_l _ _ _ _ _ Hall Hi') as (e & He & wi & ? & ?).
    exists e, wi. split; [by eapply list_elem_of_lookup_2|done].
Qed.

(** What holds of the entry a file produces holds of the entry listed
    under its name. *)
Lemma listing_entry w n (P : gmap string json → Prop) :
  listed (files w) D "*.json" n →
  (∀ names wi, names_ok w names → files wi = files w →
     ∃ e, (list_item names (D ++ [n]) wi).1 = Ok e ∧ P e) →
  ∃ items,
    (list_workflows w).1 = Ok items
    ∧ (∃ e, e ∈ items ∧ e !! "filename" = Some (JString n))
    ∧ ∀ e, e ∈ items → e !! "filename" = Some (JString n) → P e.
Proof.
  intros Hn HP.
  destruct (list_workflows_spec w)
    as (names & items & w' & Hrun & _ & Hnames & Hfrom & Hto).
  exists items. rewrite Hrun. split; [done|]. split.
  - destruct (Hto n Hn) as (e & wi & He & Hwi & Hrun_e).
    exists e. split; [done|].
    destruct (list_item_always names (D ++ [n]) wi) as (e' & ? & H1 & _ & H2).
    rewrite H1 in Hrun_e. simpl in Hrun_e. injection Hrun_e as <-.
    by rewrite path_name_snoc in H2.
  - intros e He Hname.
    destruct (Hfrom e He) as (n' & wi & Hn' & Hwi & Hrun_e).
    destruct (list_item_always names (D ++ [n']) wi) as (e' & ? & H1 & _ & H2).
    rewrite H1 in Hrun_e. simpl in Hrun_e. injection Hrun_e as <-.
    rewrite path_name_snoc, Hname in H2. injection H2 as <-.
    destruct (HP names wi Hnames Hwi) as (e2 & He2 & ?).
    rewrite H1 in He2. simpl in He2. by injection He2 as <-.
Qed.

End catalog.

(** ** The classifier *)

Lemma nodes_sequence_spec d :
  dict_in "nodes" d && isinstance_list (dict_get d "nodes") = true ↔
  nodes_sequence d.
Proof.
  unfold dict_in, dict_get, nodes_sequence.
  rewrite andb_true_iff, bool_decide_eq_true.
  destruct (d !! "nodes") as [v|]; simpl.
  - destruct v; simpl; split;
      try (by intros [_ ?]); try (by intros [? [= ]]); eauto.
  - split; [by intros [[? ?] _] | by intros [? ?]].
Qed.

Lemma node_entry_spec d :
  existsb (λ kv,
             isinstance_str kv.1 && isinstance_dict kv.2
             && has_key "class_type" kv.2 && has_key "inputs" kv.2)
          (map_to_list d) = true ↔ node_entry d.
Proof.
  rewrite existsb_exists. unfold node_entry. split.
  - intros [[k v] [Hin H]].
    apply list_elem_of_In, elem_of_map_to_list in Hin.
    unfold isinstance_str in H. simpl in H.
    apply andb_true_iff in H as [H1 H2].
    destruct v; try done. simpl in *.
    unfold dict_in in *. rewrite bool_decide_eq_true in H1, H2. eauto.
  - intros (k & v & Hk & H1 & H2). exists (k, JObject v). split.
    + by apply list_elem_of_In, elem_of_map_to_list.
    + simpl. unfold dict_in. by rewrite !bool_decide_eq_true_2.
Qed.

Lemma api_is_api_graph_spec d : api._is_api_graph d = true ↔ isApiGraph d.
Proof.
  destruct d; simpl; try done.
  destruct (dict_in "nodes" fields && isinstance_list (dict_get fields "nodes"))
    eqn:Hn.
  - apply nodes_sequence_spec in Hn. split; [done | by intros [? _]].
  - rewrite node_entry_spec. split; [|by intros [_ ?]].
    intros H. split; [|done]. intros Hs%nodes_sequence_spec. congruence.
Qed.

(** C1: the classifier, in both modules, is the classifier of the
    specification: it answers true exactly on the mappings that have no
    ["nodes"] sequence and have an entry whose value is a mapping with a
    [class_type] and an [inputs] key. *)
Theorem is_api_graph_refines_spec (d : json) :
  (api._is_api_graph d = true ↔ isApiGraph d)
  ∧ (cf._is_api_graph d = true ↔ isApiGraph d)
  ∧ (isinstance_dict d = false → api._is_api_graph d = false)
  ∧ (∀ m, d = JObject m → nodes_sequence m → api._is_api_graph d = false)
  ∧ (∀ m, d = JObject m → ¬ nodes_sequence m →
          (api._is_api_graph d = true ↔ node_entry m)).
Proof.
  split; [apply api_is_api_graph_spec|].
  split; [apply api_is_api_graph_spec|].
  split; [by destruct d|]. split.
  - intros m -> Hm. apply not_true_is_false.
    intros [? _]%api_is_api_graph_spec. done.
  - intros m -> Hm. rewrite api_is_api_graph_spec. simpl. tauto.
Qed.

(** ** Metadata *)

Lemma meta_from_ok p d :
  meta_block_ok d = true →
  ∃ id title desc tags version,
    api._meta_from p d
    = Ok (dict_update ∅ [("id", id); ("title", title); ("description", desc);
                         ("tags", tags); ("version", version)]).
Proof.
  unfold meta_block_ok, api._meta_from. intros H.
  destruct d as [| | | | | |m]; try (by eexists _, _, _, _, _).
  unfold dict_get_or, py_or. destruct (m !! "cvb_meta") as [v|]; simpl;
    [|by eexists _, _, _, _, _].
  destruct (truthy v) eqn:Hv; simpl in H; [|by eexists _, _, _, _, _].
  destruct v; try done. by eexists _, _, _, _, _.
Qed.

Lemma meta_from_raise p m v :
  m !! "cvb_meta" = Some v → truthy v = true → isinstance_dict v = false →
  api._meta_from p (JObject m)
  = Raise ("'" +:+ type_name v +:+ "' object has no attribute 'get'").
Proof.
  intros Hm Hv Hd. unfold api._meta_from, dict_get_or, py_or.
  rewrite Hm. simpl. rewrite Hv. by destruct v.
Qed.

Lemma valid_name_ext s ext :
  str_contains "/" s = false → str_contains "/" ext = false →
  2 < String.length ext → valid_name (s +:+ ext) = true.
Proof.
  intros Hs He Hl. unfold valid_name.
  rewrite str_contains_app, Hs, He. simpl.
  apply negb_true_iff, orb_false_iff. split; [apply orb_false_iff; split|];
    apply String.eqb_neq; intros E; apply (f_equal String.length) in E;
    rewrite length_app_str in E; simpl in E; lia.
Qed.

Lemma valid_name_no_sep n : valid_name n = true → str_contains "/" n = false.
Proof. unfold valid_name. intros [H _]%andb_true_iff. by apply negb_true_iff. Qed.

Lemma name_stem_no_sep n :
  str_contains "/" n = false → str_contains "/" (name_stem n) = false.
Proof.
  intros H. unfold name_stem. destruct (_ && _); [|done].
  by apply str_contains_take.
Qed.

Lemma companion_name_valid n :
  valid_name n = true → valid_name (name_stem n +:+ ".api.json") = true.
Proof.
  intros H. apply valid_name_ext; [|done|simpl; lia].
  by apply name_stem_no_sep, valid_name_no_sep.
Qed.

Lemma companion_name_json s : endswith (s +:+ ".api.json") ".json" = true.
Proof.
  apply endswith_spec. exists (s +:+ ".api"). by rewrite app_assoc_str.
Qed.

Section catalog_claims.
Context (json_loads : string → result json) (D : path).

Local Abbreviation list_item := (api.list_item json_loads).
Local Abbreviation list_workflows := (api.list_workflows json_loads D).

(** C3, what the code does where the claim asks for [is_api = true]: in
    the listing, take a file [n] (selected by [*.json]) whose document is
    not classified as an API graph, whose stem does not end in [.api] and
    whose metadata block is absent, falsy or a mapping, and let a regular
    file [<stem>.api.json] be in the same directory.  Then the entry listed
    for [n] is a regular entry (no [error] key) and its [template_url]
    targets [<stem>.api.json] with [format=api] whatever the companion
    holds, as claimed; but its [is_api] is [loadable c], true only when
    the companion can be read and decoded.  The assignment
    [is_api = _is_api_graph(_load_json(companion)) or True] is meant to
    give true for every companion, and the handler [pass] of the [try]
    around it leaves [is_api] false when the load raises: the code falls
    short of the claim there. *)
Theorem companion_resolution (w : world) (n t : string) (d : json)
  (c : result string) :
  valid_name n = true →
  endswith n ".json" = true →
  files w !! (resolve D ++ [n]) = Some (Reg (Ok t)) →
  json_loads t = Ok d →
  api._is_api_graph d = false →
  endswith (name_stem n) ".api" = false →
  meta_block_ok d = true →
  files w !! (resolve D ++ [name_stem n +:+ ".api.json"]) = Some (Reg c) →
  ∃ items,
    (list_workflows w).1 = Ok items
    ∧ (∃ e, e ∈ items ∧ e !! "filename" = Some (JString n))
    ∧ ∀ e, e ∈ items → e !! "filename" = Some (JString n) →
        e !! "template_url"
        = Some (JString ("/cvb/workflows/" +:+ (name_stem n +:+ ".api.json")
                         +:+ "?format=api"))
        ∧ e !! "is_api" = Some (JBool (loadable json_loads c))
        ∧ e !! "error" = None.
Proof.
  intros Hv Hj Hn Ht Hd Hs Hm Hc.
  set (cn := name_stem n +:+ ".api.json") in *.
  assert (valid_name cn = true) as Hcv by by apply companion_name_valid.
  assert (listed (files w) D "*.json" cn) as Hcl.
  { split; [done|]. split; [|eauto].
    rewrite fnmatch_star_json. apply companion_name_json. }
  apply listing_entry.
  { split; [done|]. split; [by rewrite fnmatch_star_json | eauto]. }
  intros names wi [Hnames _] Hwi.
  destruct (meta_from_ok (D ++ [n]) d Hm)
    as (id & title & desc & tags & version & Hmeta).
  unfold api.list_item, api._load_json, try_except, bind, lift, ret.
  rewrite (read_text_entry D n wi (Ok t)) by (by rewrite ?Hwi).
  rewrite Ht, Hmeta. unfold stem. rewrite path_name_snoc, Hd, Hs.
  cbn [orb negb]. fold cn. rewrite (Hnames cn Hcl).
  rewrite (read_text_entry D cn _ c) by (simpl; by rewrite ?Hwi).
  unfold api.api_url. rewrite !path_name_snoc.
  destruct c as [tc|ec]; simpl; [destruct (json_loads tc); simpl|];
    rewrite ?orb_true_r;
    (eexists; split; [reflexivity|]; repeat split; entry_lookup;
     by rewrite path_name_snoc).
Qed.

(** C10: in the listing, a file [n] that decodes to a mapping whose
    [cvb_meta] value is truthy and not a mapping gets no entry with
    fallback metadata: the metadata lookup raises, and the entry listed
    for [n] is the degraded one, with [error] true, [is_api] false, a
    description that starts with ["Failed to parse: "] (followed by the
    message of the attribute error), the bare stem as title and neither
    [tags] nor [version]. *)
Theorem truthy_non_mapping_meta_degrades (w : world) (n t : string)
  (m : gmap string json) (v : json) :
  valid_name n = true →
  endswith n ".json" = true →
  files w !! (resolve D ++ [n]) = Some (Reg (Ok t)) →
  json_loads t = Ok (JObject m) →
  m !! "cvb_meta" = Some v →
  truthy v = true →
  isinstance_dict v = false →
  ∃ items,
    (list_workflows w).1 = Ok items
    ∧ (∃ e, e ∈ items ∧ e !! "filename" = Some (JString n))
    ∧ ∀ e, e ∈ items → e !! "filename" = Some (JString n) →
        e !! "error" = Some (JBool true)
        ∧ e !! "is_api" = Some (JBool false)
        ∧ e !! "description"
          = Some (JString ("Failed to parse: "
                           +:+ ("'" +:+ type_name v
                                +:+ "' object has no attribute 'get'")))
        ∧ e !! "title" = Some (JString (name_stem n))
        ∧ e !! "tags" = None
        ∧ e !! "version" = None.
Proof.
  intros Hv Hj Hn Ht Hm Htr Hd.
  apply listing_entry.
  { split; [done|]. split; [by rewrite fnmatch_star_json | eauto]. }
  intros names wi _ Hwi.
  unfold api.list_item, api._load_json, try_except, bind, lift, ret.
  rewrite (read_text_entry D n wi (Ok t)) by (by rewrite ?Hwi).
  rewrite Ht, (meta_from_raise _ m v Hm Htr Hd).
  eexists; split; [reflexivity|].
  repeat split; entry_lookup. unfold stem. by rewrite path_name_snoc.
Qed.

End catalog_claims.

(** ** Single retrieval *)
Section retrieval.
Context (json_loads : string → result json) (D : path).

Local Abbreviation get_workflow := (api.get_workflow json_loads D).


(** The request names a regular [.json] file of the directory. *)
Lemma get_workflow_found raw fmt w n c :
  str_name raw = n → valid_name n = true → name_suffix n = ".json" →
  files w !! (resolve D ++ [n]) = Some (Reg c) →
  get_workflow (api.Request (Some raw) fmt) w
  = (Ok (found_response json_loads (lower (default "raw" fmt)) c),
     log (Read (resolve D ++ [n])) w).
Proof.
  intros Hraw Hv Hs Hc. unfold api.get_workflow. simpl. rewrite Hraw.
  rewrite truediv_valid by done.
  unfold bind at 1. rewrite path_exists_present by (rewrite node_at_entry; eauto).
  unfold bind at 1. rewrite is_file_present by (rewrite node_at_entry; eauto).
  unfold regular, try_except, bind.
  rewrite node_at_entry, Hc by done.
  unfold suffix. rewrite path_name_snoc, Hs. simpl.
  rewrite (read_text_entry D n w c) by done.
  unfold found_response, lift, ret.
  destruct c as [t|e]; [|done]. destruct (json_loads t) as [d|e]; [|done].
  destruct (String.eqb _ "raw"); [done|].
  destruct (String.eqb _ "api"); [|done]. by destruct (api._is_api_graph d).
Qed.

Lemma get_workflow_not_found raw fmt w n :
  str_name raw = n → n = ".." ∨ valid_name n = true →
  ¬ (∃ c, name_suffix n = ".json"
          ∧ files w !! (resolve D ++ [n]) = Some (Reg c)) →
  get_workflow (api.Request (Some raw) fmt) w
  = (match stat_error (files w) (truediv D n) with
     | Some e => Raise e
     | None => Ok (api.Response 404 "Workflow not found" None [])
     end, w).
Proof.
  intros Hraw Hn Hno. unfold api.get_workflow. simpl. rewrite Hraw.
  unfold bind, path_exists, is_file.
  destruct (stat_error (files w) (truediv D n)) eqn:Es; [done|].
  rewrite Es. unfold regular, ret.
  destruct Hn as [->|Hv].
  - unfold suffix. replace (truediv D "..") with (D ++ [".."]) by done.
    rewrite path_name_snoc. simpl. by rewrite !andb_false_r.
  - rewrite truediv_valid, node_at_entry by done.
    unfold suffix. rewrite path_name_snoc.
    destruct (String.eqb_spec (name_suffix n) ".json") as [Hs|];
      [|by rewrite !andb_false_r].
    destruct (files w !! _) as [[|c]|] eqn:E.
    + simpl. by rewrite ?andb_false_r.
    + exfalso. apply Hno. eauto.
    + simpl. by rewrite ?andb_false_r.
Qed.

(** C2, amended: for a regular file [n] of the workflows directory with
    suffix [.json] whose text [t] can be read, retrieval with [format=raw]
    returns [t] as it is, content type JSON, whatever the shape of the
    document, provided [t] decodes as JSON; the text is decoded before the
    format is looked at, so a text that does not decode yields the
    internal-error response (500) carrying the decoder's message. *)
Theorem raw_returns_text_of_decodable_file (w : world) (n t : string) :
  valid_name n = true →
  name_suffix n = ".json" →
  files w !! (resolve D ++ [n]) = Some (Reg (Ok t)) →
  (get_workflow (api.Request (Some n) (Some "raw")) w).1
  = Ok match json_loads t with
       | Ok _ => api.Response 200 t (Some "application/json") api.cors
       | Raise e =>
           api.Response 500 ("Failed to read workflow: " +:+ e) None []
       end.
Proof.
  intros Hv Hs Hc.
  rewrite (get_workflow_found n (Some "raw") w n (Ok t)) by
    (done || by apply str_name_valid).
  simpl. by destruct (json_loads t).
Qed.

(** C5, amended: for a regular [.json] file whose text [t] decodes to
    [d], retrieval with [format=api] returns [t] itself when the
    classifier accepts [d], and otherwise the unprocessable-content
    response (422) whose text is the instruction ["Workflow is a UI
    workflow, not an API graph. Export API (JSON) and save as
    .api.json."] and no document; no file is changed. *)
Theorem api_form_is_validated_not_converted (w : world) (n t : string)
  (d : json) :
  valid_name n = true →
  name_suffix n = ".json" →
  files w !! (resolve D ++ [n]) = Some (Reg (Ok t)) →
  json_loads t = Ok d →
  (get_workflow (api.Request (Some n) (Some "api")) w).1
  = Ok (if api._is_api_graph d
        then api.Response 200 t (Some "application/json") api.cors
        else api.Response 422
               "Workflow is a UI workflow, not an API graph. Export API (JSON) and save as .api.json."
               None api.cors)
  ∧ files (get_workflow (api.Request (Some n) (Some "api")) w).2 = files w.
Proof.
  intros Hv Hs Hc Hd.
  rewrite (get_workflow_found n (Some "api") w n (Ok t)) by
    (done || by apply str_name_valid).
  simpl. by rewrite Hd.
Qed.

(** C9: the [format] value is compared without regard to case.  For an
    existing [.json] file that decodes, a value that spells [raw] in any
    mix of upper and lower case ([RAW], [Raw], ...) gives what ["raw"]
    gives, a value that spells [api] gives what ["api"] gives, and the
    status is 400 exactly for the values that spell neither.  (A value has
    the lower-case form [raw] or [api] exactly when it spells the word:
    no other character has one of these letters as its lower case.) *)
Theorem format_is_case_insensitive (w : world) (n t : string) (d : json)
  (fmt : string) :
  valid_name n = true →
  name_suffix n = ".json" →
  files w !! (resolve D ++ [n]) = Some (Reg (Ok t)) →
  json_loads t = Ok d →
  (∀ word, word = "raw" ∨ word = "api" → spelled word fmt = true →
     get_workflow (api.Request (Some n) (Some fmt)) w
     = get_workflow (api.Request (Some n) (Some word)) w)
  ∧ (status_of (get_workflow (api.Request (Some n) (Some fmt)) w).1 = Some 400
     ↔ spelled "raw" fmt = false ∧ spelled "api" fmt = false).
Proof.
  intros Hv Hs Hc Hd.
  rewrite <- (spelled_lower "raw" fmt), <- (spelled_lower "api" fmt) by auto.
  rewrite !(get_workflow_found n _ w n (Ok t)) by
    (done || by apply str_name_valid).
  split.
  { intros word Hword Hsp.
    rewrite (get_workflow_found n _ w n (Ok t)) by
      (done || by apply str_name_valid).
    rewrite <- (spelled_lower word fmt Hword) in Hsp.
    apply String.eqb_eq in Hsp. simpl. rewrite Hsp.
    by destruct Hword as [-> | ->]. }
  simpl. rewrite Hd.
  destruct (String.eqb (lower fmt) "raw") eqn:Hr; simpl.
  { split; [done | by intros [? _]]. }
  destruct (String.eqb (lower fmt) "api") eqn:Ha; simpl.
  { destruct (api._is_api_graph d); (split; [done | by intros [_ ?]]). }
  done.
Qed.


End retrieval.

(** ** Destination names *)

Lemma name_suffix_json_not_dots nm :
  name_suffix nm = ".json" → nm ≠ "" ∧ nm ≠ "." ∧ nm ≠ "..".
Proof. intros H. repeat split; by intros ->. Qed.

Lemma pure_parts_no_sep s c : c ∈ pure_parts s → str_contains "/" c = false.
Proof.
  unfold pure_parts. rewrite list_elem_of_In, filter_In, <- list_elem_of_In.
  intros [H _]. by apply split_on_component in H.
Qed.

Lemma path_name_no_sep s : str_contains "/" (path_name (pure_parts s)) = false.
Proof.
  destruct (path_name_parts s) as [->|H]; [done|].
  by apply pure_parts_no_sep in H.
Qed.

Lemma target_name_valid s : valid_name (cf._target_name s) = true.
Proof.
  unfold cf._target_name, suffix, stem.
  pose proof (path_name_no_sep s) as Hc.
  destruct (String.eqb_spec (name_suffix (path_name (pure_parts s))) ".json")
    as [Hs|_]; simpl.
  - destruct (endswith _ ".api").
    + apply name_suffix_json_not_dots in Hs as (H1 & H2 & H3).
      unfold valid_name. rewrite Hc. simpl.
      apply negb_true_iff, orb_false_iff. split; [apply orb_false_iff; split|];
        by apply String.eqb_neq.
    + apply valid_name_ext; [by apply name_stem_no_sep|done|simpl; lia].
  - apply valid_name_ext; [by apply name_stem_no_sep|done|simpl; lia].
Qed.

Lemma target_name_ends s : endswith (cf._target_name s) ".api.json" = true.
Proof.
  unfold cf._target_name, suffix, stem.
  set (nm := path_name (pure_parts s)).
  destruct (String.eqb_spec (name_suffix nm) ".json") as [Hs|_]; simpl.
  - destruct (endswith (name_stem nm) ".api") eqn:E.
    + apply endswith_spec in E as [pre E]. apply endswith_spec. exists pre.
      rewrite <- (name_stem_suffix nm), Hs, E. by rewrite app_assoc_str.
    + apply endswith_spec. eauto.
  - apply endswith_spec. eauto.
Qed.



Lemma target_name_fixed n :
  valid_name n = true → endswith n ".api.json" = true → cf._target_name n = n.
Proof.
  intros Hv [pre Hn]%endswith_spec.
  assert (n = (pre +:+ ".api") +:+ ".json") as Hn'
      by (by rewrite app_assoc_str).
  destruct (stem_suffix_app (pre +:+ ".api") ".json") as [H1 H2];
    [by destruct pre | done | simpl; lia |].
  unfold cf._target_name, suffix, stem.
  rewrite (pure_parts_valid n Hv). change (path_name [n]) with n.
  rewrite Hn', H1, H2. simpl.
  replace (endswith (pre +:+ ".api") ".api") with true; [done|].
  symmetry. apply endswith_spec. eauto.
Qed.

(** ** Creating the destination directory *)

Lemma node_at_weaken fs fs' q nd :
  fs ⊆ fs' → node_at fs q = Some nd → node_at fs' q = Some nd.
Proof.
  intros Hsub. destruct q; [done|]. simpl. intros ?. by eapply lookup_weaken.
Qed.

Lemma mkdir_exist_ok_spec p w :
  files w ⊆ files (mkdir_exist_ok p w).2
  ∧ ((mkdir_exist_ok p w).1 = Ok tt →
     node_at (files (mkdir_exist_ok p w).2) (resolve p) = Some Dir)
  ∧ (∀ q c, files (mkdir_exist_ok p w).2 !! q = Some (Reg c) →
            files w !! q = Some (Reg c)).
Proof.
  unfold mkdir_exist_ok.
  destruct (node_at (files w) (resolve p)) as [[|c]|] eqn:E; simpl; try done.
  destruct (stat_error (files w) p); [done|]. simpl.
  destruct (resolve p) as [|x l] eqn:Hp; [done|]. simpl in E.
  split; [by apply insert_subseteq|]. split.
  - intros _. apply lookup_insert_eq.
  - intros q c. rewrite lookup_insert. by case_decide.
Qed.

Lemma for_each_mkdir_spec l w :
  files w ⊆ files (for_each mkdir_exist_ok l w).2
  ∧ ((for_each mkdir_exist_ok l w).1 = Ok tt →
     ∀ p, p ∈ l →
          node_at (files (for_each mkdir_exist_ok l w).2) (resolve p) = Some Dir)
  ∧ (∀ q c, files (for_each mkdir_exist_ok l w).2 !! q = Some (Reg c) →
            files w !! q = Some (Reg c)).
Proof.
  revert w. induction l as [|p l IH]; intros w.
  - simpl. split; [done|]. split; [|done]. by intros _ ? ?%elem_of_nil.
  - cbn [for_each]. unfold bind.
    destruct (mkdir_exist_ok_spec p w) as (H1 & H2 & H3).
    destruct (mkdir_exist_ok p w) as [[[]|e] w1]; simpl in *; [|done].
    destruct (IH w1) as (I1 & I2 & I3).
    split; [by etrans|]. split.
    + intros Hok q [->|Hq]%elem_of_cons; [|by apply I2].
      eapply node_at_weaken; [done|]. by apply H2.
    + intros q c ?. by apply H3, I3.
Qed.

Lemma prefixes_from_last pre rest :
  rest ≠ [] → pre ++ rest ∈ prefixes_from pre rest.
Proof.
  revert pre. induction rest as [|c rest IH]; intros pre; [done|]. intros _.
  simpl. destruct rest as [|c' rest'].
  - by left.
  - right. rewrite (cons_middle c pre), app_assoc. by apply IH.
Qed.

Lemma mkdir_parents_spec p w :
  files w ⊆ files (mkdir_parents p w).2
  ∧ ((mkdir_parents p w).1 = Ok tt →
     node_at (files (mkdir_parents p w).2) (resolve p) = Some Dir)
  ∧ (∀ q c, files (mkdir_parents p w).2 !! q = Some (Reg c) →
            files w !! q = Some (Reg c)).
Proof.
  unfold mkdir_parents.
  destruct (for_each_mkdir_spec (prefixes_from [] p) w) as (H1 & H2 & H3).
  split; [done|]. split; [|done].
  intros Hok. destruct p as [|c p]; [done|].
  apply (H2 Hok). apply (prefixes_from_last [] (c :: p)). done.
Qed.

(** ** The batch loop *)
Section batch.
Context (json_loads : string → result json) (json_dumps : json → string).

Local Abbreviation convert_file := (cf.convert_file json_loads json_dumps).
Local Abbreviation convert_loop := (cf.convert_loop json_loads json_dumps).
Local Abbreviation convert_all := (cf.convert_all json_loads json_dumps).

(** One turn of the loop, by what it finds at the path. *)
Lemma convert_file_spec dst ow p acc w :
  let tn := cf._target_name (path_name p) in
  let q := resolve dst ++ [tn] in
  let w1 := log (Read (resolve p)) w in
  match outcome_of json_loads (files w) p with
  | NotFile =>
      convert_file dst ow p acc w
      = (match stat_error (files w) p with
         | Some e => Raise e
         | None => Ok acc
         end, w)
  | Skip =>
      convert_file dst ow p acc w
      = (Ok (acc.1, acc.2 ++ [path_name p]), w1)
  | Api d =>
      match stat_error (files w) (dst ++ [tn]) with
      | Some e => convert_file dst ow p acc w = (Raise e, w1)
      | None =>
          if bool_decide (is_Some (files w !! q)) && negb ow
          then convert_file dst ow p acc w = (Ok acc, w1)
          else if writable (files w) (resolve dst) q
          then if utf8_encodable (json_dumps d)
               then convert_file dst ow p acc w
                    = (Ok (acc.1 ++ [tn], acc.2),
                       log (Write q)
                         (World (<[q := Reg (Ok (json_dumps d))]> (files w))
                                (trace w1)))
               else convert_file dst ow p acc w
                    = (Raise (encode_error (json_dumps d)),
                       log (Write q)
                         (World (<[q := Reg (Ok "")]> (files w)) (trace w1)))
          else ∃ e, convert_file dst ow p acc w = (Raise e, w1)
      end
  end.
Proof.
  intros tn q w1.
  unfold outcome_of, cf.convert_file, bind, is_file, regular,
    try_except, read_text, lift, ret.
  destruct (node_at (files w) (resolve p)) as [[|[t|e]]|] eqn:E;
    [rewrite stat_error_present by (rewrite E; eauto)..
    |by destruct (stat_error (files w) p)];
    cbn [negb]; cbv beta iota; rewrite ?E; try done.
  destruct (json_loads t) as [d|e]; [|done].
  destruct (cf._is_api_graph d); [|done].
  fold tn. rewrite (truediv_valid dst tn) by apply target_name_valid.
  subst q w1. unfold path_exists, write_text. cbv beta zeta.
  change (files (log (Read (resolve p)) w)) with (files w).
  destruct (stat_error (files w) (dst ++ [tn])) eqn:Es; [done|].
  rewrite !(resolve_valid dst tn) by apply target_name_valid.
  rewrite !node_at_snoc.
  destruct (bool_decide _ && negb ow); [done|].
  cbv beta zeta.
  change (files (log (Read (resolve p)) w)) with (files w).
  rewrite ?Es.
  rewrite ?(resolve_valid dst tn) by apply target_name_valid.
  rewrite ?removelast_last, ?node_at_snoc.
  unfold writable.
  destruct (files w !! _) as [[|c]|];
    destruct (node_at (files w) (resolve dst)) as [[|?]|];
    try destruct (utf8_encodable (json_dumps d));
    simpl; first [done | by eexists].
Qed.

Lemma kept_refl dst ow w : kept dst ow w w.
Proof. intros q nd H. by rewrite H. Qed.

Lemma kept_trans dst ow w1 w2 w3 :
  kept dst ow w1 w2 → kept dst ow w2 w3 → kept dst ow w1 w3.
Proof.
  intros H12 H23 q nd Hq. destruct (H12 q nd Hq) as [[nd2 H2] Hc]. split.
  - by destruct (H23 q nd2 H2).
  - intros Hcond. apply (H23 q nd); [by apply Hc | done].
Qed.

Lemma kept_same_files dst ow w w' : files w' = files w → kept dst ow w w'.
Proof. intros E q nd H. by rewrite E, H. Qed.

Lemma kept_subseteq dst ow w w' : files w ⊆ files w' → kept dst ow w w'.
Proof.
  intros Hsub q nd H. pose proof (lookup_weaken _ _ _ _ H Hsub) as H'.
  by rewrite H'.
Qed.

(** What one turn of the loop does to the world, whatever it returns:
    nothing but a read of the path, or a read and the creation or
    replacement of the destination file. *)
Lemma convert_file_effect dst ow p acc w :
  (files (convert_file dst ow p acc w).2 = files w
   ∧ (trace (convert_file dst ow p acc w).2 = trace w
      ∨ trace (convert_file dst ow p acc w).2
        = trace w ++ [Read (resolve p)]))
  ∨ (∃ text,
       files (convert_file dst ow p acc w).2
       = <[resolve dst ++ [cf._target_name (path_name p)] := Reg (Ok text)]>
           (files w)
       ∧ trace (convert_file dst ow p acc w).2
         = trace w ++ [Read (resolve p);
                       Write (resolve dst ++ [cf._target_name (path_name p)])]
       ∧ files w !! (resolve dst ++ [cf._target_name (path_name p)])
         ≠ Some Dir
       ∧ (ow = true
          ∨ files w !! (resolve dst ++ [cf._target_name (path_name p)]) = None)
       ∧ node_at (files w) (resolve dst) = Some Dir).
Proof.
  pose proof (convert_file_spec dst ow p acc w) as H. cbv zeta in H.
  set (q := resolve dst ++ [cf._target_name (path_name p)]) in *.
  destruct (outcome_of json_loads (files w) p) as [| |d].
  { rewrite H. left. split; [done | by left]. }
  { rewrite H. left. split; [done | by right]. }
  destruct (stat_error _ _).
  { rewrite H. left. split; [done | by right]. }
  destruct (bool_decide _ && negb ow) eqn:Hb.
  { rewrite H. left. split; [done | by right]. }
  destruct (writable _ _ _) eqn:Hw.
  2:{ destruct H as [e ->]. left. split; [done | by right]. }
  assert (files w !! q ≠ Some Dir
          ∧ (ow = true ∨ files w !! q = None)
          ∧ node_at (files w) (resolve dst) = Some Dir) as Hfacts.
  { unfold writable in Hw. apply andb_false_iff in Hb.
    destruct (files w !! q) as [[|c]|] eqn:Eq; [done|..];
      destruct (node_at (files w) (resolve dst)) as [[|?]|]; try done.
    - split; [done|]. split; [|done]. left.
      destruct Hb as [Hb|Hb]; [|by destruct ow].
      apply bool_decide_eq_false in Hb. destruct Hb. eauto.
    - split; [done|]. split; [by right | done]. }
  destruct (utf8_encodable _); rewrite H; right; eexists;
    (split; [done|]); (split; [|done]); simpl; by rewrite <- app_assoc.
Qed.

Lemma convert_file_kept dst ow p acc w :
  kept dst ow w (convert_file dst ow p acc w).2.
Proof.
  destruct (convert_file_effect dst ow p acc w)
    as [[Hf _]|(text & Hf & _ & Hnd & Hfree & _)].
  { by apply kept_same_files. }
  intros q nd Hq. rewrite Hf.
  set (t := resolve dst ++ [cf._target_name (path_name p)]) in *.
  destruct (decide (q = t)) as [E|Hne].
  - rewrite E, lookup_insert_eq. split; [by eexists|].
    intros [->|Hx]; [|by destruct (Hx _ eq_refl)].
    destruct Hfree as [?|Hnone]; [done|]. rewrite <- E in Hnone. congruence.
  - rewrite lookup_insert_ne by congruence. by rewrite Hq.
Qed.

Lemma convert_loop_kept dst ow paths acc w :
  kept dst ow w (convert_loop dst ow paths acc w).2.
Proof.
  revert acc w. induction paths as [|p paths IH]; intros acc w.
  - apply kept_refl.
  - cbn [cf.convert_loop]. unfold bind.
    pose proof (convert_file_kept dst ow p acc w) as H.
    destruct (convert_file dst ow p acc w) as [[acc1|e] w1]; [|done].
    eapply kept_trans; [done | apply IH].
Qed.

(** A turn of the loop, and the loop, change entries of the destination
    directory only. *)
Lemma convert_file_frame dst ow p acc w q :
  (∀ x, q ≠ resolve dst ++ [x]) →
  files (convert_file dst ow p acc w).2 !! q = files w !! q.
Proof.
  intros Hq.
  destruct (convert_file_effect dst ow p acc w) as [[-> _]|(text & -> & _)];
    [done|].
  rewrite lookup_insert_ne; [done|]. intros E.
  by apply (Hq (cf._target_name (path_name p))).
Qed.

Lemma convert_loop_frame dst ow paths acc w q :
  (∀ x, q ≠ resolve dst ++ [x]) →
  files (convert_loop dst ow paths acc w).2 !! q = files w !! q.
Proof.
  intros Hq. revert acc w. induction paths as [|p paths IH]; intros acc w;
    [done|].
  cbn [cf.convert_loop]. unfold bind.
  pose proof (convert_file_frame dst ow p acc w q Hq) as H.
  destruct (convert_file dst ow p acc w) as [[acc1|e] w1]; [|done].
  by rewrite IH.
Qed.

(** Without [overwrite] a turn of the loop only adds a file. *)
Lemma convert_file_grows dst p acc w :
  files w ⊆ files (convert_file dst false p acc w).2.
Proof.
  destruct (convert_file_effect dst false p acc w)
    as [[-> _]|(text & -> & _ & _ & [?|Hnone] & _)]; [done|done|].
  by apply insert_subseteq.
Qed.

Lemma convert_all_kept src dst ow pattern w :
  kept dst ow w (convert_all src dst ow pattern w).2.
Proof.
  unfold cf.convert_all, bind.
  destruct (mkdir_parents_spec dst w) as (Hsub & _ & _).
  apply kept_subseteq with (dst := dst) (ow := ow) in Hsub.
  destruct (mkdir_parents dst w) as [[[]|e] w1]; [|done]. simpl in Hsub.
  destruct (glob_spec src pattern w1) as [(l & -> & _)|(e & -> & _)]; [|done].
  eapply kept_trans; [done | apply convert_loop_kept].
Qed.



Lemma outcome_api_weaken fs fs' p d :
  fs ⊆ fs' → outcome_of json_loads fs p = Api d →
  outcome_of json_loads fs' p = Api d.
Proof.
  intros Hsub. unfold outcome_of.
  destruct (node_at fs (resolve p)) as [[|[t|e]]|] eqn:E; try done.
  by rewrite (node_at_weaken _ _ _ _ Hsub E).
Qed.

(** Without [overwrite] the loop only adds files, whether it returns or
    raises. *)
Lemma convert_loop_grows dst paths acc w :
  files w ⊆ files (convert_loop dst false paths acc w).2.
Proof.
  revert acc w. induction paths as [|p paths IH]; intros acc w; [done|].
  cbn [cf.convert_loop]. unfold bind.
  pose proof (convert_file_grows dst p acc w) as Hstep.
  destruct (convert_file dst false p acc w) as [[acc1|e] w1]; [|done].
  etrans; [done | apply IH].
Qed.

(** When the loop returns without [overwrite], it reports as converted
    only names it has created, and as skipped only files it found to be
    skippable. *)
Lemma convert_loop_no_overwrite dst paths acc w acc' :
  (convert_loop dst false paths acc w).1 = Ok acc' →
  (∀ x, x ∈ acc'.1 →
        x ∈ acc.1
        ∨ (files w !! (resolve dst ++ [x]) = None
           ∧ ∃ p, p ∈ paths ∧ x = cf._target_name (path_name p)))
  ∧ (∀ x, x ∈ acc'.2 →
          x ∈ acc.2
          ∨ ∃ p wi, p ∈ paths ∧ x = path_name p ∧ files w ⊆ files wi
                    ∧ outcome_of json_loads (files wi) p = Skip).
Proof.
  revert acc w. induction paths as [|p paths IH]; intros acc w.
  { simpl. intros [= <-]. split; by left. }
  cbn [cf.convert_loop]. unfold bind.
  pose proof (convert_file_spec dst false p acc w) as H. cbv zeta in H.
  set (tn := cf._target_name (path_name p)) in *.
  destruct (outcome_of json_loads (files w) p) as [| |d] eqn:Ho.
  - destruct (stat_error (files w) p); rewrite H; [done|].
    intros [Hc Hk]%IH. split.
    + intros x [?|(? & p' & ? & ?)]%Hc; [by left|]. right.
      split; [done|]. exists p'. split; [by right | done].
    + intros x [?|(p' & wi & ? & ?)]%Hk; [by left|]. right.
      exists p', wi. split; [by right | done].
  - rewrite H. intros [Hc Hk]%IH. split.
    + intros x [?|(? & p' & ? & ?)]%Hc; [by left|]. right.
      split; [done|]. exists p'. split; [by right | done].
    + intros x [Hx|(p' & wi & ? & ?)]%Hk.
      * simpl in Hx. apply elem_of_app in Hx as [?|Hx]; [by left|].
        apply list_elem_of_singleton in Hx as ->. right.
        exists p, w. split; [by left | done].
      * right. exists p', wi. split; [by right | done].
  - destruct (stat_error (files w) (dst ++ [tn])); [by rewrite H|].
    rewrite andb_true_r in H.
    destruct (bool_decide (is_Some (files w !! (resolve dst ++ [tn])))) eqn:Hb.
    + rewrite H. intros [Hc Hk]%IH. split.
      * intros x [?|(? & p' & ? & ?)]%Hc; [by left|]. right.
        split; [done|]. exists p'. split; [by right | done].
      * intros x [?|(p' & wi & ? & ?)]%Hk; [by left|]. right.
        exists p', wi. split; [by right | done].
    + apply bool_decide_eq_false in Hb.
      assert (files w !! (resolve dst ++ [tn]) = None) as Hnone.
      { destruct (files w !! _) eqn:E; [|done]. destruct Hb. eauto. }
      destruct (writable _ _ _); [|by destruct H as [e ->]].
      destruct (utf8_encodable _); rewrite H; [|done].
      set (w1 := log _ _).
      assert (files w ⊆ files w1) as Hsub by (by apply insert_subseteq).
      intros [Hc Hk]%IH. split.
      * intros x [Hx|(Hx & p' & ? & ?)]%Hc.
        -- simpl in Hx. apply elem_of_app in Hx as [?|Hx]; [by left|].
           apply list_elem_of_singleton in Hx as ->. right.
           split; [done|]. exists p. split; [by left | done].
        -- right. split; [by eapply lookup_weaken_None|].
           exists p'. split; [by right | done].
      * intros x [?|(p' & wi & ? & ? & ? & ?)]%Hk; [by left|]. right.
        exists p', wi. split; [by right|]. split; [done|].
        split; [by etrans | done].
Qed.

(** C7: let [n] be a source file selected by the pattern that decodes to
    an API graph, and let its destination name already exist in the
    destination directory.  Then after [convert_all] with
    [overwrite=false], whether it returns or another file makes it raise,
    the existing destination file is as it was; and when it returns,
    neither list reports the file: its destination name is not in
    [converted], and its own name is in neither list (for a pattern
    that selects entries of the source directory only). *)
Theorem existing_destination_is_left_alone (src dst : path)
  (pattern : string) (w : world) (n t : string) (d : json) (nd : node) :
  valid_name n = true →
  fnmatch pattern n = true →
  files w !! (resolve src ++ [n]) = Some (Reg (Ok t)) →
  json_loads t = Ok d →
  cf._is_api_graph d = true →
  files w !! (resolve dst ++ [cf._target_name n]) = Some nd →
  (files (convert_all src dst false pattern w).2
     !! (resolve dst ++ [cf._target_name n])) = Some nd
  ∧ (∀ converted skipped,
       (convert_all src dst false pattern w).1 = Ok (converted, skipped) →
       (cf._target_name n ∉ converted) ∧ (n ∉ converted))
  ∧ (plain_pattern pattern = true →
     ∀ converted skipped,
       (convert_all src dst false pattern w).1 = Ok (converted, skipped) →
       n ∉ skipped).
Proof.
  intros Hv Hf Hn Ht Hd Hdest.
  split.
  { destruct (convert_all_kept src dst false pattern w _ _ Hdest) as [_ Hk].
    apply Hk. by left. }
  assert (∀ converted skipped,
            (convert_all src dst false pattern w).1 = Ok (converted, skipped) →
            (cf._target_name n ∉ converted) ∧ (n ∉ converted)
            ∧ (n ∉ skipped)) as Hall.
  2:{ split.
      - intros conv sk Hrun. destruct (Hall conv sk Hrun) as (? & ? & ?). done.
      - intros _ conv sk Hrun. by destruct (Hall conv sk Hrun) as (? & ? & ?). }
  intros conv skipped. unfold cf.convert_all, bind.
  destruct (mkdir_parents_spec dst w) as (Hsub & _ & _).
  destruct (mkdir_parents dst w) as [[[]|e] w1]; [|done]. simpl in Hsub.
  destruct (glob_spec src pattern w1) as [(l & -> & Hl)|(e & -> & _)]; [|done].
  pose proof (convert_loop_grows dst (sorted l) ([], []) w1) as Hs.
  intros [Hc Hk]%convert_loop_no_overwrite. simpl in Hc, Hk.
  pose proof (lookup_weaken _ _ _ _ Hdest Hsub) as Hdest1.
  assert (cf._target_name n ∉ conv) as Hnot.
  { intros [Hx|[Hx _]]%Hc; [by apply elem_of_nil in Hx|].
    by rewrite Hdest1 in Hx. }
  split; [done|]. split.
  - intros Hin.
    destruct (Hc _ Hin) as [Hx|(_ & p & _ & Hp)];
      [by apply elem_of_nil in Hx|].
    apply Hnot. rewrite target_name_fixed; [done | done |].
    rewrite Hp. apply target_name_ends.
  - intros [Hx|(p & wi & Hp & Hname & Hwi & Ho)]%Hk;
      [by apply elem_of_nil in Hx|].
    apply elem_of_sorted, Hl in Hp as (n' & -> & _).
    rewrite path_name_snoc in Hname. subst n'.
    assert (outcome_of json_loads (files w) (src ++ [n]) = Api d) as Hapi.
    { unfold outcome_of. by rewrite node_at_entry, Hn, Ht, Hd. }
    eapply outcome_api_weaken in Hapi; [|by etrans].
    by rewrite Hapi in Ho.
Qed.









End batch.

(** * Further properties of the catalog *)

Lemma string_compare_refl s : String.compare s s = Eq.
Proof.
  induction s as [|a s IH]; simpl; [done|].
  unfold Ascii.compare. by rewrite N.compare_refl.
Qed.

Lemma path_leb_entries d a b :
  path_leb (d ++ [a]) (d ++ [b]) = String.leb a b.
Proof.
  induction d as [|c d IH]; simpl.
  - unfold String.leb. by destruct (String.compare a b).
  - by rewrite string_compare_refl.
Qed.

Lemma Sorted_entries d (names : list string) :
  Sorted path_le (List.map (λ n, d ++ [n]) names) → Sorted String.le names.
Proof.
  induction names as [|a names IH]; [constructor|].
  simpl. intros [Hs Hh]%Sorted_inv. constructor; [by apply IH|].
  destruct names as [|b names]; [constructor|]. constructor.
  apply HdRel_inv in Hh. unfold path_le in Hh.
  rewrite path_leb_entries in Hh. unfold String.le. by rewrite Hh.
Qed.

Lemma dict_set_fresh {V} k (v : V) d :
  (∀ v', (k, v') ∉ d) → dict_set k v d = d ++ [(k, v)].
Proof.
  induction d as [|[k0 v0] d IH]; intros Hk; [done|]. simpl.
  destruct (String.eqb_spec k k0) as [->|_].
  - destruct (Hk v0). by left.
  - rewrite IH; [done|]. intros v' ?. apply (Hk v'). by right.
Qed.

Lemma names_of_entries d (names : list string) :
  NoDup names →
  api.names_of (List.map (λ n, d ++ [n]) names)
  = List.map (λ n, (n, d ++ [n])) names.
Proof.
  induction names as [|a names IH] using rev_ind; intros Hnd; [done|].
  apply NoDup_app in Hnd as (Hnd & Hne & _).
  rewrite !List.map_app. simpl. rewrite names_of_snoc, path_name_snoc, IH by done.
  apply dict_set_fresh. intros v' (n & E & Hn)%list_elem_of_In%in_map_iff.
  injection E as -> _. apply (Hne a); [by apply list_elem_of_In | by left].
Qed.

Section catalog_order.
Context (json_loads : string → result json) (D : path).

(** The listing of the directory: the paths of its regular [*.json] files
    in ascending order of name, each once. *)
Lemma list_files_names w :
  ∃ names,
    api._list_files D w = (Ok (List.map (λ n, D ++ [n]) names), w)
    ∧ Sorted String.le names ∧ NoDup names
    ∧ ∀ n, n ∈ names ↔ listed (files w) D "*.json" n.
Proof.
  destruct (list_files_spec D w) as (l & Hl & Hm).
  assert (NoDup l) as Hnd.
  { revert Hl. unfold api._list_files.
    destruct (glob_spec D "*.json" w) as [(ps & Hps & _)|(e & He & _)];
      [|by unfold glob in He].
    rewrite (bind_ok _ _ _ _ _ Hps),
      (bind_ok _ _ _ _ _
         (io_filter_is_file ps w (λ p, glob_present _ _ _ _ p Hps))).
    intros [= <-]. apply sorted_NoDup.
    apply NoDup_ListNoDup, List.NoDup_filter, NoDup_ListNoDup.
    by eapply glob_NoDup. }
  assert (l = List.map (λ n, D ++ [n]) (List.map path_name l)) as El.
  { rewrite List.map_map. rewrite <- (List.map_id l) at 1.
    apply List.map_ext_in. intros p (n & -> & _)%list_elem_of_In%Hm.
    by rewrite path_name_snoc. }
  exists (List.map path_name l). rewrite <- El. split; [done|].
  split; [|split].
  - apply (Sorted_entries D). rewrite <- El.
    revert Hl. unfold api._list_files.
    destruct (glob_spec D "*.json" w) as [(ps & Hps & _)|(e & He & _)];
      [|by unfold glob in He].
    rewrite (bind_ok _ _ _ _ _ Hps),
      (bind_ok _ _ _ _ _
         (io_filter_is_file ps w (λ p, glob_present _ _ _ _ p Hps))).
    intros [= <-]. apply sorted_ascending.
  - rewrite El in Hnd. clear -Hnd.
    induction (List.map path_name l) as [|a k IH]; [constructor|].
    simpl in Hnd. apply NoDup_cons in Hnd as [Ha Hk].
    constructor; [|by apply IH].
    intros Hin. apply Ha. apply list_elem_of_In, in_map_iff.
    exists a. split; [done | by apply list_elem_of_In].
  - intros n. split.
    + intros (p & <- & Hp)%list_elem_of_In%in_map_iff.
      apply list_elem_of_In, Hm in Hp as (n' & -> & ?).
      by rewrite path_name_snoc.
    + intros Hn. apply list_elem_of_In, in_map_iff. exists (D ++ [n]).
      split; [apply path_name_snoc|]. apply list_elem_of_In, Hm. eauto.
Qed.

(** X1: [list_workflows] never raises and changes no file: it answers with
    one entry per regular file of the workflows directory whose name
    matches [*.json], each file once, in ascending order of file name. *)
Theorem list_workflows_total_and_ordered (w : world) :
  ∃ items names,
    (api.list_workflows json_loads D w).1 = Ok items
    ∧ files (api.list_workflows json_loads D w).2 = files w
    ∧ List.map (λ e : gmap string json, e !! "filename") items
      = List.map (λ n, Some (JString n)) names
    ∧ Sorted String.le names
    ∧ NoDup names
    ∧ ∀ n, n ∈ names ↔ listed (files w) D "*.json" n.
Proof.
  destruct (list_files_names w) as (names & Hl & Hs & Hnd & Hm).
  unfold api.list_workflows. rewrite (bind_ok _ _ _ _ _ Hl).
  rewrite names_of_entries by done.
  destruct (io_map_readers
              (λ np : string * path,
                 api.list_item json_loads
                   (List.map (λ n, (n, D ++ [n])) names) np.2)
              (List.map (λ n, (n, D ++ [n])) names) w)
    as (items & w' & Hi & Hw & Hall).
  { intros a w0.
    destruct (list_item_always json_loads
                (List.map (λ n, (n, D ++ [n])) names) a.2 w0)
      as (e & w1 & ? & ? & _). eauto. }
  exists items, names. rewrite Hi. split; [done|]. split; [done|].
  split; [|done]. clear -Hall. revert items Hall.
  generalize (List.map (λ n, (n, D ++ [n])) names) at 1 as nms.
  intros nms. induction names as [|n names IH]; intros items Hall.
  - by apply Forall2_nil_inv_l in Hall as ->.
  - simpl in Hall. apply Forall2_cons_inv_l in Hall
      as (e & items' & (wi & _ & He) & Hall' & ->).
    simpl. rewrite (IH _ Hall'). f_equal.
    destruct (list_item_always json_loads nms (D ++ [n]) wi)
      as (e' & ? & H1 & _ & H2).
    simpl in He. rewrite H1 in He. simpl in He. injection He as <-.
    by rewrite path_name_snoc in H2.
Qed.
End catalog_order.

(** ** Metadata *)

Lemma name_stem_nonempty n : n ≠ "" → name_stem n ≠ "".
Proof.
  intros Hn. unfold name_stem. cbv zeta.
  destruct (0 <? rfind "." n)%Z eqn:E; simpl; [|done].
  apply Z.ltb_lt in E.
  destruct (_ <? _)%Z; [|done].
  destruct n as [|a n]; [done|].
  destruct (Z.to_nat (rfind "." (String a n))) eqn:Ei; [lia|done].
Qed.

Lemma title_nonempty s : s ≠ "" → title (replace_char "-" " " s) ≠ "".
Proof.
  destruct s as [|a s]; [done|]. intros _. unfold title, replace_char.
  cbn [string_map title_from]. by destruct (_ || _).
Qed.

Lemma truthy_py_or_string a s : s ≠ "" → truthy (py_or a (JString s)) = true.
Proof.
  intros Hs. unfold py_or. destruct (truthy a) eqn:E; [done|]. simpl.
  by apply negb_true_iff, String.eqb_neq.
Qed.

(** X2: for a file whose stem is ASCII: when the document is not a
    mapping, has no [cvb_meta], or has a falsy one (null, false, 0, an
    empty string, list or mapping), [_meta_from] does not raise and gives
    the defaults: the stem as id, the stem with hyphens turned into spaces
    and title-cased as title, an empty description, no tags, version
    ["1"]. *)
Theorem meta_from_defaults (p : path) (data : json) :
  is_ascii (stem p) = true →
  match data with
  | JObject d =>
      match d !! "cvb_meta" with
      | Some v => truthy v = false
      | None => True
      end
  | _ => True
  end →
  api._meta_from p data
  = Ok (dict_update ∅
          [("id", JString (stem p));
           ("title", JString (title (replace_char "-" " " (stem p))));
           ("description", JString "");
           ("tags", JArray []);
           ("version", JString "1")]).
Proof.
  intros _ H. unfold api._meta_from.
  assert (match data with
          | JObject d => py_or (dict_get_or d "cvb_meta" (JObject ∅)) (JObject ∅)
          | _ => JObject ∅
          end = JObject ∅) as ->.
  { destruct data as [| | | | | |d]; try done.
    unfold dict_get_or, py_or. destruct (d !! "cvb_meta") as [v|]; simpl.
    - by rewrite H.
    - done. }
  done.
Qed.

(** X3: whenever [_meta_from] returns, for a path with a non-empty name,
    the result has exactly the keys id, title, description, tags and
    version, and its id and its title are truthy: a falsy id or title of
    the metadata block is replaced by the one derived from the stem. *)
Theorem meta_from_fields (p : path) (data : json) (meta : gmap string json) :
  path_name p ≠ "" →
  api._meta_from p data = Ok meta →
  (∀ k, is_Some (meta !! k)
        ↔ k ∈ ["id"; "title"; "description"; "tags"; "version"])
  ∧ truthy (dict_get meta "id") = true
  ∧ truthy (dict_get meta "title") = true.
Proof.
  intros Hp. unfold api._meta_from.
  destruct (api.getattr_get _) as [m|e]; [|done]. intros [= <-].
  pose proof (name_stem_nonempty _ Hp) as Hs. split; [|split].
  - intros k. unfold dict_update. cbn [foldl fst snd]. split.
    + intros Hk. rewrite !lookup_insert in Hk.
      repeat (case_decide;
              [subst k;
               repeat first [apply list_elem_of_here | apply list_elem_of_further]|]).
      rewrite lookup_empty in Hk. by destruct Hk.
    + intros Hk. rewrite !lookup_insert.
      repeat (case_decide; [by eexists|]).
      repeat (apply elem_of_cons in Hk as [?|Hk]; [done|]).
      by apply elem_of_nil in Hk.
  - unfold dict_get, dict_update. cbn [foldl fst snd].
    rewrite !lookup_insert_ne, lookup_insert_eq by done. simpl.
    by apply truthy_py_or_string.
  - unfold dict_get, dict_update. cbn [foldl fst snd].
    rewrite !lookup_insert_ne, lookup_insert_eq by done. simpl.
    by apply truthy_py_or_string, title_nonempty.
Qed.

(** ** More of the listing *)
Section catalog_more.
Context (json_loads : string → result json) (D : path).

(** X4: a regular [*.json] file that cannot be read, or whose text does
    not decode, does not abort the listing: it gets an entry with
    [error] true, [is_api] false, the stem as id and as title, the
    description ["Failed to parse: "] followed by the message of the error,
    and both URLs on the file itself. *)
Theorem unloadable_file_is_listed_as_error (w : world) (n e : string)
  (c : result string) :
  valid_name n = true →
  endswith n ".json" = true →
  files w !! (resolve D ++ [n]) = Some (Reg c) →
  (c = Raise e ∨ ∃ t, c = Ok t ∧ json_loads t = Raise e) →
  ∃ items,
    (api.list_workflows json_loads D w).1 = Ok items
    ∧ (∃ it, it ∈ items ∧ it !! "filename" = Some (JString n))
    ∧ ∀ it, it ∈ items → it !! "filename" = Some (JString n) →
        it !! "error" = Some (JBool true)
        ∧ it !! "is_api" = Some (JBool false)
        ∧ it !! "description" = Some (JString ("Failed to parse: " +:+ e))
        ∧ it !! "id" = Some (JString (name_stem n))
        ∧ it !! "title" = Some (JString (name_stem n))
        ∧ it !! "raw_url"
          = Some (JString ("/cvb/workflows/" +:+ n +:+ "?format=raw"))
        ∧ it !! "template_url"
          = Some (JString ("/cvb/workflows/" +:+ n +:+ "?format=api")).
Proof.
  intros Hv Hj Hn Hc.
  apply listing_entry.
  { split; [done|]. split; [by rewrite fnmatch_star_json | eauto]. }
  intros names wi _ Hwi.
  unfold api.list_item, api._load_json, try_except, bind, lift, ret.
  rewrite (read_text_entry D n wi c) by (by rewrite ?Hwi).
  assert (∀ it, it = api.error_entry (D ++ [n]) e →
    it !! "error" = Some (JBool true)
    ∧ it !! "is_api" = Some (JBool false)
    ∧ it !! "description" = Some (JString ("Failed to parse: " +:+ e))
    ∧ it !! "id" = Some (JString (name_stem n))
    ∧ it !! "title" = Some (JString (name_stem n))
    ∧ it !! "raw_url"
      = Some (JString ("/cvb/workflows/" +:+ n +:+ "?format=raw"))
    ∧ it !! "template_url"
      = Some (JString ("/cvb/workflows/" +:+ n +:+ "?format=api"))) as Hfields.
  { intros it ->. unfold api.error_entry, api.raw_url, api.api_url, stem.
    repeat split; entry_lookup; by rewrite ?path_name_snoc. }
  destruct Hc as [->|(t & -> & Ht)]; [|rewrite Ht]; simpl;
    (eexists; split; [reflexivity | by apply Hfields]).
Qed.

(** X5: for a file that loads and whose metadata block is usable, if the
    document is an API graph, or the stem ends in [.api], or no file
    [<stem>.api.json] is listed, then the entry has [is_api] equal to
    (API graph or stem ending in [.api]), both URLs on the file itself and
    no [error] key.  So a file named [*.api.json] is listed with [is_api]
    true whatever it holds. *)
Theorem entry_without_companion (w : world) (n t : string) (d : json) :
  valid_name n = true →
  endswith n ".json" = true →
  files w !! (resolve D ++ [n]) = Some (Reg (Ok t)) →
  json_loads t = Ok d →
  meta_block_ok d = true →
  (api._is_api_graph d || endswith (name_stem n) ".api" = true
   ∨ ¬ listed (files w) D "*.json" (name_stem n +:+ ".api.json")) →
  ∃ items,
    (api.list_workflows json_loads D w).1 = Ok items
    ∧ (∃ it, it ∈ items ∧ it !! "filename" = Some (JString n))
    ∧ ∀ it, it ∈ items → it !! "filename" = Some (JString n) →
        it !! "is_api"
        = Some (JBool (api._is_api_graph d || endswith (name_stem n) ".api"))
        ∧ it !! "raw_url"
          = Some (JString ("/cvb/workflows/" +:+ n +:+ "?format=raw"))
        ∧ it !! "template_url"
          = Some (JString ("/cvb/workflows/" +:+ n +:+ "?format=api"))
        ∧ it !! "error" = None.
Proof.
  intros Hv Hj Hn Ht Hm Hc.
  apply listing_entry.
  { split; [done|]. split; [by rewrite fnmatch_star_json | eauto]. }
  intros names wi [_ Hnone] Hwi.
  destruct (meta_from_ok (D ++ [n]) d Hm)
    as (id & title & desc & tags & version & Hmeta).
  unfold api.list_item, api._load_json, try_except, bind, lift, ret.
  rewrite (read_text_entry D n wi (Ok t)) by (by rewrite ?Hwi).
  rewrite Ht, Hmeta. unfold stem. rewrite path_name_snoc.
  unfold api.raw_url, api.api_url.
  destruct (api._is_api_graph d || endswith (name_stem n) ".api") eqn:E;
    cbn [negb].
  - eexists; split; [reflexivity|]. simpl.
    repeat split; entry_lookup; by rewrite ?path_name_snoc.
  - destruct Hc as [?|Hc]; [done|]. rewrite (Hnone _ Hc).
    eexists; split; [reflexivity|]. simpl.
    repeat split; entry_lookup; by rewrite ?path_name_snoc.
Qed.
End catalog_more.

(** ** More of single retrieval *)
Section retrieval_more.
Context (json_loads : string → result json) (D : path).

Local Abbreviation get_workflow := (api.get_workflow json_loads D).
Local Abbreviation get_template_alias := (api.get_template_alias json_loads D).

(** Every request: the error of [path.exists()], which the handler does
    not catch; or not-found without touching a file; or one read of the
    regular [.json] file it names and the response that its content and
    the format decide. *)
Lemma get_workflow_cases req w :
  (∃ e, stat_error (files w) (requested D req) = Some e
        ∧ get_workflow req w = (Raise e, w))
  ∨ (stat_error (files w) (requested D req) = None
     ∧ regular (files w) (requested D req)
       && String.eqb (suffix (requested D req)) ".json" = false
     ∧ get_workflow req w
       = (Ok (api.Response 404 "Workflow not found" None []), w))
  ∨ (∃ c, node_at (files w) (resolve (requested D req)) = Some (Reg c)
          ∧ suffix (requested D req) = ".json"
          ∧ get_workflow req w
            = (Ok (found_response json_loads
                     (lower (default "raw" (api.query_format req))) c),
               log (Read (resolve (requested D req))) w)).
Proof.
  unfold api.get_workflow, requested, bind, path_exists, is_file.
  set (p := truediv D _).
  destruct (stat_error (files w) p) as [e|] eqn:Es; [left; eauto|].
  rewrite Es. right. unfold regular, try_except, read_text, lift, ret.
  destruct (node_at (files w) (resolve p)) as [[|c]|] eqn:E; simpl;
    rewrite ?andb_false_r; try (by left).
  destruct (String.eqb_spec (suffix p) ".json") as [Hs|Hs]; simpl;
    [|by left].
  right. exists c. split; [done|]. split; [done|].
  rewrite E. unfold found_response.
  destruct c as [t|e]; [|done]. destruct (json_loads t) as [d|e]; [|done].
  destruct (String.eqb _ "raw"); [done|].
  destruct (String.eqb _ "api"); [|done]. by destruct (api._is_api_graph d).
Qed.


(** X8: when the requested file is a regular [.json] file that cannot be
    read, or whose text does not decode, the answer is 500 with
    ["Failed to read workflow: "] followed by the message of the error,
    whatever the format is: the format is looked at only after
    decoding. *)
Theorem load_failure_is_internal_error_for_any_format (req : api.request)
  (w : world) (c : result string) (e : string) :
  node_at (files w) (resolve (requested D req)) = Some (Reg c) →
  suffix (requested D req) = ".json" →
  (c = Raise e ∨ ∃ t, c = Ok t ∧ json_loads t = Raise e) →
  (get_workflow req w).1
  = Ok (api.Response 500 ("Failed to read workflow: " +:+ e) None []).
Proof.
  intros Hc Hs He.
  destruct (get_workflow_cases req w)
    as [(e' & He' & _)|[(_ & H & _)|(c' & Hc' & _ & ->)]].
  - apply stat_error_missing in He'. congruence.
  - unfold regular in H. by rewrite Hc, Hs in H.
  - rewrite Hc in Hc'. injection Hc' as <-. simpl. unfold found_response.
    destruct He as [->|(t & -> & ->)]; done.
Qed.

(** X9: a response with status 200 is always the literal text of the
    requested regular [.json] file, as JSON and with the CORS header; the
    text decodes, and the format is [raw], or it is [api] and the document
    is an API graph. *)
Theorem success_carries_the_file_text (req : api.request) (w : world)
  (resp : api.response) :
  (get_workflow req w).1 = Ok resp →
  api.status resp = 200 →
  ∃ t d,
    node_at (files w) (resolve (requested D req)) = Some (Reg (Ok t))
    ∧ suffix (requested D req) = ".json"
    ∧ json_loads t = Ok d
    ∧ resp = api.Response 200 t (Some "application/json") api.cors
    ∧ (lower (default "raw" (api.query_format req)) = "raw"
       ∨ (lower (default "raw" (api.query_format req)) = "api"
          ∧ api._is_api_graph d = true)).
Proof.
  destruct (get_workflow_cases req w)
    as [(e & _ & ->)|[(_ & _ & ->)|(c & Hc & Hs & ->)]]; simpl.
  { done. }
  { by intros [= <-]. }
  unfold found_response.
  destruct c as [t|e]; [|by intros [= <-]].
  destruct (json_loads t) as [d|e] eqn:Ht; [|by intros [= <-]].
  destruct (String.eqb_spec (lower (default "raw" (api.query_format req))) "raw")
    as [Hr|_].
  { intros [= <-] _. exists t, d. by repeat split; [..|left]. }
  destruct (String.eqb_spec (lower (default "raw" (api.query_format req))) "api")
    as [Ha|_]; [|by intros [= <-]].
  destruct (api._is_api_graph d) eqn:Hd; [|by intros [= <-]].
  intros [= <-] _. exists t, d. by repeat split; [..|right].
Qed.


(** X11: for a name that is a single component and does not end in
    [.json], [get_template_alias] answers as [get_workflow] for
    [<name>.json] with [format=api]; the alias of [<name>] and of
    [<name>.json] are the same. *)
Theorem template_alias_adds_the_suffix (n : string) (f1 f2 : option string)
  (w : world) :
  valid_name n = true →
  endswith n ".json" = false →
  get_template_alias (api.Request (Some n) f1) w
  = get_workflow (api.Request (Some (n +:+ ".json")) (Some "api")) w
  ∧ get_template_alias (api.Request (Some n) f1) w
    = get_template_alias (api.Request (Some (n +:+ ".json")) f2) w.
Proof.
  intros Hv He.
  assert (valid_name (n +:+ ".json") = true) as Hv'.
  { apply valid_name_ext; [by apply valid_name_no_sep | done | simpl; lia]. }
  unfold api.get_template_alias. simpl.
  rewrite !str_name_valid by done. rewrite He.
  replace (endswith (n +:+ ".json") ".json") with true; [done|].
  symmetry. apply endswith_spec. eauto.
Qed.

End retrieval_more.

(** * Further properties of the batch exporter *)

(** X12: [_target_name] always gives a single path component that ends in
    [.api.json], and it is idempotent: the destination name of a
    destination name is itself. *)
Theorem target_name_normal_form (src_name : string) :
  valid_name (cf._target_name src_name) = true
  ∧ endswith (cf._target_name src_name) ".api.json" = true
  ∧ cf._target_name (cf._target_name src_name) = cf._target_name src_name.
Proof.
  split; [apply target_name_valid|]. split; [apply target_name_ends|].
  apply target_name_fixed; [apply target_name_valid | apply target_name_ends].
Qed.

Lemma mkdir_exist_ok_trace p w : trace (mkdir_exist_ok p w).2 = trace w.
Proof.
  unfold mkdir_exist_ok. destruct (node_at _ _) as [[]|]; [done..|].
  by destruct (stat_error _ _).
Qed.

Lemma mkdir_parents_trace p w : trace (mkdir_parents p w).2 = trace w.
Proof.
  unfold mkdir_parents. generalize (prefixes_from [] p). intros l.
  revert w. induction l as [|q l IH]; intros w; [done|].
  cbn [for_each]. unfold bind.
  pose proof (mkdir_exist_ok_trace q w) as H.
  destruct (mkdir_exist_ok q w) as [[[]|e] w1]; simpl in *; [|done].
  by rewrite IH.
Qed.

Lemma outcome_api_inv json_loads fs p d :
  outcome_of json_loads fs p = Api d → cf._is_api_graph d = true.
Proof.
  unfold outcome_of.
  destruct (node_at fs (resolve p)) as [[|[t|e]]|]; try done.
  destruct (json_loads t) as [d'|]; [|done].
  destruct (cf._is_api_graph d') eqn:E; [|done]. by intros [= <-].
Qed.

Section batch_more.
Context (json_loads : string → result json) (json_dumps : json → string).

Local Abbreviation convert_file := (cf.convert_file json_loads json_dumps).
Local Abbreviation convert_loop := (cf.convert_loop json_loads json_dumps).
Local Abbreviation convert_all := (cf.convert_all json_loads json_dumps).

Lemma convert_file_trace dst ow p acc w :
  ∃ evs,
    trace (convert_file dst ow p acc w).2 = trace w ++ evs
    ∧ Forall (λ ev, ev = Read (resolve p)
                    ∨ ev = Write (resolve dst
                                  ++ [cf._target_name (path_name p)])) evs.
Proof.
  destruct (convert_file_effect json_loads json_dumps dst ow p acc w)
    as [[_ [->| ->]]|(text & _ & -> & _)].
  - exists []. by rewrite app_nil_r.
  - exists [Read (resolve p)]. split; [done|].
    constructor; [by left | done].
  - eexists. split; [done|].
    constructor; [by left|]. constructor; [by right | done].
Qed.

Lemma convert_loop_trace dst ow paths acc w :
  ∃ evs,
    trace (convert_loop dst ow paths acc w).2 = trace w ++ evs
    ∧ Forall (λ ev, (∃ p, p ∈ paths ∧ ev = Read (resolve p))
                    ∨ (∃ x, valid_name x = true
                            ∧ endswith x ".api.json" = true
                            ∧ ev = Write (resolve dst ++ [x]))) evs.
Proof.
  revert acc w. induction paths as [|p paths IH]; intros acc w.
  { exists []. by rewrite app_nil_r. }
  cbn [cf.convert_loop]. unfold bind.
  destruct (convert_file_trace dst ow p acc w) as (ev1 & Ht1 & Hf1).
  assert (Forall (λ ev, (∃ p', p' ∈ p :: paths ∧ ev = Read (resolve p'))
                        ∨ (∃ x, valid_name x = true
                                ∧ endswith x ".api.json" = true
                                ∧ ev = Write (resolve dst ++ [x]))) ev1) as Hf1'.
  { eapply Forall_impl; [done|]. intros ev [->| ->].
    - left. exists p. split; [by left | done].
    - right. eexists. split; [apply target_name_valid|].
      split; [apply target_name_ends | done]. }
  destruct (convert_file dst ow p acc w) as [[acc1|e] w1]; simpl in Ht1.
  - destruct (IH acc1 w1) as (ev2 & Ht2 & Hf2).
    exists (ev1 ++ ev2). rewrite Ht2, Ht1, app_assoc. split; [done|].
    apply Forall_app. split; [done|].
    eapply Forall_impl; [done|]. intros ev [(p' & ? & ->)|?]; [|by right].
    left. exists p'. split; [by right | done].
  - exists ev1. done.
Qed.

(** X13: for a pattern that selects entries of the source directory,
    and whether it returns or raises, [convert_all] reads only entries of
    the source directory whose name matches the pattern, and writes only
    entries of the destination directory whose name ends in
    [.api.json]. *)
Theorem convert_all_touches_only_its_files (src dst : path) (overwrite : bool)
  (pattern : string) (w : world) :
  plain_pattern pattern = true →
  ∃ evs,
    trace (convert_all src dst overwrite pattern w).2 = trace w ++ evs
    ∧ Forall (batch_event src dst pattern) evs.
Proof.
  intros _. unfold cf.convert_all, bind.
  pose proof (mkdir_parents_trace dst w) as Hm.
  destruct (mkdir_parents dst w) as [[[]|e] w1]; simpl in Hm;
    [|exists []; by rewrite app_nil_r].
  destruct (glob_spec src pattern w1) as [(l & -> & Hl)|(e & -> & _)];
    [|exists []; by rewrite app_nil_r].
  destruct (convert_loop_trace dst overwrite (sorted l) ([], []) w1)
    as (evs & Ht & Hf).
  exists evs. rewrite Ht, Hm. split; [done|].
  eapply Forall_impl; [done|]. intros ev [(p & Hp & ->)|?]; [|by right].
  apply elem_of_sorted, Hl in Hp as (n & -> & Hv & Hfn & _).
  left. exists n. by rewrite resolve_valid.
Qed.

Lemma convert_loop_converted_written dst ow paths acc w acc' :
  (∀ x, x ∈ acc.1 →
        ∃ d, cf._is_api_graph d = true
             ∧ files w !! (resolve dst ++ [x]) = Some (Reg (Ok (json_dumps d)))) →
  (convert_loop dst ow paths acc w).1 = Ok acc' →
  ∀ x, x ∈ acc'.1 →
       ∃ d, cf._is_api_graph d = true
            ∧ files (convert_loop dst ow paths acc w).2
                !! (resolve dst ++ [x]) = Some (Reg (Ok (json_dumps d))).
Proof.
  revert acc w. induction paths as [|p paths IH]; intros acc w Hinv.
  { simpl. by intros [= <-]. }
  cbn [cf.convert_loop]. unfold bind.
  pose proof (convert_file_spec json_loads json_dumps dst ow p acc w) as H.
  cbv zeta in H.
  destruct (outcome_of json_loads (files w) p) as [| |d] eqn:Ho.
  - destruct (stat_error _ _); rewrite H; [done|]. by apply IH.
  - rewrite H. by apply IH.
  - destruct (stat_error _ _); [by rewrite H|].
    destruct (bool_decide _ && negb ow).
    { rewrite H. by apply IH. }
    destruct (writable _ _ _); [|by destruct H as [e ->]].
    destruct (utf8_encodable _); rewrite H; [|done].
    apply IH. simpl. intros x Hx.
    set (q := resolve dst ++ [cf._target_name (path_name p)]).
    destruct (decide (q = resolve dst ++ [x])) as [E|E].
    + exists d. rewrite <- E, lookup_insert_eq.
      split; [by eapply outcome_api_inv | done].
    + rewrite lookup_insert_ne by done.
      apply elem_of_app in Hx as [Hx|Hx]; [by apply Hinv|].
      apply list_elem_of_singleton in Hx as ->. by destruct E.
Qed.

Lemma convert_loop_converted_names dst ow paths acc w acc' :
  (∀ x, x ∈ acc.1 → valid_name x = true ∧ endswith x ".api.json" = true) →
  (convert_loop dst ow paths acc w).1 = Ok acc' →
  ∀ x, x ∈ acc'.1 → valid_name x = true ∧ endswith x ".api.json" = true.
Proof.
  revert acc w. induction paths as [|p paths IH]; intros acc w Hacc.
  { simpl. by intros [= <-]. }
  cbn [cf.convert_loop]. unfold bind.
  pose proof (convert_file_spec json_loads json_dumps dst ow p acc w) as H.
  cbv zeta in H.
  destruct (outcome_of json_loads (files w) p) as [| |d].
  - destruct (stat_error _ _); rewrite H; [done|]. by apply IH.
  - rewrite H. by apply IH.
  - destruct (stat_error _ _); [by rewrite H|].
    destruct (bool_decide _ && negb ow).
    { rewrite H. by apply IH. }
    destruct (writable _ _ _); [|by destruct H as [e ->]].
    destruct (utf8_encodable _); rewrite H; [|done].
    apply IH. simpl. intros x Hx.
    apply elem_of_app in Hx as [Hx|Hx]; [by apply Hacc|].
    apply list_elem_of_singleton in Hx as ->.
    split; [apply target_name_valid | apply target_name_ends].
Qed.

(** X14: when [convert_all] returns, every name it reports as converted
    is a single component ending in [.api.json], and the destination
    directory holds under that name the encoding of an API graph. *)
Theorem converted_names_are_written (src dst : path) (overwrite : bool)
  (pattern : string) (w : world) (converted skipped : list string) :
  (convert_all src dst overwrite pattern w).1 = Ok (converted, skipped) →
  Forall (λ x,
            valid_name x = true
            ∧ endswith x ".api.json" = true
            ∧ ∃ d, cf._is_api_graph d = true
                   ∧ files (convert_all src dst overwrite pattern w).2
                       !! (resolve dst ++ [x])
                     = Some (Reg (Ok (json_dumps d)))) converted.
Proof.
  unfold cf.convert_all, bind.
  destruct (mkdir_parents dst w) as [[[]|e] w1]; [|done].
  destruct (glob_spec src pattern w1) as [(l & -> & Hl)|(e & -> & _)]; [|done].
  intros Hrun. apply Forall_forall. intros x Hx.
  split; [|split].
  - eapply (convert_loop_converted_names dst overwrite (sorted l) ([], []) w1);
      [|done|done].
    by intros y ?%elem_of_nil.
  - eapply (convert_loop_converted_names dst overwrite (sorted l) ([], []) w1);
      [|done|done].
    by intros y ?%elem_of_nil.
  - eapply (convert_loop_converted_written dst overwrite (sorted l) ([], []) w1);
      [|done|done].
    by intros y ?%elem_of_nil.
Qed.

(** X15: when [convert_all] returns, the destination directory exists
    and is a directory, also when nothing was converted. *)
Theorem destination_is_a_directory_afterwards (src dst : path)
  (overwrite : bool) (pattern : string) (w : world)
  (r : list string * list string) :
  (convert_all src dst overwrite pattern w).1 = Ok r →
  node_at (files (convert_all src dst overwrite pattern w).2) (resolve dst)
  = Some Dir.
Proof.
  unfold cf.convert_all, bind.
  destruct (mkdir_parents_spec dst w) as (_ & Hdir & _).
  destruct (mkdir_parents dst w) as [[[]|e] w1]; [|done].
  simpl in Hdir. specialize (Hdir eq_refl).
  destruct (glob_spec src pattern w1) as [(l & -> & Hl)|(e & -> & _)]; [|done].
  intros _.
  pose proof (convert_loop_kept json_loads json_dumps dst overwrite (sorted l)
                ([], []) w1) as Hk.
  destruct (resolve dst) as [|c q] eqn:E; [done|]. simpl in *.
  destruct (Hk _ _ Hdir) as [_ Hk']. apply Hk'. right.
  intros x Hx. rewrite E in Hx. apply (f_equal List.length) in Hx. rewrite length_app in Hx.
  simpl in Hx. lia.
Qed.

(** X16: when the destination path is a regular file, [convert_all]
    raises; no file has been read or written, and no regular file has been
    created, changed or removed. *)
Theorem destination_that_is_a_file_raises (src dst : path) (overwrite : bool)
  (pattern : string) (w : world) (c : result string) :
  node_at (files w) (resolve dst) = Some (Reg c) →
  ∃ e,
    (convert_all src dst overwrite pattern w).1 = Raise e
    ∧ trace (convert_all src dst overwrite pattern w).2 = trace w
    ∧ files w ⊆ files (convert_all src dst overwrite pattern w).2
    ∧ ∀ q t, files (convert_all src dst overwrite pattern w).2 !! q
               = Some (Reg t) →
             files w !! q = Some (Reg t).
Proof.
  intros Hreg. unfold cf.convert_all, bind.
  destruct (mkdir_parents_spec dst w) as (Hsub & Hdir & Hr).
  pose proof (mkdir_parents_trace dst w) as Ht.
  destruct (mkdir_parents dst w) as [[[]|e] w1]; simpl in *.
  - specialize (Hdir eq_refl).
    rewrite (node_at_weaken _ _ _ _ Hsub Hreg) in Hdir. done.
  - by exists e.
Qed.

Lemma outcome_of_insert_ne fs q nd p :
  resolve p ≠ q →
  outcome_of json_loads (<[q := nd]> fs) p = outcome_of json_loads fs p.
Proof.
  intros Hne. unfold outcome_of. destruct (resolve p) as [|c l] eqn:E; [done|].
  simpl. rewrite lookup_insert_ne; [done|]. by intros ->.
Qed.

Lemma outcome_of_same_files fs fs' p :
  fs ⊆ fs' →
  (∀ q c, fs' !! q = Some (Reg c) → fs !! q = Some (Reg c)) →
  outcome_of json_loads fs' p = outcome_of json_loads fs p.
Proof.
  intros Hsub Hreg. unfold outcome_of.
  destruct (resolve p) as [|c l]; [done|]. simpl.
  destruct (fs' !! (c :: l)) as [[|r]|] eqn:E'.
  - destruct (fs !! (c :: l)) as [[|r]|] eqn:E; try done.
    pose proof (lookup_weaken _ _ _ _ E Hsub). congruence.
  - by rewrite (Hreg _ _ E').
  - destruct (fs !! (c :: l)) as [nd|] eqn:E; [|done].
    pose proof (lookup_weaken _ _ _ _ E Hsub). congruence.
Qed.

Lemma filter_outcome_insert (f : outcome → bool) fs q nd paths :
  (∀ p, p ∈ paths → resolve p ≠ q) →
  List.filter (λ p, f (outcome_of json_loads (<[q := nd]> fs) p)) paths
  = List.filter (λ p, f (outcome_of json_loads fs p)) paths.
Proof.
  intros Hne. apply List.filter_ext_in. intros p Hp.
  rewrite outcome_of_insert_ne; [done|]. by apply Hne, list_elem_of_In.
Qed.

(** What the loop reports over paths none of which is an entry of the
    destination directory: the outcomes are those of the start. *)
Lemma convert_loop_reports dst ow paths acc w acc' :
  (∀ p x, p ∈ paths → resolve p ≠ resolve dst ++ [x]) →
  (convert_loop dst ow paths acc w).1 = Ok acc' →
  acc'.2 = acc.2 ++ List.map path_name
                      (List.filter
                         (λ p, is_skip (outcome_of json_loads (files w) p))
                         paths)
  ∧ (ow = true →
     acc'.1 = acc.1 ++ List.map (λ p, cf._target_name (path_name p))
                         (List.filter
                            (λ p, is_api_outcome
                                    (outcome_of json_loads (files w) p))
                            paths)).
Proof.
  revert acc w. induction paths as [|p paths IH]; intros acc w Hne.
  { simpl. intros [= <-]. by rewrite !app_nil_r. }
  assert (∀ p' x, p' ∈ paths → resolve p' ≠ resolve dst ++ [x]) as Hne'.
  { intros p' x ?. apply Hne. by right. }
  cbn [cf.convert_loop List.filter]. unfold bind.
  pose proof (convert_file_spec json_loads json_dumps dst ow p acc w) as H.
  cbv zeta in H.
  destruct (outcome_of json_loads (files w) p) as [| |d]; simpl.
  - destruct (stat_error _ _); rewrite H; [done|]. by apply IH.
  - rewrite H. intros Hrun. apply IH in Hrun as [H2 H1]; [|done].
    simpl in H1, H2. split; [|done]. by rewrite H2, <- app_assoc.
  - destruct (stat_error _ _); [by rewrite H|].
    destruct (bool_decide _ && negb ow) eqn:Hb.
    { rewrite H. intros Hrun. apply IH in Hrun as [H2 H1]; [|done].
      split; [done|]. intros ->. by rewrite andb_false_r in Hb. }
    destruct (writable _ _ _); [|by destruct H as [e ->]].
    destruct (utf8_encodable _); rewrite H; [|done].
    intros Hrun. apply IH in Hrun as [H2 H1]; [|done].
    simpl in H1, H2.
    rewrite filter_outcome_insert in H1, H2 by (intros; by apply Hne').
    split; [done|]. intros Hw. by rewrite H1, <- app_assoc.
Qed.

End batch_more.

(** ** The order of names *)

Lemma string_le_trans : Transitive String.le.
Proof.
  unfold String.le, String.leb. intros a.
  induction a as [|x a IH]; intros [|y b] [|z c]; simpl; try done.
  unfold Ascii.compare.
  destruct (N.compare_spec (N_of_ascii x) (N_of_ascii y)) as [E1|E1|E1],
           (N.compare_spec (N_of_ascii y) (N_of_ascii z)) as [E2|E2|E2],
           (N.compare_spec (N_of_ascii x) (N_of_ascii z)) as [E3|E3|E3];
    try done; try lia.
  apply IH.
Qed.

Lemma string_le_antisym : AntiSymm eq String.le.
Proof.
  unfold String.le, String.leb. intros a b Hab Hba.
  apply String.compare_eq_iff. rewrite String.compare_antisym in Hba.
  by destruct (String.compare a b).
Qed.

Lemma Sorted_le_filter (f : string → bool) names :
  Sorted String.le names → Sorted String.le (List.filter f names).
Proof.
  intros Hs. apply (@Sorted_StronglySorted _ _ string_le_trans) in Hs.
  apply StronglySorted_Sorted.
  induction Hs as [|a l Hl IH Ha]; simpl; [constructor|].
  destruct (f a); [|done]. constructor; [done|].
  apply Forall_forall. intros x Hx%list_elem_of_In%filter_In.
  destruct Hx as [Hx _]. apply list_elem_of_In in Hx.
  by eapply Forall_forall in Ha.
Qed.

Lemma map_filter_entries (f : path → bool) d names :
  List.map path_name (List.filter f (List.map (λ n, d ++ [n]) names))
  = List.filter (λ n, f (d ++ [n])) names.
Proof.
  induction names as [|a names IH]; [done|]. simpl.
  destruct (f (d ++ [a])); simpl; by rewrite ?path_name_snoc, IH.
Qed.

Lemma filter_filter_implies {A} (f g : A → bool) l :
  (∀ x, f x = true → g x = true) →
  List.filter f (List.filter g l) = List.filter f l.
Proof.
  intros Hfg. induction l as [|a l IH]; [done|]. simpl.
  destruct (g a) eqn:Eg; simpl; [by rewrite IH|].
  destruct (f a) eqn:Ef; [|done]. apply Hfg in Ef. congruence.
Qed.

(** The paths that [sorted(source_dir.glob(pattern))] yields: the selected
    entries in ascending order of name, each once. *)
Lemma sorted_glob_names src pattern w l :
  glob src pattern w = (Ok l, w) →
  ∃ names,
    sorted l = List.map (λ n, src ++ [n]) names
    ∧ Sorted String.le names ∧ NoDup names
    ∧ ∀ n, n ∈ names ↔
           valid_name n = true ∧ fnmatch pattern n = true
           ∧ is_Some (files w !! (resolve src ++ [n])).
Proof.
  intros Hg.
  destruct (glob_spec src pattern w) as [(l' & Hl' & Hm)|(e & He & _)];
    [|congruence].
  assert (l' = l) as -> by congruence.
  assert (sorted l = List.map (λ n, src ++ [n]) (List.map path_name (sorted l)))
    as El.
  { rewrite List.map_map. rewrite <- (List.map_id (sorted l)) at 1.
    apply List.map_ext_in.
    intros p (n & -> & _)%list_elem_of_In%elem_of_sorted%Hm.
    by rewrite path_name_snoc. }
  exists (List.map path_name (sorted l)). split; [done|]. split; [|split].
  - apply (Sorted_entries src). rewrite <- El. apply sorted_ascending.
  - assert (NoDup (sorted l)) as Hnd.
    { apply sorted_NoDup. by eapply glob_NoDup. }
    rewrite El in Hnd. clear -Hnd.
    induction (List.map path_name (sorted l)) as [|a k IH]; [constructor|].
    simpl in Hnd. apply NoDup_cons in Hnd as [Ha Hk].
    constructor; [|by apply IH].
    intros Hin. apply Ha. apply list_elem_of_In, in_map_iff.
    exists a. split; [done | by apply list_elem_of_In].
  - intros n. split.
    + intros (p & <- & Hp)%list_elem_of_In%in_map_iff.
      apply list_elem_of_In, elem_of_sorted, Hm in Hp as (n' & -> & ?).
      by rewrite path_name_snoc.
    + intros Hn. apply list_elem_of_In, in_map_iff. exists (src ++ [n]).
      split; [apply path_name_snoc|].
      apply list_elem_of_In, elem_of_sorted, Hm. eauto.
Qed.

Section batch_reports.
Context (json_loads : string → result json) (json_dumps : json → string).

Local Abbreviation convert_file := (cf.convert_file json_loads json_dumps).
Local Abbreviation convert_loop := (cf.convert_loop json_loads json_dumps).
Local Abbreviation convert_all := (cf.convert_all json_loads json_dumps).

Lemma outcome_regular fs p (f : outcome → bool) :
  f NotFile = false →
  f (outcome_of json_loads fs p) = true → regular fs p = true.
Proof.
  unfold outcome_of, regular. intros Hf.
  destruct (node_at fs (resolve p)) as [[|c]|]; congruence.
Qed.

(** The two lists of a run whose destination is not its source. *)
Lemma convert_all_report src dst ow pattern w converted skipped :
  resolve src ≠ resolve dst →
  (convert_all src dst ow pattern w).1 = Ok (converted, skipped) →
  ∃ names,
    Sorted String.le names ∧ NoDup names
    ∧ (∀ n, n ∈ names ↔ listed (files w) src pattern n)
    ∧ skipped
      = List.filter
          (λ n, is_skip (outcome_of json_loads (files w) (src ++ [n]))) names
    ∧ (ow = true →
       converted
       = List.map cf._target_name
           (List.filter
              (λ n, is_api_outcome
                      (outcome_of json_loads (files w) (src ++ [n])))
              names)).
Proof.
  intros Hne. unfold cf.convert_all, bind.
  destruct (mkdir_parents_spec dst w) as (Hsub & _ & Hreg).
  destruct (mkdir_parents dst w) as [[[]|e] w1]; [|done]. simpl in Hsub, Hreg.
  destruct (glob src pattern w1) as [[l|e] w1'] eqn:Hg; [|done].
  assert (w1' = w1) as ->.
  { destruct (glob_spec src pattern w1) as [(? & ? & _)|(? & ? & _)];
      congruence. }
  destruct (sorted_glob_names _ _ _ _ Hg) as (all & El & Hs & Hnd & Hall).
  intros Hrun. apply convert_loop_reports in Hrun as [H2 H1].
  2:{ intros p x Hp%list_elem_of_In E.
      rewrite El in Hp. apply in_map_iff in Hp as (n' & <- & Hn').
      apply list_elem_of_In, Hall in Hn' as (Hv & _).
      rewrite resolve_valid in E by done. by apply snoc_inj in E as [? _]. }
  simpl in H1, H2.
  assert (∀ p, outcome_of json_loads (files w1) p
               = outcome_of json_loads (files w) p) as Ho.
  { intros p. by apply outcome_of_same_files. }
  exists (List.filter (λ n, regular (files w) (src ++ [n])) all).
  split; [by apply Sorted_le_filter|]. split; [|split; [|split]].
  - by apply NoDup_ListNoDup, List.NoDup_filter, NoDup_ListNoDup.
  - intros n. rewrite list_elem_of_In, filter_In, <- list_elem_of_In, Hall.
    unfold listed, regular. split.
    + intros ((Hv & Hf & _) & Hr). split; [done|]. split; [done|].
      rewrite resolve_valid, node_at_snoc in Hr by done.
      destruct (files w !! (resolve src ++ [n])) as [[|c]|]; try done.
      by exists c.
    + intros (Hv & Hf & c & Hc). rewrite resolve_valid, node_at_snoc by done.
      rewrite Hc. split; [|done]. split; [done|]. split; [done|].
      exists (Reg c). by eapply lookup_weaken.
  - rewrite H2, El, map_filter_entries.
    rewrite filter_filter_implies.
    + apply List.filter_ext. intros n. by rewrite Ho.
    + intros n. by apply outcome_regular.
  - intros Hw. rewrite (H1 Hw), El.
    rewrite <- (List.map_map path_name cf._target_name), map_filter_entries.
    f_equal. rewrite filter_filter_implies.
    + apply List.filter_ext. intros n. by rewrite Ho.
    + intros n. by apply outcome_regular.
Qed.

Lemma mkdir_settled l w :
  (∀ p, p ∈ l → node_at (files w) (resolve p) = Some Dir) →
  for_each mkdir_exist_ok l w = (Ok tt, w).
Proof.
  induction l as [|p l IH]; intros Hl; [done|].
  cbn [for_each]. unfold bind, mkdir_exist_ok at 1.
  rewrite (Hl p) by (by left). apply IH. intros q ?. apply Hl. by right.
Qed.

Lemma glob_accepts src pattern w l w' :
  (glob src pattern w).1 = Ok l → ∃ l', glob src pattern w' = (Ok l', w').
Proof.
  unfold glob. destruct pattern as [|c pat]; [done|].
  destruct (Ascii.eqb c "/"); [done|]. eauto.
Qed.

Lemma outcome_of_agree fs fs' p :
  node_at fs' (resolve p) = node_at fs (resolve p) →
  outcome_of json_loads fs' p = outcome_of json_loads fs p.
Proof. unfold outcome_of. by intros ->. Qed.

(** Without [overwrite], over paths that are not entries of the
    destination directory: when the loop returns, every API graph among
    the paths has its destination file. *)
Lemma convert_loop_settles dst paths acc w acc' :
  (∀ p x, p ∈ paths → resolve p ≠ resolve dst ++ [x]) →
  (convert_loop dst false paths acc w).1 = Ok acc' →
  ∀ p d, p ∈ paths →
         outcome_of json_loads
           (files (convert_loop dst false paths acc w).2) p = Api d →
         is_Some (files (convert_loop dst false paths acc w).2
                    !! (resolve dst ++ [cf._target_name (path_name p)])).
Proof.
  revert acc w. induction paths as [|p paths IH]; intros acc w Hne.
  { intros _ p d ?%elem_of_nil. done. }
  assert (∀ p' x, p' ∈ paths → resolve p' ≠ resolve dst ++ [x]) as Hne'.
  { intros p' x ?. apply Hne. by right. }
  cbn [cf.convert_loop]. unfold bind.
  pose proof (convert_file_spec json_loads json_dumps dst false p acc w) as H.
  pose proof (convert_file_grows json_loads json_dumps dst p acc w) as Hg.
  pose proof (convert_file_frame json_loads json_dumps dst false p acc w)
    as Hfr.
  cbv zeta in H.
  destruct (convert_file dst false p acc w) as [[acc1|e] w1] eqn:Hstep;
    [|done].
  simpl in Hg, Hfr.
  intros Hrun p0 d0 [->|Hp0]%elem_of_cons Hd0; [|by eapply IH].
  pose proof (convert_loop_grows json_loads json_dumps dst paths acc1 w1)
    as Hgl.
  assert (outcome_of json_loads (files w) p = Api d0) as Ho.
  { rewrite <- Hd0. symmetry. apply outcome_of_agree.
    destruct (resolve p) as [|c l] eqn:E; [done|]. simpl.
    assert (∀ x, c :: l ≠ resolve dst ++ [x]) as Hq.
    { intros x. rewrite <- E. apply Hne. by left. }
    rewrite (convert_loop_frame json_loads json_dumps) by done.
    by apply Hfr. }
  rewrite Ho in H.
  destruct (stat_error _ _); [congruence|].
  rewrite andb_true_r in H.
  destruct (bool_decide _) eqn:Hb.
  - apply bool_decide_eq_true in Hb as [nd Hnd]. exists nd.
    eapply lookup_weaken; [|done]. by eapply lookup_weaken.
  - destruct (writable _ _ _); [|destruct H as [e H]; congruence].
    destruct (utf8_encodable _); [|congruence].
    assert (w1 = log (Write (resolve dst ++ [cf._target_name (path_name p)]))
                   (World (<[resolve dst ++ [cf._target_name (path_name p)]
                             := Reg (Ok (json_dumps d0))]> (files w))
                          (trace (log (Read (resolve p)) w)))) as Ew
      by congruence.
    eexists. eapply lookup_weaken; [|done]. rewrite Ew. simpl.
    apply lookup_insert_eq.
Qed.

(** Without [overwrite], once every API graph among the paths, which
    exist, has its destination file, the loop writes nothing. *)
Lemma convert_loop_settled dst paths acc w :
  (∀ p, p ∈ paths → is_Some (node_at (files w) (resolve p))) →
  (∀ p d, p ∈ paths → outcome_of json_loads (files w) p = Api d →
          is_Some (files w !! (resolve dst
                                ++ [cf._target_name (path_name p)]))) →
  ∃ w',
    convert_loop dst false paths acc w
    = (Ok (acc.1,
           acc.2 ++ List.map path_name
                      (List.filter
                         (λ p, is_skip (outcome_of json_loads (files w) p))
                         paths)),
       w')
    ∧ files w' = files w.
Proof.
  revert acc w. induction paths as [|p paths IH]; intros acc w Hex Hl.
  { exists w. simpl. rewrite app_nil_r. by destruct acc. }
  cbn [cf.convert_loop List.filter]. unfold bind.
  pose proof (convert_file_spec json_loads json_dumps dst false p acc w) as H.
  cbv zeta in H.
  assert (∀ p', p' ∈ paths → is_Some (node_at (files w) (resolve p')))
    as Hex'.
  { intros p' ?. apply Hex. by right. }
  assert (∀ p' d, p' ∈ paths → outcome_of json_loads (files w) p' = Api d →
                  is_Some (files w !! (resolve dst
                                        ++ [cf._target_name (path_name p')])))
    as Hl'.
  { intros p' d ?. apply Hl. by right. }
  rewrite (stat_error_present _ p) in H by (apply Hex; by left).
  destruct (outcome_of json_loads (files w) p) as [| |d] eqn:Ho.
  - rewrite H. simpl. by apply IH.
  - rewrite H. simpl.
    destruct (IH (acc.1, acc.2 ++ [path_name p]) (log (Read (resolve p)) w))
      as (w' & -> & Hw'); [done|done|].
    exists w'. split; [|done]. simpl. by rewrite <- app_assoc.
  - assert (is_Some (files w !! (resolve dst
                                  ++ [cf._target_name (path_name p)])))
      as Htgt by (eapply Hl; [by left | done]).
    rewrite stat_error_entry in H by (done || apply target_name_valid).
    rewrite andb_true_r, bool_decide_eq_true_2 in H by done.
    rewrite H. simpl.
    destruct (IH acc (log (Read (resolve p)) w)) as (w' & -> & Hw');
      [done|done|].
    by exists w'.
Qed.

(** What a run without [overwrite] leaves behind, when the destination is
    not the source. *)
Lemma first_run_leaves src dst pattern w r :
  resolve src ≠ resolve dst →
  (convert_all src dst false pattern w).1 = Ok r →
  (∀ p, p ∈ prefixes_from [] dst →
        node_at (files (convert_all src dst false pattern w).2) (resolve p)
        = Some Dir)
  ∧ (∀ q c, (∀ x, q ≠ resolve dst ++ [x]) →
            files (convert_all src dst false pattern w).2 !! q = Some (Reg c) →
            files w !! q = Some (Reg c))
  ∧ (∀ n d, valid_name n = true → fnmatch pattern n = true →
            outcome_of json_loads
              (files (convert_all src dst false pattern w).2) (src ++ [n])
            = Api d →
            is_Some (files (convert_all src dst false pattern w).2
                       !! (resolve dst ++ [cf._target_name n]))).
Proof.
  intros Hne. unfold cf.convert_all, bind, mkdir_parents.
  destruct (for_each_mkdir_spec (prefixes_from [] dst) w) as (Hsub & Hdirs & Hreg).
  destruct (for_each mkdir_exist_ok (prefixes_from [] dst) w)
    as [[[]|e] w1]; [|done].
  simpl in Hsub, Hdirs, Hreg. specialize (Hdirs eq_refl).
  destruct (glob_spec src pattern w1) as [(l & -> & Hl)|(e & -> & _)]; [|done].
  intros Hrun.
  pose proof (convert_loop_grows json_loads json_dumps dst (sorted l)
                ([], []) w1) as Hs.
  assert (∀ q, (∀ x, q ≠ resolve dst ++ [x]) →
               files (convert_loop dst false (sorted l) ([], []) w1).2 !! q
               = files w1 !! q) as Hq.
  { intros q ?. by apply convert_loop_frame. }
  pose proof (convert_loop_settles dst (sorted l) ([], []) w1 r) as Ht.
  set (w' := (convert_loop dst false (sorted l) ([], []) w1).2) in *.
  split; [|split].
  - intros p Hp. eapply node_at_weaken; [done|]. by apply Hdirs.
  - intros q c Hx Hc. rewrite (Hq q Hx) in Hc. by apply Hreg.
  - intros n d Hv Hf Hd.
    assert (src ++ [n] ∈ sorted l) as Hin.
    { apply elem_of_sorted, Hl. exists n. split; [done|]. split; [done|].
      split; [done|]. rewrite <- Hq.
      - unfold outcome_of in Hd. rewrite resolve_valid, node_at_snoc in Hd by done.
        destruct (files w' !! (resolve src ++ [n])); [by eexists | done].
      - intros x E. by apply snoc_inj in E as [? _]. }
    rewrite <- (path_name_snoc src n). apply (Ht) with (d := d); [|done..].
    intros p x (m & -> & Hvm & _)%elem_of_sorted%Hl E.
    rewrite resolve_valid in E by done. by apply snoc_inj in E as [? _].
Qed.

(** X17: running [convert_all] without [overwrite] a second time, over the
    entries of an existing source directory (named without a
    parent-directory segment) that is not the destination: the second run
    converts nothing, reports the same skipped files and leaves every file
    as the first run left it. *)
Theorem second_run_converts_nothing (src dst : path) (pattern : string)
  (w : world) (converted skipped : list string) :
  plain_pattern pattern = true →
  no_parent_segment src = true →
  node_at (files w) (resolve src) = Some Dir →
  resolve src ≠ resolve dst →
  (convert_all src dst false pattern w).1 = Ok (converted, skipped) →
  (convert_all src dst false pattern
     (convert_all src dst false pattern w).2).1 = Ok ([], skipped)
  ∧ files (convert_all src dst false pattern
             (convert_all src dst false pattern w).2).2
    = files (convert_all src dst false pattern w).2.
Proof.
  intros _ _ _ Hne Hrun.
  destruct (first_run_leaves _ _ _ _ _ Hne Hrun) as (Hdirs & Hreg & Htgt).
  pose proof (convert_all_kept json_loads json_dumps src dst false pattern w)
    as Hkept.
  destruct (convert_all_report _ _ _ _ _ _ _ Hne Hrun)
    as (names & Hs & Hnd & Hnames & Hsk & _).
  assert (∃ l, (glob src pattern (mkdir_parents dst w).2).1 = Ok l) as [l0 Hg0].
  { revert Hrun. unfold cf.convert_all, bind.
    destruct (mkdir_parents dst w) as [[[]|e] w1]; [|done]. simpl.
    destruct (glob src pattern w1) as [[l|e] w1']; [eauto | done]. }
  set (wf := (convert_all src dst false pattern w).2) in *. clearbody wf.
  assert (∃ sk2 w2, convert_all src dst false pattern wf = (Ok ([], sk2), w2)
                    ∧ files w2 = files wf) as (sk2 & w2 & Hrun2 & Hw2).
  { unfold cf.convert_all, bind, mkdir_parents.
    rewrite (mkdir_settled _ _ Hdirs).
    destruct (glob_accepts src pattern _ _ wf Hg0) as [l2 Hg2].
    rewrite Hg2.
    destruct (glob_spec src pattern wf) as [(l' & Hl' & Hl)|(e & He & _)];
      [|congruence].
    assert (l' = l2) as -> by congruence.
    destruct (convert_loop_settled dst (sorted l2) ([], []) wf)
      as (w2 & -> & Hw2).
    - intros p Hp. apply (proj1 (elem_of_sorted _ _)) in Hp.
      apply (glob_present _ _ _ _ _ Hg2 Hp).
    - intros p d (n & -> & Hv & Hf & _)%elem_of_sorted%Hl Hd.
      rewrite path_name_snoc. by eapply Htgt.
    - eauto. }
  rewrite Hrun2. simpl. split; [|done]. f_equal. f_equal.
  assert ((convert_all src dst false pattern wf).1 = Ok ([], sk2)) as Hrun2'
    by (by rewrite Hrun2).
  destruct (convert_all_report _ _ _ _ _ _ _ Hne Hrun2')
    as (names2 & Hs2 & Hnd2 & Hnames2 & Hsk2 & _).
  assert (∀ n c, valid_name n = true →
                 (files wf !! (resolve src ++ [n]) = Some (Reg c)
                  ↔ files w !! (resolve src ++ [n]) = Some (Reg c))) as Hfile.
  { intros n c Hv. split.
    - apply Hreg. intros x E. by apply snoc_inj in E as [? _].
    - intros Hc. destruct (Hkept _ _ Hc) as [_ Hk]. apply Hk. by left. }
  assert (names2 = names) as ->.
  { apply (@Sorted_unique _ String.le string_le_trans string_le_antisym);
      [done|done|].
    apply NoDup_Permutation; [done|done|].
    intros n. rewrite Hnames, Hnames2. unfold listed.
    split; intros (Hv & Hf & c & Hc); (split; [done|]); (split; [done|]);
      exists c; by apply (Hfile n c Hv). }
  rewrite Hsk, Hsk2. apply List.filter_ext_in.
  intros n (Hv & _)%list_elem_of_In%Hnames. f_equal.
  unfold outcome_of. rewrite resolve_valid, !node_at_snoc by done.
  destruct (files wf !! (resolve src ++ [n])) as [[|c]|] eqn:E2.
  - destruct (files w !! (resolve src ++ [n])) as [[|c]|] eqn:E1; try done.
    apply (Hfile n c Hv) in E1. congruence.
  - apply (Hfile n c Hv) in E2. by rewrite E2.
  - destruct (files w !! (resolve src ++ [n])) as [[|c]|] eqn:E1; try done.
    apply (Hfile n c Hv) in E1. congruence.
Qed.

(** X18: for a pattern that selects entries of the source directory, an
    existing directory named without a parent-directory segment: when the
    destination is not the source and [convert_all] returns,
    [skipped_ui] is, in ascending order of name, the regular files
    selected by the pattern that cannot be read, do not decode or are not
    API graphs; with [overwrite], [converted] is the destination names of
    the selected API graphs, in the order of their sources (the same name
    twice when two sources share it). *)
Theorem convert_all_reports_by_outcome (src dst : path) (overwrite : bool)
  (pattern : string) (w : world) (converted skipped : list string) :
  plain_pattern pattern = true →
  no_parent_segment src = true →
  node_at (files w) (resolve src) = Some Dir →
  resolve src ≠ resolve dst →
  (convert_all src dst overwrite pattern w).1 = Ok (converted, skipped) →
  ∃ names,
    Sorted String.le names ∧ NoDup names
    ∧ (∀ n, n ∈ names ↔ listed (files w) src pattern n)
    ∧ skipped
      = List.filter
          (λ n, is_skip (outcome_of json_loads (files w) (src ++ [n]))) names
    ∧ (overwrite = true →
       converted
       = List.map cf._target_name
           (List.filter
              (λ n, is_api_outcome
                      (outcome_of json_loads (files w) (src ++ [n])))
              names)).
Proof. intros _ _ _. apply convert_all_report. Qed.

End batch_reports.

(** ** The catalog and the exporter *)
Section catalog_and_exporter.
Context (json_loads : string → result json) (D : path).

(** X19: the catalog and the exporter agree: for a name with suffix
    [.json], [get_workflow] with [format=api] answers 200 exactly when the
    exporter's loop finds an API graph at that file (a regular file that
    reads, decodes and passes the exporter's classifier). *)
Theorem served_as_template_iff_exportable (w : world) (n : string) :
  valid_name n = true →
  name_suffix n = ".json" →
  status_of (api.get_workflow json_loads D
               (api.Request (Some n) (Some "api")) w).1 = Some 200
  ↔ is_api_outcome (outcome_of json_loads (files w) (D ++ [n])) = true.
Proof.
  intros Hv Hs. unfold outcome_of.
  rewrite resolve_valid, node_at_snoc by done.
  destruct (files w !! (resolve D ++ [n])) as [[|c]|] eqn:E.
  - rewrite (get_workflow_not_found json_loads D n (Some "api") w n);
      [by destruct (stat_error _ _) | by apply str_name_valid | by right |].
    intros (c & _ & Hc). congruence.
  - rewrite (get_workflow_found json_loads D n (Some "api") w n c);
      [|by apply str_name_valid|done..].
    simpl. unfold found_response.
    destruct c as [t|e]; [|done]. destruct (json_loads t) as [d|e]; [|done].
    change (lower "api") with "api". simpl.
    change (cf._is_api_graph d) with (api._is_api_graph d).
    by destruct (api._is_api_graph d).
  - rewrite (get_workflow_not_found json_loads D n (Some "api") w n);
      [by destruct (stat_error _ _) | by apply str_name_valid | by right |].
    intros (c & _ & Hc). congruence.
Qed.

End catalog_and_exporter.

(** ** What the listing reads *)
Section catalog_reads.
Context (json_loads : string → result json) (D : path).

Lemma read_text_trace p w :
  ∃ evs, trace (read_text p w).2 = trace w ++ evs
         ∧ Forall (λ ev, ev = Read (resolve p)) evs.
Proof.
  unfold read_text. destruct (node_at _ _) as [[|c]|]; simpl.
  - exists []. by rewrite app_nil_r.
  - exists [Read (resolve p)]. split; [done|]. by constructor.
  - exists []. by rewrite app_nil_r.
Qed.

Lemma load_json_trace p w :
  ∃ evs, trace (api._load_json json_loads p w).2 = trace w ++ evs
         ∧ Forall (λ ev, ev = Read (resolve p)) evs.
Proof.
  unfold api._load_json, bind, lift.
  destruct (read_text_trace p w) as (evs & Ht & Hf).
  destruct (read_text p w) as [[t|e] w1]; simpl in *; eauto.
Qed.

Lemma list_item_trace names p w :
  ∃ evs,
    trace (api.list_item json_loads names p w).2 = trace w ++ evs
    ∧ Forall (λ ev, ev = Read (resolve p)
                    ∨ ∃ k c, (k, c) ∈ names ∧ ev = Read (resolve c)) evs.
Proof.
  unfold api.list_item, try_except, bind at 1.
  destruct (load_json_trace p w) as (ev1 & Ht1 & Hf1).
  assert (Forall (λ ev, ev = Read (resolve p)
                        ∨ ∃ k c, (k, c) ∈ names ∧ ev = Read (resolve c)) ev1)
    as Hf1'.
  { eapply Forall_impl; [done|]. intros ev ->. by left. }
  destruct (api._load_json json_loads p w) as [[data|e] w1]; simpl in Ht1;
    [|simpl; eauto].
  unfold bind at 1, lift.
  destruct (api._meta_from p data) as [meta|e]; [|simpl; eauto].
  destruct (negb _); [|simpl; eauto].
  destruct (dict_lookup _ names) as [c|] eqn:Hc; [|simpl; eauto].
  apply dict_lookup_Some in Hc.
  unfold bind, try_except, ret.
  destruct (load_json_trace c w1) as (ev2 & Ht2 & Hf2).
  assert (∃ evs,
            trace (api._load_json json_loads c w1).2 = trace w ++ evs
            ∧ Forall (λ ev, ev = Read (resolve p)
                            ∨ ∃ k c, (k, c) ∈ names ∧ ev = Read (resolve c))
                evs) as Hboth.
  { exists (ev1 ++ ev2). rewrite Ht2, Ht1, app_assoc. split; [done|].
    apply Forall_app. split; [done|].
    eapply Forall_impl; [done|]. intros ev ->. right. eauto. }
  destruct (api._load_json json_loads c w1) as [[d|e] w2]; by simpl in *.
Qed.

Lemma io_map_trace {A B} (f : A → io B) (P : event → Prop) l w :
  (∀ a w0, a ∈ l →
           ∃ evs, trace (f a w0).2 = trace w0 ++ evs ∧ Forall P evs) →
  ∃ evs, trace (io_map f l w).2 = trace w ++ evs ∧ Forall P evs.
Proof.
  revert w. induction l as [|a l IH]; intros w Hf.
  { exists []. by rewrite app_nil_r. }
  cbn [io_map]. unfold bind at 1.
  destruct (Hf a w) as (ev1 & Ht1 & Hf1); [by left|].
  destruct (f a w) as [[b|e] w1]; simpl in Ht1; [|eauto].
  unfold bind, ret.
  destruct (IH w1) as (ev2 & Ht2 & Hf2).
  { intros a' w0 ?. apply Hf. by right. }
  assert (∃ evs, trace (io_map f l w1).2 = trace w ++ evs ∧ Forall P evs)
    as Hboth.
  { exists (ev1 ++ ev2). rewrite Ht2, Ht1, app_assoc. split; [done|].
    by apply Forall_app. }
  by destruct (io_map f l w1) as [[bs|e] w2].
Qed.

(** X22: [list_workflows] reads only regular files of the workflows
    directory whose name matches [*.json] (a listed file, or the listed
    companion of one). *)
Theorem list_workflows_reads_only_listed_files (w : world) :
  ∃ evs,
    trace (api.list_workflows json_loads D w).2 = trace w ++ evs
    ∧ Forall (λ ev, ∃ n, listed (files w) D "*.json" n
                         ∧ ev = Read (resolve D ++ [n])) evs.
Proof.
  destruct (list_files_spec D w) as (l & Hl & Hm).
  unfold api.list_workflows. rewrite (bind_ok _ _ _ _ _ Hl).
  apply io_map_trace. intros [k p] w0 [Hp _]%names_of_elem. simpl.
  destruct (list_item_trace (api.names_of l) p w0) as (evs & Ht & Hf).
  exists evs. split; [done|]. eapply Forall_impl; [done|].
  apply Hm in Hp as (n & -> & Hn).
  intros ev [->|(k' & c & [Hc _]%names_of_elem & ->)].
  - exists n. split; [done|]. rewrite resolve_valid; [done|]. by destruct Hn.
  - apply Hm in Hc as (n' & -> & Hn').
    exists n'. split; [done|]. rewrite resolve_valid; [done|]. by destruct Hn'.
Qed.

End catalog_reads.

(** ** The frame of the exporter *)
Section batch_frame.
Context (json_loads : string → result json) (json_dumps : json → string).

Local Abbreviation convert_file := (cf.convert_file json_loads json_dumps).
Local Abbreviation convert_loop := (cf.convert_loop json_loads json_dumps).
Local Abbreviation convert_all := (cf.convert_all json_loads json_dumps).

Lemma mkdir_exist_ok_frame p w q :
  files (mkdir_exist_ok p w).2 !! q = files w !! q
  ∨ (files w !! q = None ∧ files (mkdir_exist_ok p w).2 !! q = Some Dir).
Proof.
  unfold mkdir_exist_ok.
  destruct (node_at (files w) (resolve p)) as [[|c]|] eqn:E; simpl;
    [by left..|].
  destruct (stat_error (files w) p); [by left|]. simpl.
  destruct (decide (resolve p = q)) as [<-|Hne].
  - right. destruct (resolve p); [done|]. simpl in E.
    by rewrite lookup_insert_eq.
  - left. by rewrite lookup_insert_ne.
Qed.

Lemma mkdir_parents_frame p w q :
  files (mkdir_parents p w).2 !! q = files w !! q
  ∨ (files w !! q = None ∧ files (mkdir_parents p w).2 !! q = Some Dir).
Proof.
  unfold mkdir_parents. generalize (prefixes_from [] p). intros l.
  revert w. induction l as [|a l IH]; intros w; [by left|].
  cbn [for_each]. unfold bind.
  pose proof (mkdir_exist_ok_frame a w q) as H1.
  pose proof (mkdir_exist_ok_spec a w) as (Hsub & _).
  destruct (mkdir_exist_ok a w) as [[[]|e] w1]; simpl in *; [|done].
  destruct (IH w1) as [H2|[H2 H3]].
  - rewrite H2. done.
  - destruct H1 as [H1|[H1 H1']]; [|congruence].
    right. by rewrite <- H1.
Qed.

(** X21: whatever its arguments and whether it returns or raises,
    [convert_all] leaves every path that is not an entry of the destination
    directory as it was, except that it may create a directory where there
    was nothing (the destination directory and its missing ancestors). *)
Theorem convert_all_changes_only_destination_entries (src dst : path)
  (overwrite : bool) (pattern : string) (w : world) (q : path) :
  (∀ x, q ≠ resolve dst ++ [x]) →
  files (convert_all src dst overwrite pattern w).2 !! q = files w !! q
  ∨ (files w !! q = None
     ∧ files (convert_all src dst overwrite pattern w).2 !! q = Some Dir).
Proof.
  intros Hq. unfold cf.convert_all, bind.
  pose proof (mkdir_parents_frame dst w q) as Hm.
  destruct (mkdir_parents dst w) as [[[]|e] w1]; [|done]. simpl in Hm.
  destruct (glob_spec src pattern w1) as [(l & -> & _)|(e & -> & _)]; [|done].
  by rewrite (convert_loop_frame json_loads json_dumps).
Qed.

(** Without [overwrite], over paths that exist: when the loop returns,
    the names reported as converted are distinct, each was free at the
    start, and each is the destination name of an API graph among the
    paths. *)
Lemma convert_loop_new_names dst paths acc w acc' :
  NoDup acc.1 →
  (∀ x, x ∈ acc.1 → is_Some (files w !! (resolve dst ++ [x]))) →
  (∀ p, p ∈ paths → is_Some (node_at (files w) (resolve p))) →
  (convert_loop dst false paths acc w).1 = Ok acc' →
  NoDup acc'.1
  ∧ (∀ x, x ∈ acc'.1 →
          is_Some (files (convert_loop dst false paths acc w).2
                     !! (resolve dst ++ [x])))
  ∧ (∀ x, x ∈ acc'.1 →
          x ∈ acc.1
          ∨ (files w !! (resolve dst ++ [x]) = None
             ∧ ∃ p d, p ∈ paths
                      ∧ outcome_of json_loads (files w) p = Api d
                      ∧ x = cf._target_name (path_name p))).
Proof.
  revert acc w. induction paths as [|p paths IH]; intros acc w Hnd Hex Hps.
  { simpl. intros [= <-]. split; [done|]. split; [done|]. by left. }
  assert (∀ p', p' ∈ paths → is_Some (node_at (files w) (resolve p'))) as Hps'.
  { intros p' ?. apply Hps. by right. }
  cbn [cf.convert_loop]. unfold bind.
  pose proof (convert_file_spec json_loads json_dumps dst false p acc w) as H.
  cbv zeta in H.
  set (q := resolve dst ++ [cf._target_name (path_name p)]) in *.
  destruct (outcome_of json_loads (files w) p) as [| |d] eqn:Ho.
  - destruct (stat_error _ _); rewrite H; [done|].
    intros (Hn & He & Hfrom)%IH; [|done..].
    split; [done|]. split; [done|].
    intros x [?|(? & p' & d & ? & ? & ?)]%Hfrom; [by left|]. right.
    split; [done|]. exists p', d. split; [by right | done].
  - rewrite H. intros (Hn & He & Hfrom)%IH; [|done..].
    split; [done|]. split; [done|].
    intros x [?|(? & p' & d & ? & ? & ?)]%Hfrom; [by left|]. right.
    split; [done|]. exists p', d. split; [by right | done].
  - destruct (stat_error _ _); [by rewrite H|].
    rewrite andb_true_r in H. destruct (bool_decide _) eqn:Hb.
    + rewrite H. intros (Hn & He & Hfrom)%IH; [|done..].
      split; [done|]. split; [done|].
      intros x [?|(? & p' & d' & ? & ? & ?)]%Hfrom; [by left|]. right.
      split; [done|]. exists p', d'. split; [by right | done].
    + apply bool_decide_eq_false in Hb.
      assert (files w !! q = None) as Hnone.
      { destruct (files w !! q) eqn:E; [|done]. destruct Hb. eauto. }
      destruct (writable _ _ _); [|by destruct H as [e ->]].
      destruct (utf8_encodable _); rewrite H; [|done].
      set (w2 := log (Write q) _).
      assert (files w ⊆ files w2) as Hsub by (by apply insert_subseteq).
      intros (Hn & He & Hfrom)%IH.
      2:{ simpl. apply NoDup_app. split; [done|].
          split; [|apply NoDup_singleton].
          intros x Hx ->%list_elem_of_singleton. apply Hex in Hx as [nd Hx].
          fold q in Hx. congruence. }
      2:{ simpl. intros x [Hx| ->%list_elem_of_singleton]%elem_of_app.
          - apply Hex in Hx as [nd Hx]. exists nd. by eapply lookup_weaken.
          - eexists. apply lookup_insert_eq. }
      2:{ intros p' Hp'. destruct (Hps' p' Hp') as [nd Hnd'].
          exists nd. by eapply node_at_weaken. }
      split; [done|]. split; [done|].
      intros x [Hx|(Hx & p' & d' & Hp' & Hd' & ->)]%Hfrom.
      * simpl in Hx. apply elem_of_app in Hx as [?| ->%list_elem_of_singleton];
          [by left|].
        right. split; [done|]. exists p, d. split; [by left | done].
      * right. split.
        { destruct (files w !! (resolve dst ++ [cf._target_name (path_name p')]))
            eqn:E; [|done].
          pose proof (lookup_weaken _ _ _ _ E Hsub). simpl in *. congruence. }
        exists p', d'. split; [by right|]. split; [|done].
        rewrite <- Hd'. symmetry. apply outcome_of_agree.
        destruct (Hps' p' Hp') as [nd Hnd'].
        by rewrite Hnd', (node_at_weaken _ _ _ _ Hsub Hnd').
Qed.

(** X20: over the entries of an existing source directory, named without
    a parent-directory segment, and without [overwrite]: when
    [convert_all] returns, the names reported as converted are distinct,
    each was absent from the destination directory before the call, and
    each is the destination name of a selected regular file of the source
    that holds an API graph. *)
Theorem no_overwrite_reports_only_new_files (src dst : path)
  (pattern : string) (w : world) (converted skipped : list string) :
  plain_pattern pattern = true →
  no_parent_segment src = true →
  node_at (files w) (resolve src) = Some Dir →
  (convert_all src dst false pattern w).1 = Ok (converted, skipped) →
  NoDup converted
  ∧ Forall (λ x,
              files w !! (resolve dst ++ [x]) = None
              ∧ ∃ n d, listed (files w) src pattern n
                       ∧ outcome_of json_loads (files w) (src ++ [n]) = Api d
                       ∧ x = cf._target_name n) converted.
Proof.
  intros _ _ _. unfold cf.convert_all, bind.
  destruct (mkdir_parents_spec dst w) as (Hsub & _ & Hreg).
  destruct (mkdir_parents dst w) as [[[]|e] w1]; [|done].
  simpl in Hsub, Hreg.
  destruct (glob_spec src pattern w1) as [(l & -> & Hl)|(e & -> & _)]; [|done].
  intros (Hn & _ & Hfrom)%convert_loop_new_names.
  2:{ constructor. }
  2:{ by intros x ?%elem_of_nil. }
  2:{ intros p (n & -> & Hv & _ & Hs)%elem_of_sorted%Hl.
      by rewrite resolve_valid, node_at_snoc. }
  simpl in *. split; [done|].
  apply Forall_forall. intros x [[]%elem_of_nil|(Hx & p & d & Hp & Hd & ->)]%Hfrom.
  apply elem_of_sorted, Hl in Hp as (n & -> & Hv & Hf & _).
  rewrite path_name_snoc in *. split.
  { destruct (files w !! (resolve dst ++ [cf._target_name n])) eqn:E; [|done].
    pose proof (lookup_weaken _ _ _ _ E Hsub). congruence. }
  rewrite (outcome_of_same_files json_loads _ _ _ Hsub Hreg) in Hd.
  exists n, d. split; [|done]. split; [done|]. split; [done|].
  unfold outcome_of in Hd. rewrite resolve_valid, node_at_snoc in Hd by done.
  destruct (files w !! (resolve src ++ [n])) as [[|c]|]; try done. eauto.
Qed.

End batch_frame.

(** * Examples

    The theorems above at the files of [demo.disk], with the decoder and
    the encoder of [basic_json]; and the inputs at which a claim of the
    specification, read as it is written, does not describe the code. *)

Ltac evaluate := vm_compute; reflexivity.

Lemma companion_resolution_witness :
  ∃ items,
    (api.list_workflows basic_json.loads demo.WORKFLOWS demo.start).1 = Ok items
    ∧ (∃ e, e ∈ items ∧ e !! "filename" = Some (JString "b.json"))
    ∧ ∀ e, e ∈ items → e !! "filename" = Some (JString "b.json") →
        e !! "template_url"
        = Some (JString ("/cvb/workflows/" +:+ (name_stem "b.json" +:+ ".api.json")
                         +:+ "?format=api"))
        ∧ e !! "is_api"
          = Some (JBool (loadable basic_json.loads (Ok demo.api_text)))
        ∧ e !! "error" = None.
Proof.
  apply (companion_resolution basic_json.loads demo.WORKFLOWS demo.start
           "b.json" demo.ui_text demo.ui_doc (Ok demo.api_text)); evaluate.
Defined.

(** C3, the input on which the code falls short of the claim: [a.json] is
    a UI workflow next to a companion [a.api.json] that does not decode;
    its entry targets the companion and has [is_api] false, where the claim
    asks for true. *)
Lemma companion_that_fails_to_load_counterexample :
  demo.disk !! (demo.WORKFLOWS ++ ["a.json"]) = Some (Reg (Ok demo.ui_text))
  ∧ basic_json.loads demo.ui_text = Ok demo.ui_doc
  ∧ api._is_api_graph demo.ui_doc = false
  ∧ demo.disk !! (demo.WORKFLOWS ++ ["a.api.json"]) = Some (Reg (Ok "{"))
  ∧ List.map (demo.field "is_api") (demo.entries_named "a.json" demo.listing)
    = [Some (JBool false)]
  ∧ List.map (demo.field "template_url")
      (demo.entries_named "a.json" demo.listing)
    = [Some (JString "/cvb/workflows/a.api.json?format=api")].
Proof. repeat split; evaluate. Qed.

Lemma truthy_non_mapping_meta_degrades_witness :
  ∃ items,
    (api.list_workflows basic_json.loads demo.WORKFLOWS demo.start).1 = Ok items
    ∧ (∃ e, e ∈ items ∧ e !! "filename" = Some (JString "m.json"))
    ∧ ∀ e, e ∈ items → e !! "filename" = Some (JString "m.json") →
        e !! "error" = Some (JBool true)
        ∧ e !! "is_api" = Some (JBool false)
        ∧ e !! "description"
          = Some (JString ("Failed to parse: "
                           +:+ ("'" +:+ type_name (JString "draft")
                                +:+ "' object has no attribute 'get'")))
        ∧ e !! "title" = Some (JString (name_stem "m.json"))
        ∧ e !! "tags" = None
        ∧ e !! "version" = None.
Proof.
  apply (truthy_non_mapping_meta_degrades basic_json.loads demo.WORKFLOWS
           demo.start "m.json" demo.meta_text demo.meta_fields
           (JString "draft")); evaluate.
Defined.

Lemma raw_returns_text_of_decodable_file_witness :
  (api.get_workflow basic_json.loads demo.WORKFLOWS
     (api.Request (Some "a.json") (Some "raw")) demo.start).1
  = Ok match basic_json.loads demo.ui_text with
       | Ok _ => api.Response 200 demo.ui_text (Some "application/json") api.cors
       | Raise e => api.Response 500 ("Failed to read workflow: " +:+ e) None []
       end.
Proof.
  apply (raw_returns_text_of_decodable_file basic_json.loads demo.WORKFLOWS
           demo.start "a.json" demo.ui_text); evaluate.
Defined.

(** C2 as written fails: [a.api.json] is a readable regular [.json] file
    whose text is not JSON; [format=raw] answers 500, not the text. *)
Lemma raw_of_undecodable_file_counterexample :
  valid_name "a.api.json" = true
  ∧ name_suffix "a.api.json" = ".json"
  ∧ demo.disk !! (demo.WORKFLOWS ++ ["a.api.json"]) = Some (Reg (Ok "{"))
  ∧ status_of (demo.get "a.api.json" (Some "raw")).1 = Some 500.
Proof. repeat split; evaluate. Qed.

Lemma api_form_is_validated_not_converted_witness :
  (api.get_workflow basic_json.loads demo.WORKFLOWS
     (api.Request (Some "b.json") (Some "api")) demo.start).1
  = Ok (if api._is_api_graph demo.ui_doc
        then api.Response 200 demo.ui_text (Some "application/json") api.cors
        else api.Response 422
               "Workflow is a UI workflow, not an API graph. Export API (JSON) and save as .api.json."
               None api.cors)
  ∧ files (api.get_workflow basic_json.loads demo.WORKFLOWS
             (api.Request (Some "b.json") (Some "api")) demo.start).2
    = files demo.start.
Proof.
  apply (api_form_is_validated_not_converted basic_json.loads demo.WORKFLOWS
           demo.start "b.json" demo.ui_text demo.ui_doc); evaluate.
Defined.

(** C5 as written fails: the instruction carried by the 422 response is not
    the text the claim quotes. *)
Lemma api_form_instruction_counterexample :
  basic_json.loads demo.ui_text = Ok demo.ui_doc
  ∧ api._is_api_graph demo.ui_doc = false
  ∧ (demo.get "b.json" (Some "api")).1
    = Ok (api.Response 422
            "Workflow is a UI workflow, not an API graph. Export API (JSON) and save as .api.json."
            None api.cors)
  ∧ String.eqb
      "Workflow is a UI workflow, not an API graph. Export API (JSON) and save as .api.json."
      "Workflow is a UI workflow, not an API graph. Export API and save as *.api.json."
    = false.
Proof. repeat split; evaluate. Qed.

Lemma format_is_case_insensitive_witness :
  api.get_workflow basic_json.loads demo.WORKFLOWS
    (api.Request (Some "b.api.json") (Some "RAW")) demo.start
  = api.get_workflow basic_json.loads demo.WORKFLOWS
      (api.Request (Some "b.api.json") (Some "raw")) demo.start
  ∧ (status_of (api.get_workflow basic_json.loads demo.WORKFLOWS
                  (api.Request (Some "b.api.json") (Some "RAW")) demo.start).1
     = Some 400
     ↔ spelled "raw" "RAW" = false ∧ spelled "api" "RAW" = false).
Proof.
  destruct (format_is_case_insensitive basic_json.loads demo.WORKFLOWS
              demo.start "b.api.json" demo.api_text demo.api_doc "RAW")
    as [Hsame H400]; [evaluate..|].
  split; [|exact H400]. apply (Hsame "raw"); [by left | evaluate].
Defined.





Lemma existing_destination_is_left_alone_witness :
  (files (cf.convert_all basic_json.loads basic_json.dumps demo.BATCH
            demo.OUT false "*.json" demo.start).2
     !! (resolve demo.OUT ++ [cf._target_name "x.json"]))
  = Some (Reg (Ok "kept"))
  ∧ (cf.convert_all basic_json.loads basic_json.dumps demo.BATCH demo.OUT
       false "*.json" demo.start).1
    = Ok ([], ["y.json"; "z.json"])
  ∧ (cf._target_name "x.json" ∉ [])
  ∧ ("x.json" ∉ [])
  ∧ ("x.json" ∉ ["y.json"; "z.json"]).
Proof.
  destruct (existing_destination_is_left_alone basic_json.loads
              basic_json.dumps demo.BATCH demo.OUT "*.json" demo.start
              "x.json" demo.api_text demo.api_doc (Reg (Ok "kept")))
    as (Hkept & Hconv & Hskip); [evaluate..|].
  assert ((cf.convert_all basic_json.loads basic_json.dumps demo.BATCH demo.OUT
             false "*.json" demo.start).1
          = Ok ([], ["y.json"; "z.json"])) as Hrun by evaluate.
  split; [exact Hkept|]. split; [exact Hrun|].
  destruct (Hconv _ _ Hrun) as [H1 H2].
  split; [exact H1|]. split; [exact H2|].
  apply (Hskip eq_refl _ _ Hrun).
Defined.



Lemma meta_from_defaults_witness :
  api._meta_from (demo.WORKFLOWS ++ ["my-flow.json"])
    (JObject (<["cvb_meta" := JString ""]> ∅))
  = Ok (dict_update ∅
          [("id", JString (stem (demo.WORKFLOWS ++ ["my-flow.json"])));
           ("title",
            JString (title (replace_char "-" " "
                              (stem (demo.WORKFLOWS ++ ["my-flow.json"])))));
           ("description", JString "");
           ("tags", JArray []);
           ("version", JString "1")]).
Proof.
  apply (meta_from_defaults (demo.WORKFLOWS ++ ["my-flow.json"])
           (JObject (<["cvb_meta" := JString ""]> ∅))); evaluate.
Defined.

Lemma meta_from_fields_witness :
  (∀ k, is_Some
          (dict_update ∅
             [("id", JString "b.api");
              ("title", JString "B.Api");
              ("description", JString "");
              ("tags", JArray []);
              ("version", JString "1")] !! k)
        ↔ k ∈ ["id"; "title"; "description"; "tags"; "version"])
  ∧ truthy (dict_get
              (dict_update ∅
                 [("id", JString "b.api");
                  ("title", JString "B.Api");
                  ("description", JString "");
                  ("tags", JArray []);
                  ("version", JString "1")]) "id") = true
  ∧ truthy (dict_get
              (dict_update ∅
                 [("id", JString "b.api");
                  ("title", JString "B.Api");
                  ("description", JString "");
                  ("tags", JArray []);
                  ("version", JString "1")]) "title") = true.
Proof.
  apply (meta_from_fields (demo.WORKFLOWS ++ ["b.api.json"]) demo.api_doc).
  - by vm_compute.
  - evaluate.
Defined.

Lemma unloadable_file_is_listed_as_error_witness :
  ∃ items,
    (api.list_workflows basic_json.loads demo.WORKFLOWS demo.start).1 = Ok items
    ∧ (∃ it, it ∈ items ∧ it !! "filename" = Some (JString "a.api.json"))
    ∧ ∀ it, it ∈ items → it !! "filename" = Some (JString "a.api.json") →
        it !! "error" = Some (JBool true)
        ∧ it !! "is_api" = Some (JBool false)
        ∧ it !! "description"
          = Some (JString ("Failed to parse: " +:+ "Expecting value"))
        ∧ it !! "id" = Some (JString (name_stem "a.api.json"))
        ∧ it !! "title" = Some (JString (name_stem "a.api.json"))
        ∧ it !! "raw_url"
          = Some (JString ("/cvb/workflows/" +:+ "a.api.json" +:+ "?format=raw"))
        ∧ it !! "template_url"
          = Some (JString ("/cvb/workflows/" +:+ "a.api.json" +:+ "?format=api")).
Proof.
  apply (unloadable_file_is_listed_as_error basic_json.loads demo.WORKFLOWS
           demo.start "a.api.json" "Expecting value" (Ok demo.broken_text));
    [evaluate | evaluate | evaluate |].
  right. exists demo.broken_text. split; evaluate.
Defined.

Lemma entry_without_companion_witness :
  ∃ items,
    (api.list_workflows basic_json.loads demo.WORKFLOWS demo.start).1 = Ok items
    ∧ (∃ it, it ∈ items ∧ it !! "filename" = Some (JString "b.api.json"))
    ∧ ∀ it, it ∈ items → it !! "filename" = Some (JString "b.api.json") →
        it !! "is_api"
        = Some (JBool (api._is_api_graph demo.api_doc
                       || endswith (name_stem "b.api.json") ".api"))
        ∧ it !! "raw_url"
          = Some (JString ("/cvb/workflows/" +:+ "b.api.json" +:+ "?format=raw"))
        ∧ it !! "template_url"
          = Some (JString ("/cvb/workflows/" +:+ "b.api.json" +:+ "?format=api"))
        ∧ it !! "error" = None.
Proof.
  apply (entry_without_companion basic_json.loads demo.WORKFLOWS demo.start
           "b.api.json" demo.api_text demo.api_doc);
    [evaluate | evaluate | evaluate | evaluate | evaluate |].
  left. evaluate.
Defined.

Lemma load_failure_is_internal_error_for_any_format_witness :
  (api.get_workflow basic_json.loads demo.WORKFLOWS
     (api.Request (Some "a.api.json") (Some "api")) demo.start).1
  = Ok (api.Response 500 ("Failed to read workflow: " +:+ "Expecting value")
          None []).
Proof.
  apply (load_failure_is_internal_error_for_any_format basic_json.loads
           demo.WORKFLOWS (api.Request (Some "a.api.json") (Some "api"))
           demo.start (Ok demo.broken_text) "Expecting value");
    [evaluate | evaluate |].
  right. exists demo.broken_text. split; evaluate.
Defined.

Lemma success_carries_the_file_text_witness :
  ∃ t d,
    node_at (files demo.start)
      (resolve (requested demo.WORKFLOWS
                  (api.Request (Some "b.api.json") (Some "api"))))
    = Some (Reg (Ok t))
    ∧ suffix (requested demo.WORKFLOWS
                (api.Request (Some "b.api.json") (Some "api"))) = ".json"
    ∧ basic_json.loads t = Ok d
    ∧ api.Response 200 demo.api_text (Some "application/json") api.cors
      = api.Response 200 t (Some "application/json") api.cors
    ∧ (lower (default "raw"
                (api.query_format
                   (api.Request (Some "b.api.json") (Some "api")))) = "raw"
       ∨ (lower (default "raw"
                   (api.query_format
                      (api.Request (Some "b.api.json") (Some "api")))) = "api"
          ∧ api._is_api_graph d = true)).
Proof.
  apply (success_carries_the_file_text basic_json.loads demo.WORKFLOWS
           (api.Request (Some "b.api.json") (Some "api")) demo.start
           (api.Response 200 demo.api_text (Some "application/json") api.cors));
    evaluate.
Defined.

Lemma template_alias_adds_the_suffix_witness :
  api.get_template_alias basic_json.loads demo.WORKFLOWS
    (api.Request (Some "b.api") None) demo.start
  = api.get_workflow basic_json.loads demo.WORKFLOWS
      (api.Request (Some ("b.api" +:+ ".json")) (Some "api")) demo.start
  ∧ api.get_template_alias basic_json.loads demo.WORKFLOWS
      (api.Request (Some "b.api") None) demo.start
    = api.get_template_alias basic_json.loads demo.WORKFLOWS
        (api.Request (Some ("b.api" +:+ ".json")) (Some "raw")) demo.start.
Proof.
  apply (template_alias_adds_the_suffix basic_json.loads demo.WORKFLOWS
           "b.api" None (Some "raw") demo.start); evaluate.
Defined.

Lemma convert_all_touches_only_its_files_witness :
  ∃ evs,
    trace (cf.convert_all basic_json.loads basic_json.dumps demo.BATCH
             demo.FRESH false "*.json" demo.start).2
    = trace demo.start ++ evs
    ∧ Forall (batch_event demo.BATCH demo.FRESH "*.json") evs.
Proof.
  apply (convert_all_touches_only_its_files basic_json.loads basic_json.dumps
           demo.BATCH demo.FRESH false "*.json" demo.start).
  evaluate.
Defined.

Lemma converted_names_are_written_witness :
  Forall (λ x,
            valid_name x = true
            ∧ endswith x ".api.json" = true
            ∧ ∃ d, cf._is_api_graph d = true
                   ∧ files (cf.convert_all basic_json.loads basic_json.dumps
                              demo.BATCH demo.FRESH false "*.json"
                              demo.start).2
                       !! (resolve demo.FRESH ++ [x])
                     = Some (Reg (Ok (basic_json.dumps d))))
    ["x.api.json"].
Proof.
  apply (converted_names_are_written basic_json.loads basic_json.dumps
           demo.BATCH demo.FRESH false "*.json" demo.start
           ["x.api.json"] ["y.json"; "z.json"]).
  evaluate.
Defined.

Lemma destination_is_a_directory_afterwards_witness :
  node_at (files (cf.convert_all basic_json.loads basic_json.dumps
                    demo.BATCH demo.FRESH false "*.json" demo.start).2)
    (resolve demo.FRESH)
  = Some Dir.
Proof.
  apply (destination_is_a_directory_afterwards basic_json.loads
           basic_json.dumps demo.BATCH demo.FRESH false "*.json" demo.start
           (["x.api.json"], ["y.json"; "z.json"])).
  evaluate.
Defined.

Lemma destination_that_is_a_file_raises_witness :
  ∃ e,
    (cf.convert_all basic_json.loads basic_json.dumps demo.WORKFLOWS
       (demo.BATCH ++ ["x.json"]) true "*.json" demo.start).1 = Raise e
    ∧ trace (cf.convert_all basic_json.loads basic_json.dumps demo.WORKFLOWS
               (demo.BATCH ++ ["x.json"]) true "*.json" demo.start).2
      = trace demo.start
    ∧ files demo.start
      ⊆ files (cf.convert_all basic_json.loads basic_json.dumps demo.WORKFLOWS
                 (demo.BATCH ++ ["x.json"]) true "*.json" demo.start).2
    ∧ ∀ q t,
        files (cf.convert_all basic_json.loads basic_json.dumps demo.WORKFLOWS
                 (demo.BATCH ++ ["x.json"]) true "*.json" demo.start).2 !! q
        = Some (Reg t) →
        files demo.start !! q = Some (Reg t).
Proof.
  apply (destination_that_is_a_file_raises basic_json.loads basic_json.dumps
           demo.WORKFLOWS (demo.BATCH ++ ["x.json"]) true "*.json" demo.start
           (Ok demo.api_text)).
  evaluate.
Defined.

Lemma second_run_converts_nothing_witness :
  (cf.convert_all basic_json.loads basic_json.dumps demo.BATCH demo.FRESH
     false "*.json"
     (cf.convert_all basic_json.loads basic_json.dumps demo.BATCH demo.FRESH
        false "*.json" demo.start).2).1
  = Ok ([], ["y.json"; "z.json"])
  ∧ files (cf.convert_all basic_json.loads basic_json.dumps demo.BATCH
             demo.FRESH false "*.json"
             (cf.convert_all basic_json.loads basic_json.dumps demo.BATCH
                demo.FRESH false "*.json" demo.start).2).2
    = files (cf.convert_all basic_json.loads basic_json.dumps demo.BATCH
               demo.FRESH false "*.json" demo.start).2.
Proof.
  apply (second_run_converts_nothing basic_json.loads basic_json.dumps
           demo.BATCH demo.FRESH "*.json" demo.start ["x.api.json"]
           ["y.json"; "z.json"]); [evaluate | evaluate | evaluate | |evaluate].
  by vm_compute.
Defined.

Lemma convert_all_reports_by_outcome_witness :
  ∃ names,
    Sorted String.le names ∧ NoDup names
    ∧ (∀ n, n ∈ names ↔ listed (files demo.start) demo.BATCH "*.json" n)
    ∧ ["y.json"; "z.json"]
      = List.filter
          (λ n, is_skip (outcome_of basic_json.loads (files demo.start)
                           (demo.BATCH ++ [n]))) names
    ∧ (true = true →
       ["x.api.json"]
       = List.map cf._target_name
           (List.filter
              (λ n, is_api_outcome
                      (outcome_of basic_json.loads (files demo.start)
                         (demo.BATCH ++ [n])))
              names)).
Proof.
  apply (convert_all_reports_by_outcome basic_json.loads basic_json.dumps
           demo.BATCH demo.FRESH true "*.json" demo.start ["x.api.json"]
           ["y.json"; "z.json"]); [evaluate | evaluate | evaluate | |evaluate].
  by vm_compute.
Defined.

Lemma served_as_template_iff_exportable_witness :
  status_of (api.get_workflow basic_json.loads demo.WORKFLOWS
               (api.Request (Some "b.api.json") (Some "api")) demo.start).1
  = Some 200
  ↔ is_api_outcome (outcome_of basic_json.loads (files demo.start)
                      (demo.WORKFLOWS ++ ["b.api.json"])) = true.
Proof.
  apply (served_as_template_iff_exportable basic_json.loads demo.WORKFLOWS
           demo.start "b.api.json"); evaluate.
Defined.

Lemma no_overwrite_reports_only_new_files_witness :
  NoDup ["x.api.json"]
  ∧ Forall (λ x,
              files demo.start !! (resolve demo.FRESH ++ [x]) = None
              ∧ ∃ n d, listed (files demo.start) demo.BATCH "*.json" n
                       ∧ outcome_of basic_json.loads (files demo.start)
                           (demo.BATCH ++ [n]) = Api d
                       ∧ x = cf._target_name n) ["x.api.json"].
Proof.
  apply (no_overwrite_reports_only_new_files basic_json.loads basic_json.dumps
           demo.BATCH demo.FRESH "*.json" demo.start ["x.api.json"]
           ["y.json"; "z.json"]); evaluate.
Defined.

Lemma convert_all_changes_only_destination_entries_witness :
  files (cf.convert_all basic_json.loads basic_json.dumps demo.BATCH demo.OUT
           true "*.json" demo.start).2 !! (demo.BATCH ++ ["x.json"])
  = files demo.start !! (demo.BATCH ++ ["x.json"])
  ∨ (files demo.start !! (demo.BATCH ++ ["x.json"]) = None
     ∧ files (cf.convert_all basic_json.loads basic_json.dumps demo.BATCH
                demo.OUT true "*.json" demo.start).2
         !! (demo.BATCH ++ ["x.json"]) = Some Dir).
Proof.
  apply (convert_all_changes_only_destination_entries basic_json.loads
           basic_json.dumps demo.BATCH demo.OUT true "*.json" demo.start
           (demo.BATCH ++ ["x.json"])).
  intros x E. vm_compute in E. discriminate.
Defined.

(** ** Errors that escape

    A requested name of 300 bytes: [path.exists()] raises before the
    [try] of [get_workflow]. *)
Example over_long_name_raises :
  demo.get demo.long_name (Some "raw")
  = (Raise ("[Errno 36] File name too long: '/srv/user/workflows/"
            +:+ demo.long_name +:+ "'"),
     demo.start).
Proof. evaluate. Qed.

(** A text that cannot be encoded: [write_text] has opened, and so
    emptied, the destination file when the encoder raises, and the batch
    stops there. *)
Example lone_surrogate_aborts_batch :
  (cf.convert_all basic_json.loads demo.dumps_surrogate demo.BATCH demo.FRESH
     false "*.json" demo.start).1
  = Raise ("'utf-8' codec can't encode character '\ud800' in position 0: "
           +:+ "surrogates not allowed")
  ∧ files (cf.convert_all basic_json.loads demo.dumps_surrogate demo.BATCH
             demo.FRESH false "*.json" demo.start).2
      !! (demo.FRESH ++ ["x.api.json"])
    = Some (Reg (Ok "")).
Proof. split; evaluate. Qed.
